(** * CamblissNews: premium gate, media player and article submission

    A shallow embedding of the client-side logic of the CamblissNews web
    application, and the properties of its specification that the code
    decides:

    - [usePremium] (hooks/usePremium; its text follows the migration in
      supabase/migrations/20251106100701_create_user_articles_table.sql):
      the premium status resolver;
    - [AddNewsModal] (src/components/AddNewsModal.tsx): form validation, the
      read-time estimate and the submission handler;
    - [MiniPlayer] (components/MiniPlayer; its text follows the modal in
      src/components/AddNewsModal.tsx): the audio player with its 60-second
      free preview.

    Conventions of the embedding.

    - A JavaScript string is the list of its UTF-16 code units, each a
      number in [N]; [js "..."] writes an ASCII literal.
    - A JavaScript number that holds a media position or a duration is an
      IEEE 754 binary64 value, Rocq's primitive [float]: comparisons and
      products are the ones the browser computes.
    - A JavaScript number that holds a count (a length, a word count, a
      counter) is an integer; binary64 represents every integer below 2^53
      exactly, so integer arithmetic is what the code computes on them.
    - React state is passed explicitly; a handler is a function of the values
      its closure captured and of the current state.
    - [localStorage] is a finite map from strings to strings. *)

From Stdlib Require Import PrimFloat NArith ZArith Lia.
From stdpp Require Import base strings list gmap pretty.

(** * Part I: the program *)

(** ** JavaScript strings *)

Abbreviation jsstring := (list N).

(** The code units of an ASCII literal. *)
Definition js (s : string) : jsstring :=
  map Ascii.N_of_ascii (String.list_ascii_of_string s).

Module JsString.

(** ECMAScript [WhiteSpace] and [LineTerminator] code points: what
    [String.prototype.trim] strips and what [\s] matches. *)
Definition isWhiteSpace (c : N) : bool :=
  match c with
  | 9 | 10 | 11 | 12 | 13 | 32 | 160 | 5760
  | 8192 | 8193 | 8194 | 8195 | 8196 | 8197 | 8198 | 8199 | 8200 | 8201 | 8202
  | 8232 | 8233 | 8239 | 8287 | 12288 | 65279 => true
  | _ => false
  end%N.

(** ECMAScript [LineTerminator]: LF, CR, LS, PS; the characters that [.]
    does not match. *)
Definition isLineTerminator (c : N) : bool :=
  match c with
  | 10 | 13 | 8232 | 8233 => true
  | _ => false
  end%N.

Fixpoint trimStart (s : jsstring) : jsstring :=
  match s with
  | [] => []
  | c :: r => if isWhiteSpace c then trimStart r else s
  end.

Definition trimEnd (s : jsstring) : jsstring := rev (trimStart (rev s)).

(** [s.trim()] *)
Definition trim (s : jsstring) : jsstring := trimEnd (trimStart s).

(** A string is falsy exactly when it is empty. *)
Definition truthy (s : jsstring) : bool :=
  match s with [] => false | _ :: _ => true end.

(** [a || b] on strings. *)
Definition or_else (a b : jsstring) : jsstring := if truthy a then a else b.

(** [s.split(/\s+/)]: the pieces between the maximal runs of white space.
    [insep] tells that the previous character belonged to a separator,
    [cur] is the current piece, reversed.  A leading or a trailing run
    yields an empty first or last piece, and the empty string yields the
    single piece [""], as in ECMAScript. *)
Fixpoint split_ws_go (insep : bool) (cur : jsstring) (s : jsstring) : list jsstring :=
  match s with
  | [] => [rev cur]
  | c :: r =>
      if isWhiteSpace c then
        if insep then split_ws_go true [] r
        else rev cur :: split_ws_go true [] r
      else split_ws_go false (c :: cur) r
  end.

Definition split_whitespace (s : jsstring) : list jsstring := split_ws_go false [] s.

(** [s.split(sep)] for a separator of one character. *)
Fixpoint split_char_go (sep : N) (cur : jsstring) (s : jsstring) : list jsstring :=
  match s with
  | [] => [rev cur]
  | c :: r =>
      if N.eqb c sep then rev cur :: split_char_go sep [] r
      else split_char_go sep (c :: cur) r
  end.

Definition split_char (sep : N) (s : jsstring) : list jsstring := split_char_go sep [] s.

(** The number of words of a text: its maximal runs of characters that are
    not white space.  This is the specification's word count, not the
    code's; [inword] tells that the previous character was part of a
    word. *)
Fixpoint count_words_go (inword : bool) (s : jsstring) : nat :=
  match s with
  | [] => 0
  | c :: r =>
      if isWhiteSpace c then count_words_go false r
      else (if inword then 0 else 1) + count_words_go true r
  end.

Definition wordCount (s : jsstring) : nat := count_words_go false s.

(** Whether a text ends in white space; [prev] answers for the empty
    text. *)
Fixpoint ends_in_ws (prev : bool) (s : jsstring) : bool :=
  match s with
  | [] => prev
  | c :: r => ends_in_ws (isWhiteSpace c) r
  end.

(** Every character of the text is white space. *)
Definition blank (s : jsstring) : bool := forallb isWhiteSpace s.

(** [Math.ceil(n / d)] for a count [n] and a positive integer [d]. *)
Definition ceil_div (n d : nat) : nat :=
  if (n mod d =? 0)%nat then (n / d)%nat else S (n / d).

End JsString.

(** ** Regular expressions

    The fragment of ECMAScript patterns that the application uses: literal
    characters, [.], concatenation, alternation and repetition, with the
    [i] flag.  [Void] matches nothing; it only arises in derivatives. *)

Module Regex.
Import JsString.

Inductive regex : Type :=
| Void
| Eps
| Chr (c : N)
| Dot
| Cat (r1 r2 : regex)
| Alt (r1 r2 : regex)
| Star (r : regex).

(** [r?] and [r+] *)
Definition Opt (r : regex) : regex := Alt r Eps.
Definition Plus (r : regex) : regex := Cat r (Star r).

(** A literal word. *)
Definition lit (s : string) : regex :=
  fold_right (fun c r => Cat (Chr c) r) Eps (js s).

Fixpoint alts (rs : list regex) : regex :=
  match rs with
  | [] => Void
  | [r] => r
  | r :: rs' => Alt r (alts rs')
  end.

(** [Canonicalize] of a pattern without the [u] flag: the upper-case
    mapping, except that a character outside ASCII is never mapped into
    ASCII.  On ASCII it maps [a-z] to [A-Z]; a character outside ASCII
    stays outside, which is all that matters against the ASCII patterns of
    this application, so it is left as it is. *)
Definition canonicalize (c : N) : N :=
  if ((97 <=? c) && (c <=? 122))%N then (c - 32)%N else c.

(** Two strings that differ at most in the case of their ASCII letters. *)
Definition same_ignoring_case (a b : jsstring) : Prop :=
  map canonicalize a = map canonicalize b.

Definition char_matches (ignoreCase : bool) (pat x : N) : bool :=
  if ignoreCase then (canonicalize pat =? canonicalize x)%N else (pat =? x)%N.

Section Matcher.
Variable ignoreCase : bool.

(** The language of a pattern. *)
Inductive lang : regex -> jsstring -> Prop :=
| lang_eps : lang Eps []
| lang_chr c x : char_matches ignoreCase c x = true -> lang (Chr c) [x]
| lang_dot x : isLineTerminator x = false -> lang Dot [x]
| lang_cat r1 r2 s1 s2 : lang r1 s1 -> lang r2 s2 -> lang (Cat r1 r2) (s1 ++ s2)
| lang_alt_l r1 r2 s : lang r1 s -> lang (Alt r1 r2) s
| lang_alt_r r1 r2 s : lang r2 s -> lang (Alt r1 r2) s
| lang_star_nil r : lang (Star r) []
| lang_star_app r s1 s2 : lang r s1 -> lang (Star r) s2 -> lang (Star r) (s1 ++ s2).

Fixpoint nullable (r : regex) : bool :=
  match r with
  | Void => false
  | Eps => true
  | Chr _ => false
  | Dot => false
  | Cat r1 r2 => nullable r1 && nullable r2
  | Alt r1 r2 => nullable r1 || nullable r2
  | Star _ => true
  end.

(** Concatenation and alternation that drop [Void] and [Eps]. *)
Definition cat (r1 r2 : regex) : regex :=
  match r1, r2 with
  | Void, _ => Void
  | _, Void => Void
  | Eps, _ => r2
  | _, _ => Cat r1 r2
  end.

Definition alt (r1 r2 : regex) : regex :=
  match r1, r2 with
  | Void, _ => r2
  | _, Void => r1
  | _, _ => Alt r1 r2
  end.

(** The derivative of a pattern by a character. *)
Fixpoint deriv (x : N) (r : regex) : regex :=
  match r with
  | Void => Void
  | Eps => Void
  | Chr c => if char_matches ignoreCase c x then Eps else Void
  | Dot => if isLineTerminator x then Void else Eps
  | Cat r1 r2 =>
      alt (cat (deriv x r1) r2) (if nullable r1 then deriv x r2 else Void)
  | Alt r1 r2 => alt (deriv x r1) (deriv x r2)
  | Star r1 => cat (deriv x r1) (Star r1)
  end.

(** A pattern anchored at the start ([^r], no [$], no [m] flag) matches a
    string when some prefix of the string is in its language. *)
Fixpoint matches_prefix (r : regex) (s : jsstring) : bool :=
  nullable r ||
  match s with
  | [] => false
  | x :: s' => matches_prefix (deriv x r) s'
  end.

End Matcher.

End Regex.

(** ** usePremium: the premium status resolver *)

Module UsePremium.

(** [localStorage.getItem(key) === value]: [getItem] yields [null] for an
    absent key, and [null] is not strictly equal to a string. *)
Definition getItem_is (localStorage : gmap (list N) (list N)) (key value : jsstring) : bool :=
  bool_decide (localStorage !! key = Some value).

(** [checkPremium]: the value it passes to [setIsPremium]. *)
Definition checkPremium (subscriptionIsPremium : bool)
    (localStorage : gmap (list N) (list N)) : bool :=
  let localPremium := getItem_is localStorage (js "isPremium") (js "true") in
  subscriptionIsPremium || localPremium.

(** The state of the hook: [useState(false)]. *)
Record Hook := { isPremium : bool }.

Definition initial : Hook := {| isPremium := false |}.

(** What makes the hook recompute: the effect at mount (and whenever the
    subscription flag changes), a [storage] event, and a
    [premiumStatusChanged] event. *)
Inductive Trigger := EffectRun | StorageEvent | PremiumStatusChanged.

Definition handleStorageChange (subscriptionIsPremium : bool)
    (localStorage : gmap (list N) (list N)) (h : Hook) : Hook :=
  {| isPremium := checkPremium subscriptionIsPremium localStorage |}.

Definition recompute (t : Trigger) (subscriptionIsPremium : bool)
    (localStorage : gmap (list N) (list N)) (h : Hook) : Hook :=
  match t with
  | EffectRun => {| isPremium := checkPremium subscriptionIsPremium localStorage |}
  | StorageEvent => handleStorageChange subscriptionIsPremium localStorage h
  | PremiumStatusChanged => {| isPremium := checkPremium subscriptionIsPremium localStorage |}
  end.

End UsePremium.

(** ** AddNewsModal: the article submission workflow *)

Module AddNewsModal.
Import JsString Regex.

(** *** Data *)

Module FormData.
Record t := mk
  { title : jsstring;
    summary : jsstring;
    content : jsstring;
    imageUrl : jsstring;
    category : jsstring;
    source : jsstring;
    tags : jsstring }.
End FormData.
Abbreviation FormData := FormData.t.

(** The form as [useState] creates it and as [handleClose] resets it. *)
Definition emptyForm : FormData :=
  {| FormData.title := js "";
     FormData.summary := js "";
     FormData.content := js "";
     FormData.imageUrl := js "";
     FormData.category := js "breaking";
     FormData.source := js "Cambliss Community";
     FormData.tags := js "" |}.

(** The fields of the signed-in user that the component reads.
    [publishedStories] may be [undefined], here [None]. *)
Record User := mkUser
  { fullName : jsstring;
    id : jsstring;
    publishedStories : option Z }.

(** The object [newArticle]. *)
Module Article.
Record t := mk
  { title : jsstring;
    summary : jsstring;
    content : jsstring;
    image_url : jsstring;
    category : jsstring;
    source : jsstring;
    author : jsstring;
    author_id : jsstring;
    language : jsstring;
    tags : list jsstring;
    is_premium : bool;
    read_time : nat;
    published_at : jsstring;
    is_verified : bool;
    verification_score : float }.
End Article.
Abbreviation Article := Article.t.

(** The request given to [fetch].  Its body is [JSON.stringify(newArticle)];
    the article is kept as a record. *)
Record Request := mkRequest
  { url : jsstring;
    method : jsstring;
    headers : list (jsstring * jsstring);
    body : Article }.

(** A thrown [Error], as far as the handler looks at it: its [message]. *)
Record Exn := new_Error { message : jsstring }.

(** A parsed JSON document. *)
#[local] Set Warnings "-register-all".
Inductive Json : Type :=
| JNull
| JBool (b : bool)
| JNumber (x : float)
| JString (s : jsstring)
| JArray (items : list Json)
| JObject (fields : list (jsstring * Json)).

(** A response: [response.ok], and what [response.json()] settles to, a
    rejection when the body is not JSON. *)
Record Response := mkResponse
  { ok : bool;
    json : Exn + Json }.

(** What [fetch] settles to. *)
Inductive FetchResult :=
| Rejected (e : Exn)
| Resolved (r : Response).

(** The parts of the JavaScript engine that the handler relies on and that
    stay abstract: [JSON.stringify] on the user object, the conversion to
    a string that [new Error(v)] applies to a [v] that is not a string, and
    the [TypeError] of a property read on [null]. *)
Record Runtime := mkRuntime
  { JSON_stringify_user : User -> jsstring;
    ToString : Json -> jsstring;
    nullPropertyError : Exn }.

(** What surrounds one submission: the authentication and language
    contexts, the build-time configuration, the clock and the network.
    Of the authentication context the component takes [isAuthenticated],
    [user] and the function [addCamblissPoints]; the context itself
    (context/AuthContext) is not among the sources, and [persistAward] is
    what a call of that function does to [localStorage]: a parameter, on
    which the component decides nothing. *)
Record Env := mkEnv
  { isAuthenticated : bool;
    user : option User;
    persistAward : Z -> jsstring -> gmap (list N) (list N) -> gmap (list N) (list N);
    currentLanguage : jsstring;
    VITE_SUPABASE_URL : option jsstring;
    VITE_SUPABASE_ANON_KEY : option jsstring;
    now_toISOString : jsstring;
    network : Request -> FetchResult }.

(** The callback that [handleSubmit] hands to [setTimeout]. *)
Inductive Callback := AfterPublish.

(** The React state of the component. *)
Record State := mkState
  { isSubmitting : bool;
    error : jsstring;
    success : bool;
    formData : FormData }.

Definition initialState : State :=
  {| isSubmitting := false; error := js ""; success := false; formData := emptyForm |}.

(** The state after [setIsSubmitting], [setError], [setSuccess] and
    [setFormData]. *)
Definition withIsSubmitting (b : bool) (st : State) : State :=
  {| isSubmitting := b; error := error st; success := success st;
     formData := formData st |}.

Definition withError (e : jsstring) (st : State) : State :=
  {| isSubmitting := isSubmitting st; error := e; success := success st;
     formData := formData st |}.

Definition withSuccess (b : bool) (st : State) : State :=
  {| isSubmitting := isSubmitting st; error := error st; success := b;
     formData := formData st |}.

Definition withFormData (fd : FormData) (st : State) : State :=
  {| isSubmitting := isSubmitting st; error := error st; success := success st;
     formData := fd |}.

(** What the component acts on outside itself: [localStorage], the
    requests sent (oldest first), the calls of [addCamblissPoints], the
    pending timers, the calls of the [onSuccess] and [onClose] props, and
    the errors written to the console. *)
Record World := mkWorld
  { localStorage : gmap (list N) (list N);
    requests : list Request;
    pointsAwarded : list (Z * jsstring);
    timers : list (Callback * Z);
    onSuccessCalls : nat;
    onCloseCalls : nat;
    console : list Exn }.

(** *** A monad for state and exceptions *)

Inductive Completion (A : Type) : Type :=
| Normal (a : A)
| Abrupt (e : Exn).
Arguments Normal {A} a.
Arguments Abrupt {A} e.

Definition M (A : Type) : Type := State * World -> Completion A * (State * World).

Definition ret {A} (a : A) : M A := fun s => (Normal a, s).

Definition bind {A B} (c : M A) (k : A -> M B) : M B :=
  fun s =>
    match c s with
    | (Normal a, s') => k a s'
    | (Abrupt e, s') => (Abrupt e, s')
    end.

Definition throw {A} (e : Exn) : M A := fun s => (Abrupt e, s).

(** [try { c } catch (err) { h err }] *)
Definition try_catch {A} (c : M A) (h : Exn -> M A) : M A :=
  fun s =>
    match c s with
    | (Normal a, s') => (Normal a, s')
    | (Abrupt e, s') => h e s'
    end.

(** [try { c } finally { f }] *)
Definition try_finally {A} (c : M A) (f : M unit) : M A :=
  fun s =>
    match c s with
    | (r, s') =>
        match f s' with
        | (Normal _, s'') => (r, s'')
        | (Abrupt e, s'') => (Abrupt e, s'')
        end
    end.

Notation "x <- c ;; k" := (bind c (fun x => k))
  (at level 100, c at next level, right associativity).
Notation "c ;; k" := (bind c (fun _ => k))
  (at level 100, right associativity).

Definition getFormData : M FormData := fun s => (Normal (formData (fst s)), s).

Definition modifyState (f : State -> State) : M unit :=
  fun s => (Normal tt, (f (fst s), snd s)).

Definition modifyWorld (f : World -> World) : M unit :=
  fun s => (Normal tt, (fst s, f (snd s))).

Definition setIsSubmitting (b : bool) : M unit := modifyState (withIsSubmitting b).
Definition setError (e : jsstring) : M unit := modifyState (withError e).
Definition setSuccess (b : bool) : M unit := modifyState (withSuccess b).
Definition setFormData (fd : FormData) : M unit := modifyState (withFormData fd).

(** [await fetch(...)]: the request leaves, and the network answers. *)
Definition fetch (env : Env) (req : Request) : M Response :=
  fun s =>
    let w := snd s in
    let s' := (fst s,
               {| localStorage := localStorage w;
                  requests := requests w ++ [req];
                  pointsAwarded := pointsAwarded w;
                  timers := timers w;
                  onSuccessCalls := onSuccessCalls w;
                  onCloseCalls := onCloseCalls w;
                  console := console w |}) in
    match network env req with
    | Rejected e => (Abrupt e, s')
    | Resolved r => (Normal r, s')
    end.

(** [await response.json()] *)
Definition response_json (r : Response) : M Json :=
  match json r with
  | inl e => throw e
  | inr v => ret v
  end.

(** Modelled from the spec: [addCamblissPoints] is a function of the
    authentication context (context/AuthContext), which is not among the
    sources.  The specification says of it that it awards a loyalty-point
    credit with an audit label, and that the award mutates the locally
    persisted user profile (its points), and that the success message
    shows even when the award fails.  So the call is recorded with its
    arguments in [pointsAwarded]; what it persists is [persistAward env],
    any function on [localStorage]; and it returns normally. *)
Definition addCamblissPoints (env : Env) (n : Z) (reason : jsstring) : M unit :=
  modifyWorld (fun w =>
    {| localStorage := persistAward env n reason (localStorage w);
       requests := requests w;
       pointsAwarded := pointsAwarded w ++ [(n, reason)];
       timers := timers w;
       onSuccessCalls := onSuccessCalls w;
       onCloseCalls := onCloseCalls w;
       console := console w |}).

Definition localStorage_setItem (key value : jsstring) : M unit :=
  modifyWorld (fun w =>
    {| localStorage := <[key := value]> (localStorage w);
       requests := requests w;
       pointsAwarded := pointsAwarded w;
       timers := timers w;
       onSuccessCalls := onSuccessCalls w;
       onCloseCalls := onCloseCalls w;
       console := console w |}).

Definition setTimeout (cb : Callback) (delay : Z) : M unit :=
  modifyWorld (fun w =>
    {| localStorage := localStorage w;
       requests := requests w;
       pointsAwarded := pointsAwarded w;
       timers := timers w ++ [(cb, delay)];
       onSuccessCalls := onSuccessCalls w;
       onCloseCalls := onCloseCalls w;
       console := console w |}).

Definition onSuccess : M unit :=
  modifyWorld (fun w =>
    {| localStorage := localStorage w;
       requests := requests w;
       pointsAwarded := pointsAwarded w;
       timers := timers w;
       onSuccessCalls := S (onSuccessCalls w);
       onCloseCalls := onCloseCalls w;
       console := console w |}).

Definition onClose : M unit :=
  modifyWorld (fun w =>
    {| localStorage := localStorage w;
       requests := requests w;
       pointsAwarded := pointsAwarded w;
       timers := timers w;
       onSuccessCalls := onSuccessCalls w;
       onCloseCalls := S (onCloseCalls w);
       console := console w |}).

Definition console_error (e : Exn) : M unit :=
  modifyWorld (fun w =>
    {| localStorage := localStorage w;
       requests := requests w;
       pointsAwarded := pointsAwarded w;
       timers := timers w;
       onSuccessCalls := onSuccessCalls w;
       onCloseCalls := onCloseCalls w;
       console := console w ++ [e] |}).

(** *** Reading the error body *)

(** The last field of an object literal with a given key, as [JSON.parse]
    keeps it. *)
Fixpoint lookup_field (key : jsstring) (fields : list (jsstring * Json)) : option Json :=
  match fields with
  | [] => None
  | (k, v) :: rest =>
      match lookup_field key rest with
      | Some v' => Some v'
      | None => if bool_decide (k = key) then Some v else None
      end
  end.

(** [errorData.message]: a [TypeError] on [null]; [undefined], here [None],
    on a value without that property. *)
Definition get_message (rt : Runtime) (errorData : Json) : M (option Json) :=
  match errorData with
  | JNull => throw (nullPropertyError rt)
  | JObject fields => ret (lookup_field (js "message") fields)
  | JBool _ | JNumber _ | JString _ | JArray _ => ret None
  end.

(** Truthiness of a value read from a JSON document. *)
Definition json_truthy (v : option Json) : bool :=
  match v with
  | None => false
  | Some JNull => false
  | Some (JBool b) => b
  | Some (JNumber x) => negb (PrimFloat.eqb x 0%float) && negb (PrimFloat.is_nan x)
  | Some (JString s) => truthy s
  | Some (JArray _) => true
  | Some (JObject _) => true
  end.

(** The message of [new Error(v || fallback)]. *)
Definition message_or (rt : Runtime) (v : option Json) (fallback : jsstring) : jsstring :=
  if json_truthy v then
    match v with
    | Some (JString s) => s
    | Some w => ToString rt w
    | None => fallback
    end
  else fallback.

(** *** The component's functions *)

Definition wordsPerMinute : nat := 200.

Definition calculateReadTime (text : jsstring) : nat :=
  let wordCount := length (split_whitespace (trim text)) in
  Nat.max 1 (ceil_div wordCount wordsPerMinute).

(** [/^https?:\/\/.+\.(jpg|jpeg|png|gif|webp)/i] *)
Definition imageUrlPattern : regex :=
  Cat (lit "http")
    (Cat (Opt (Chr 115))
      (Cat (lit "://")
        (Cat (Plus Dot)
          (Cat (Chr 46)
            (alts [lit "jpg"; lit "jpeg"; lit "png"; lit "gif"; lit "webp"]))))).

(** [s.match(/^https?:\/\/.+\.(jpg|jpeg|png|gif|webp)/i)] is not [null]. *)
Definition matchesImageUrl (s : jsstring) : bool :=
  matches_prefix true imageUrlPattern s.

Definition validateForm : M bool :=
  formData <- getFormData ;;
  if negb (truthy (trim (FormData.title formData))) then
    setError (js "Title is required") ;; ret false
  else if (length (FormData.title formData) <? 10)%nat then
    setError (js "Title must be at least 10 characters") ;; ret false
  else if negb (truthy (trim (FormData.summary formData))) then
    setError (js "Summary is required") ;; ret false
  else if (length (FormData.summary formData) <? 20)%nat then
    setError (js "Summary must be at least 20 characters") ;; ret false
  else if negb (truthy (trim (FormData.content formData))) then
    setError (js "Content is required") ;; ret false
  else if (length (FormData.content formData) <? 100)%nat then
    setError (js "Content must be at least 100 characters") ;; ret false
  else if negb (truthy (trim (FormData.imageUrl formData))) then
    setError (js "Image URL is required") ;; ret false
  else if negb (matchesImageUrl (FormData.imageUrl formData)) then
    setError (js "Please provide a valid image URL") ;; ret false
  else ret true.

(** [formData.tags.split(',').map(tag => tag.trim()).filter(tag => tag.length > 0)] *)
Definition tagsArray (formData : FormData) : list jsstring :=
  filter (fun tag => (0 < length tag)%nat)
    (map trim (split_char 44 (FormData.tags formData))).

Definition newArticle (env : Env) (user : User) (formData : FormData) : Article :=
  {| Article.title := trim (FormData.title formData);
     Article.summary := trim (FormData.summary formData);
     Article.content := trim (FormData.content formData);
     Article.image_url := trim (FormData.imageUrl formData);
     Article.category := FormData.category formData;
     Article.source := or_else (trim (FormData.source formData)) (js "Cambliss Community");
     Article.author := fullName user;
     Article.author_id := id user;
     Article.language := currentLanguage env;
     Article.tags := tagsArray formData;
     Article.is_premium := false;
     Article.read_time := calculateReadTime (FormData.content formData);
     Article.published_at := now_toISOString env;
     Article.is_verified := false;
     Article.verification_score := 0%float |}.

Definition insertRequest (supabaseUrl supabaseKey : jsstring) (article : Article) : Request :=
  {| url := supabaseUrl ++ js "/rest/v1/user_articles";
     method := js "POST";
     headers :=
       [ (js "Content-Type", js "application/json");
         (js "apikey", supabaseKey);
         (js "Authorization", js "Bearer " ++ supabaseKey);
         (js "Prefer", js "return=representation") ];
     body := article |}.

Definition handleClose : M unit :=
  setFormData emptyForm ;;
  setError (js "") ;;
  setSuccess false ;;
  onClose.

(** The body of the [try] block of [handleSubmit].  [!supabaseUrl ||
    !supabaseKey] holds for a variable that is undefined and for one that is
    the empty string. *)
Definition publish (rt : Runtime) (env : Env) (user : User) : M unit :=
  formData <- getFormData ;;
  match VITE_SUPABASE_URL env, VITE_SUPABASE_ANON_KEY env with
  | Some (c1 :: u1), Some (c2 :: k2) =>
      let supabaseUrl := c1 :: u1 in
      let supabaseKey := c2 :: k2 in
      let request := insertRequest supabaseUrl supabaseKey (newArticle env user formData) in
      response <- fetch env request ;;
      (if negb (ok response) then
         errorData <- response_json response ;;
         m <- get_message rt errorData ;;
         throw (new_Error (message_or rt m (js "Failed to publish article")))
       else ret tt) ;;
      createdArticle <- response_json response ;;
      addCamblissPoints env 50 (js "Published news article") ;;
      (match publishedStories user with
       | Some n =>
           let updatedUser :=
             {| fullName := fullName user; id := id user;
                publishedStories := Some (n + 1)%Z |} in
           localStorage_setItem (js "cambliss-user") (JSON_stringify_user rt updatedUser)
       | None => ret tt
       end) ;;
      setSuccess true ;;
      setTimeout AfterPublish 2000
  | _, _ => throw (new_Error (js "Database configuration not found"))
  end.

(** [handleSubmit]; [e.preventDefault()] leaves the state alone. *)
Definition handleSubmit (rt : Runtime) (env : Env) : M unit :=
  match isAuthenticated env, user env with
  | true, Some user =>
      valid <- validateForm ;;
      if negb valid then ret tt
      else
        setIsSubmitting true ;;
        setError (js "") ;;
        try_finally
          (try_catch
             (publish rt env user)
             (fun err =>
                console_error err ;;
                setError (or_else (message err)
                            (js "Failed to publish article. Please try again."))))
          (setIsSubmitting false)
  | _, _ => setError (js "You must be logged in to add news")
  end.

(** A network result that is not an acknowledgment: the request threw, or
    the status of the response is not 2xx. *)
Definition failed (result : FetchResult) : Prop :=
  match result with
  | Rejected _ => True
  | Resolved r => ok r = false
  end.

(** The message that a failed request shows, case by case: the message of
    the exception for a request that throws, for a body that is not JSON
    and for a body that is [null]; the message that a JSON object reports,
    or 'Failed to publish article' when it reports none; and
    'Failed to publish article. Please try again.' in place of an empty
    message. *)
Definition failureMessage (rt : Runtime) (result : FetchResult) : jsstring :=
  let generic := js "Failed to publish article. Please try again." in
  match result with
  | Rejected e => or_else (message e) generic
  | Resolved r =>
      match json r with
      | inl e => or_else (message e) generic
      | inr JNull => or_else (message (nullPropertyError rt)) generic
      | inr (JObject fields) =>
          or_else (message_or rt (lookup_field (js "message") fields)
                     (js "Failed to publish article")) generic
      | inr _ => js "Failed to publish article"
      end
  end.

(** What a timer runs when it fires. *)
Definition runCallback (cb : Callback) : M unit :=
  match cb with
  | AfterPublish => onSuccess ;; handleClose
  end.

(** *** The checks, one by one

    The four checks of validation as functions of the form, each with the
    message that it reports; [None] when the check passes. *)

Definition titleCheck (formData : FormData) : option jsstring :=
  if negb (truthy (trim (FormData.title formData))) then Some (js "Title is required")
  else if (10 <=? length (FormData.title formData))%nat then None
  else Some (js "Title must be at least 10 characters").

Definition summaryCheck (formData : FormData) : option jsstring :=
  if negb (truthy (trim (FormData.summary formData))) then Some (js "Summary is required")
  else if (20 <=? length (FormData.summary formData))%nat then None
  else Some (js "Summary must be at least 20 characters").

Definition contentCheck (formData : FormData) : option jsstring :=
  if negb (truthy (trim (FormData.content formData))) then Some (js "Content is required")
  else if (100 <=? length (FormData.content formData))%nat then None
  else Some (js "Content must be at least 100 characters").

Definition imageUrlCheck (formData : FormData) : option jsstring :=
  if negb (truthy (trim (FormData.imageUrl formData))) then Some (js "Image URL is required")
  else if matchesImageUrl (FormData.imageUrl formData) then None
  else Some (js "Please provide a valid image URL").

(** The message of the first check that fails, in the order title,
    summary, content, image URL. *)
Definition firstFailure (formData : FormData) : option jsstring :=
  match titleCheck formData with
  | Some m => Some m
  | None =>
      match summaryCheck formData with
      | Some m => Some m
      | None =>
          match contentCheck formData with
          | Some m => Some m
          | None => imageUrlCheck formData
          end
      end
  end.

(** The image extensions of the specification. *)
Definition imageExtensions : list jsstring :=
  [js "jpg"; js "jpeg"; js "png"; js "gif"; js "webp"].

(** What the pattern accepts, in words: [http] or [https], [://], one or
    more characters none of which ends a line, a dot and an image
    extension, all without regard to case, and then anything. *)
Definition ImageUrlShape (s : jsstring) : Prop :=
  exists scheme mid ext rest : jsstring,
    s = scheme ++ js "://" ++ mid ++ js "." ++ ext ++ rest /\
    (same_ignoring_case scheme (js "http") \/ same_ignoring_case scheme (js "https")) /\
    mid <> [] /\
    Forall (fun c => isLineTerminator c = false) mid /\
    Exists (same_ignoring_case ext) imageExtensions.

(** *** Validation, as the specification describes it

    The specification's side of the comparison with [validateForm]: the
    four checks, their fixed order, what each asks of its field and the
    messages of each.  A check asks first that its field be not blank, that
    is, that one of its characters be not white space; a field that is not
    empty may still be blank. *)

Inductive Check := OnTitle | OnSummary | OnContent | OnImageUrl.

(** The field that a check looks at, as it was typed. *)
Definition checked (c : Check) (formData : FormData) : jsstring :=
  match c with
  | OnTitle => FormData.title formData
  | OnSummary => FormData.summary formData
  | OnContent => FormData.content formData
  | OnImageUrl => FormData.imageUrl formData
  end.

(** The fixed order of the checks. *)
Definition position (c : Check) : nat :=
  match c with
  | OnTitle => 0
  | OnSummary => 1
  | OnContent => 2
  | OnImageUrl => 3
  end.

Definition NotBlank (s : jsstring) : Prop :=
  exists c : N, c ∈ s /\ isWhiteSpace c = false.

(** The second half of a check: the number of characters of the field, and
    for the image URL its shape. *)
Definition WellFormed (c : Check) (formData : FormData) : Prop :=
  match c with
  | OnTitle => 10 <= length (FormData.title formData)
  | OnSummary => 20 <= length (FormData.summary formData)
  | OnContent => 100 <= length (FormData.content formData)
  | OnImageUrl => ImageUrlShape (FormData.imageUrl formData)
  end.

Definition Passes (c : Check) (formData : FormData) : Prop :=
  NotBlank (checked c formData) /\ WellFormed c formData.

Definition requiredMessage (c : Check) : jsstring :=
  match c with
  | OnTitle => js "Title is required"
  | OnSummary => js "Summary is required"
  | OnContent => js "Content is required"
  | OnImageUrl => js "Image URL is required"
  end.

Definition malformedMessage (c : Check) : jsstring :=
  match c with
  | OnTitle => js "Title must be at least 10 characters"
  | OnSummary => js "Summary must be at least 20 characters"
  | OnContent => js "Content must be at least 100 characters"
  | OnImageUrl => js "Please provide a valid image URL"
  end.

(** [m] is the message of the failing check [c]: that the field is
    required when it is blank, and otherwise that it is too short or not a
    valid image URL. *)
Definition Reports (c : Check) (formData : FormData) (m : jsstring) : Prop :=
  (~ NotBlank (checked c formData) /\ m = requiredMessage c) \/
  (NotBlank (checked c formData) /\ ~ WellFormed c formData /\ m = malformedMessage c).

(** [c] is the first check that fails: it fails and every check before it
    passes. *)
Definition FirstFailing (c : Check) (formData : FormData) : Prop :=
  ~ Passes c formData /\
  forall c' : Check, position c' < position c -> Passes c' formData.

(** [s] ends in [suffix], compared without regard to case. *)
Definition ends_with_ci (suffix s : jsstring) : bool :=
  bool_decide (map canonicalize (drop (length s - length suffix) s) = map canonicalize suffix).

(** The specification's reading of the image check: the string ends in a
    dot and one of the image extensions. *)
Definition endsInImageExtension (s : jsstring) : bool :=
  existsb (fun ext => ends_with_ci (46%N :: ext) s) imageExtensions.

End AddNewsModal.

(** ** MiniPlayer: the media playback controller *)

Module MiniPlayer.

Local Open Scope float_scope.

Record Episode := mkEpisode
  { id : jsstring;
    title : jsstring;
    duration : float;
    audioUrl : jsstring }.

(** What the closures of one render see of the props and of the hook:
    [episode] and [isPremium].  [render_id] tells the renders apart, and
    with them the function objects they create. *)
Record Render := mkRender
  { render_id : nat;
    episode : option Episode;
    isPremium : bool }.

(** An event listener created by a render.  The handlers read, of their
    render, only [isPremium]. *)
Record Listener := mkListener
  { created_by : nat;
    captured_isPremium : bool }.

Definition listener_of (r : Render) : Listener :=
  {| created_by := render_id r; captured_isPremium := isPremium r |}.

Definition same_listener (a b : Listener) : bool :=
  (created_by a =? created_by b)%nat.

(** The [HTMLAudioElement] behind [audioRef]. *)
Module Audio.
Record t := mk
  { paused : bool;
    currentTime : float;
    src : jsstring;
    timeupdate : list Listener;
    ended : list Listener }.

(** [new Audio()] *)
Definition new : t :=
  {| paused := true; currentTime := 0; src := js ""; timeupdate := []; ended := [] |}.

Definition pause (a : t) : t :=
  {| paused := true; currentTime := currentTime a; src := src a;
     timeupdate := timeupdate a; ended := ended a |}.

Definition play (a : t) : t :=
  {| paused := false; currentTime := currentTime a; src := src a;
     timeupdate := timeupdate a; ended := ended a |}.

(** [audio.currentTime = time], for a position that the element
    accepts. *)
Definition set_currentTime (time : float) (a : t) : t :=
  {| paused := paused a; currentTime := time; src := src a;
     timeupdate := timeupdate a; ended := ended a |}.

(** [audio.src = url]: the element loads the new resource, paused at
    position 0. *)
Definition set_src (url : jsstring) (a : t) : t :=
  {| paused := true; currentTime := 0; src := url;
     timeupdate := timeupdate a; ended := ended a |}.

(** [addEventListener] ignores a listener that is already there. *)
Definition add (l : Listener) (ls : list Listener) : list Listener :=
  if existsb (same_listener l) ls then ls else ls ++ [l].

Definition remove (l : Listener) (ls : list Listener) : list Listener :=
  filter (fun l' => negb (same_listener l l')) ls.

Definition addEventListener_timeupdate (l : Listener) (a : t) : t :=
  {| paused := paused a; currentTime := currentTime a; src := src a;
     timeupdate := add l (timeupdate a); ended := ended a |}.

Definition addEventListener_ended (l : Listener) (a : t) : t :=
  {| paused := paused a; currentTime := currentTime a; src := src a;
     timeupdate := timeupdate a; ended := add l (ended a) |}.

Definition removeEventListener_timeupdate (l : Listener) (a : t) : t :=
  {| paused := paused a; currentTime := currentTime a; src := src a;
     timeupdate := remove l (timeupdate a); ended := ended a |}.

Definition removeEventListener_ended (l : Listener) (a : t) : t :=
  {| paused := paused a; currentTime := currentTime a; src := src a;
     timeupdate := timeupdate a; ended := remove l (ended a) |}.
End Audio.
Abbreviation Audio := Audio.t.

(** The React state of the player, the audio element of [audioRef], and
    the calls of the [onClose] prop and of [navigate]. *)
Record State := mkState
  { isPlaying : bool;
    currentTime : float;
    showUpgradePrompt : bool;
    audioRef : option Audio;
    onCloseCalls : nat;
    navigations : list jsstring }.

Definition initialState : State :=
  {| isPlaying := false; currentTime := 0; showUpgradePrompt := false;
     audioRef := None; onCloseCalls := 0; navigations := [] |}.

Definition FREE_LIMIT : float := 60.

Definition setIsPlaying (b : bool) (st : State) : State :=
  {| isPlaying := b; currentTime := currentTime st;
     showUpgradePrompt := showUpgradePrompt st; audioRef := audioRef st;
     onCloseCalls := onCloseCalls st; navigations := navigations st |}.

Definition setCurrentTime (time : float) (st : State) : State :=
  {| isPlaying := isPlaying st; currentTime := time;
     showUpgradePrompt := showUpgradePrompt st; audioRef := audioRef st;
     onCloseCalls := onCloseCalls st; navigations := navigations st |}.

Definition setShowUpgradePrompt (b : bool) (st : State) : State :=
  {| isPlaying := isPlaying st; currentTime := currentTime st;
     showUpgradePrompt := b; audioRef := audioRef st;
     onCloseCalls := onCloseCalls st; navigations := navigations st |}.

(** An operation on the element of [audioRef.current]. *)
Definition withAudio (f : Audio -> Audio) (st : State) : State :=
  {| isPlaying := isPlaying st; currentTime := currentTime st;
     showUpgradePrompt := showUpgradePrompt st; audioRef := f <$> audioRef st;
     onCloseCalls := onCloseCalls st; navigations := navigations st |}.

Definition setAudioRef (a : Audio) (st : State) : State :=
  {| isPlaying := isPlaying st; currentTime := currentTime st;
     showUpgradePrompt := showUpgradePrompt st; audioRef := Some a;
     onCloseCalls := onCloseCalls st; navigations := navigations st |}.

(** [handleTimeUpdate], with the [isPremium] of the render that created
    it. *)
Definition handleTimeUpdate (isPremium : bool) (st : State) : State :=
  match audioRef st with
  | Some audio =>
      let time := Audio.currentTime audio in
      let st := setCurrentTime time st in
      if negb isPremium && (FREE_LIMIT <=? time) then
        setShowUpgradePrompt true (setIsPlaying false (withAudio Audio.pause st))
      else st
  | None => st
  end.

Definition handleEnded (st : State) : State :=
  setCurrentTime 0 (setIsPlaying false st).

(** The effect on [episode]. *)
Definition episodeEffect (r : Render) (st : State) : State :=
  match episode r with
  | None =>
      let st := setShowUpgradePrompt false (setCurrentTime 0 (setIsPlaying false st)) in
      withAudio (fun a => Audio.set_currentTime 0 (Audio.pause a)) st
  | Some ep =>
      let audio :=
        match audioRef st with
        | None =>
            Audio.addEventListener_ended (listener_of r)
              (Audio.addEventListener_timeupdate (listener_of r) Audio.new)
        | Some a => a
        end in
      let audio := Audio.set_src (audioUrl ep) audio in
      let st := setIsPlaying true st in
      setAudioRef (Audio.play audio) st
  end.

(** The cleanup that the effect returns when there is an episode. *)
Definition episodeCleanup (r : Render) (st : State) : State :=
  match episode r with
  | None => st
  | Some _ =>
      withAudio (fun a =>
        Audio.removeEventListener_ended (listener_of r)
          (Audio.removeEventListener_timeupdate (listener_of r) a)) st
  end.

(** The browser reports the position [time]: the element is at [time] and
    its [timeupdate] listeners run in the order of their registration. *)
Definition timeupdateEvent (time : float) (st : State) : State :=
  let st := withAudio (Audio.set_currentTime time) st in
  let listeners := match audioRef st with Some a => Audio.timeupdate a | None => [] end in
  fold_left (fun st l => handleTimeUpdate (captured_isPremium l) st) listeners st.

Definition togglePlayPause (r : Render) (st : State) : State :=
  match audioRef st, episode r with
  | Some _, Some _ =>
      if negb (isPremium r) && (FREE_LIMIT <=? currentTime st) then
        setShowUpgradePrompt true st
      else if isPlaying st then
        setIsPlaying false (withAudio Audio.pause st)
      else
        setIsPlaying true (withAudio Audio.play st)
  | _, _ => st
  end.

(** The click on the progress bar: the pointer's [clientX] and the bar's
    bounding rectangle. *)
Record MouseEvent := mkMouseEvent
  { clientX : float;
    rect_left : float;
    rect_width : float }.

(** The fraction of the bar that a click designates. *)
Definition percentage (e : MouseEvent) : float :=
  let x := clientX e - rect_left e in
  x / rect_width e.

Definition handleProgressClick (r : Render) (e : MouseEvent) (st : State) : State :=
  match audioRef st, episode r with
  | Some _, Some ep =>
      if negb (isPremium r) && (FREE_LIMIT <=? currentTime st) then st
      else
        let newTime := percentage e * (if isPremium r then duration ep else FREE_LIMIT) in
        setCurrentTime newTime (withAudio (Audio.set_currentTime newTime) st)
  | _, _ => st
  end.

Definition handleUpgrade (st : State) : State :=
  {| isPlaying := isPlaying st; currentTime := currentTime st;
     showUpgradePrompt := showUpgradePrompt st; audioRef := audioRef st;
     onCloseCalls := onCloseCalls st;
     navigations := navigations st ++ [js "/subscription"] |}.

Definition handleClosePlayer (st : State) : State :=
  let st := withAudio (fun a => Audio.set_currentTime 0 (Audio.pause a)) st in
  {| isPlaying := isPlaying st; currentTime := currentTime st;
     showUpgradePrompt := showUpgradePrompt st; audioRef := audioRef st;
     onCloseCalls := S (onCloseCalls st); navigations := navigations st |}.

(** [maxDuration] of the render. *)
Definition maxDuration (r : Render) (ep : Episode) : float :=
  if isPremium r then duration ep else FREE_LIMIT.

(** The paused flag of the element, [None] without an element. *)
Definition audioPaused (st : State) : option bool := Audio.paused <$> audioRef st.

(** The [timeupdate] listeners of the element. *)
Definition listeners (st : State) : list Listener :=
  match audioRef st with Some a => Audio.timeupdate a | None => [] end.

End MiniPlayer.

(** ** Sample inputs *)

Module Examples.

Module Player.
Import MiniPlayer.
Local Open Scope float_scope.

(** An episode of 754 seconds, the shortest that the podcast page
    creates. *)
Definition episode754 : Episode :=
  {| id := js "a1"; title := js "Monsoon session opens (Audio)"; duration := 754;
     audioUrl := js "https://fakeaudio.com/a1.mp3" |}.

Definition freeRender : Render :=
  {| render_id := 1; episode := Some episode754; isPremium := false |}.

Definition premiumRender : Render :=
  {| render_id := 1; episode := Some episode754; isPremium := true |}.

(** A second episode, selected in a later render. *)
Definition episode900 : Episode :=
  {| id := js "a2"; title := js "Budget at a glance (Audio)"; duration := 900;
     audioUrl := js "https://fakeaudio.com/a2.mp3" |}.

Definition secondFreeRender : Render :=
  {| render_id := 2; episode := Some episode900; isPremium := false |}.

(** The user becomes premium while the first episode plays, by subscribing
    in another tab: the flag 'isPremium' of [localStorage] is set to 'true'
    and this window receives the storage event; [usePremium] recomputes and
    the player renders again, with the same episode. *)
Definition upgradedStorage : gmap (list N) (list N) :=
  <[js "isPremium" := js "true"]> ∅.

Definition upgradedRender : Render :=
  {| render_id := 2;
     episode := Some episode754;
     isPremium :=
       UsePremium.isPremium
         (UsePremium.recompute UsePremium.StorageEvent false upgradedStorage
            UsePremium.initial) |}.

(** The player once the first episode has been selected. *)
Definition freeSession : State := episodeEffect freeRender initialState.
Definition premiumSession : State := episodeEffect premiumRender initialState.

(** A click in the middle of a progress bar of 100 pixels that starts at
    pixel 100. *)
Definition halfClick : MouseEvent :=
  {| clientX := 150; rect_left := 100; rect_width := 100 |}.
End Player.

Module Form.
Import JsString AddNewsModal.

Definition validForm : FormData :=
  {| FormData.title := js "Monsoon session opens in Delhi";
     FormData.summary := js "Parliament meets for three weeks from Monday.";
     FormData.content :=
       js "Both houses of Parliament meet on Monday for a monsoon session of three weeks; "
       ++ js "the government has listed twelve bills.";
     FormData.imageUrl := js "https://example.com/image.jpg";
     FormData.category := js "politics";
     FormData.source := js "";
     FormData.tags := js "a, b,, c " |}.

Definition withTitle (t : jsstring) : FormData :=
  {| FormData.title := t;
     FormData.summary := FormData.summary validForm;
     FormData.content := FormData.content validForm;
     FormData.imageUrl := FormData.imageUrl validForm;
     FormData.category := FormData.category validForm;
     FormData.source := FormData.source validForm;
     FormData.tags := FormData.tags validForm |}.

Definition withSummary (t : jsstring) : FormData :=
  {| FormData.title := FormData.title validForm;
     FormData.summary := t;
     FormData.content := FormData.content validForm;
     FormData.imageUrl := FormData.imageUrl validForm;
     FormData.category := FormData.category validForm;
     FormData.source := FormData.source validForm;
     FormData.tags := FormData.tags validForm |}.

Definition withContent (t : jsstring) : FormData :=
  {| FormData.title := FormData.title validForm;
     FormData.summary := FormData.summary validForm;
     FormData.content := t;
     FormData.imageUrl := FormData.imageUrl validForm;
     FormData.category := FormData.category validForm;
     FormData.source := FormData.source validForm;
     FormData.tags := FormData.tags validForm |}.

Definition withImageUrl (t : jsstring) : FormData :=
  {| FormData.title := FormData.title validForm;
     FormData.summary := FormData.summary validForm;
     FormData.content := FormData.content validForm;
     FormData.imageUrl := t;
     FormData.category := FormData.category validForm;
     FormData.source := FormData.source validForm;
     FormData.tags := FormData.tags validForm |}.

(** A form whose title and whose content are both too short. *)
Definition shortTitleAndContent : FormData :=
  {| FormData.title := js "Monsoon";
     FormData.summary := FormData.summary validForm;
     FormData.content := js "Both houses meet on Monday.";
     FormData.imageUrl := FormData.imageUrl validForm;
     FormData.category := FormData.category validForm;
     FormData.source := FormData.source validForm;
     FormData.tags := FormData.tags validForm |}.

(** [n] spaces and then one letter. *)
Definition padded (n : nat) : jsstring := repeat 32%N n ++ js "X".

(** [n] times the letter x. *)
Definition letters (n : nat) : jsstring := repeat 120%N n.

(** A text of [n] words. *)
Definition words (n : nat) : jsstring := concat (repeat (js "news ") n).

(** An image URL with a query string. *)
Definition queryUrl : jsstring := js "https://images.example.com/photo.jpg?w=800".

Definition stateOf (fd : FormData) : State :=
  {| isSubmitting := false; error := js ""; success := false; formData := fd |}.

Definition world0 : World :=
  {| localStorage := ∅; requests := []; pointsAwarded := []; timers := [];
     onSuccessCalls := 0; onCloseCalls := 0; console := [] |}.

(** A user whose profile counts the published stories, and one whose
    profile does not. *)
Definition ann : User :=
  {| fullName := js "Ann Rao"; id := js "user_1"; publishedStories := Some 3%Z |}.

Definition guest : User :=
  {| fullName := js "Guest"; id := js "user_2"; publishedStories := None |}.

(** A runtime: [JSON.stringify] for users whose fields need no
    escaping. *)
Definition quoted (s : jsstring) : jsstring := [34%N] ++ s ++ [34%N].

Definition stringifyUser (u : User) : jsstring :=
  js "{" ++ quoted (js "fullName") ++ js ":" ++ quoted (fullName u) ++ js "," ++
  quoted (js "id") ++ js ":" ++ quoted (id u) ++
  match publishedStories u with
  | Some n => js "," ++ quoted (js "publishedStories") ++ js ":" ++ js (pretty n)
  | None => []
  end ++ js "}".

(** A sample of what the award persists: the profile of the user with the
    points credited, stored under 'cambliss-user'. *)
Definition profileWithPoints (u : User) (points : Z) : jsstring :=
  js "{" ++ quoted (js "fullName") ++ js ":" ++ quoted (fullName u) ++ js "," ++
  quoted (js "id") ++ js ":" ++ quoted (id u) ++ js "," ++
  quoted (js "camblissPoints") ++ js ":" ++ js (pretty points) ++
  match publishedStories u with
  | Some n => js "," ++ quoted (js "publishedStories") ++ js ":" ++ js (pretty n)
  | None => []
  end ++ js "}".

Definition awardTo (u : User) (n : Z) (reason : jsstring)
    (store : gmap (list N) (list N)) : gmap (list N) (list N) :=
  <[js "cambliss-user" := profileWithPoints u n]> store.

Definition runtime : Runtime :=
  {| JSON_stringify_user := stringifyUser;
     ToString := fun _ => js "[object Object]";
     nullPropertyError := new_Error (js "Cannot read properties of null (reading 'message')") |}.

(** The backend creates the row and echoes it. *)
Definition created : FetchResult :=
  Resolved {| ok := true; json := inr (JArray [JObject [(js "id", JString (js "row_1"))]]) |}.

(** The backend refuses the row. *)
Definition refused : FetchResult :=
  Resolved {| ok := false;
              json := inr (JObject [(js "code", JString (js "42501"));
                                    (js "message", JString (js "permission denied"))]) |}.

(** A gateway answers 502 with a page of HTML: [response.json()] rejects
    with a [SyntaxError]. *)
Definition badGateway : FetchResult :=
  Resolved {| ok := false; json := inl (new_Error (js "Unexpected token '<'")) |}.

(** The request does not reach the backend. *)
Definition offline : FetchResult := Rejected (new_Error (js "Failed to fetch")).

Definition envOf (u : User) (result : FetchResult) : Env :=
  {| isAuthenticated := true;
     user := Some u;
     persistAward := awardTo u;
     currentLanguage := js "en";
     VITE_SUPABASE_URL := Some (js "https://db.example.com");
     VITE_SUPABASE_ANON_KEY := Some (js "anon-key");
     now_toISOString := js "2025-11-06T10:07:01.000Z";
     network := fun _ => result |}.
End Form.

End Examples.

(** ** AddNewsModal: editing the form and what the modal shows *)

Module AddNewsModalForm.
Import JsString Regex AddNewsModal.

(** [{ ...prev, [name]: value }] on the properties that the component reads;
    a name that is none of them adds a property that nothing reads. *)
Definition setField (name value : jsstring) (fd : FormData) : FormData :=
  if bool_decide (name = js "title") then
    {| FormData.title := value; FormData.summary := FormData.summary fd;
       FormData.content := FormData.content fd; FormData.imageUrl := FormData.imageUrl fd;
       FormData.category := FormData.category fd; FormData.source := FormData.source fd;
       FormData.tags := FormData.tags fd |}
  else if bool_decide (name = js "summary") then
    {| FormData.title := FormData.title fd; FormData.summary := value;
       FormData.content := FormData.content fd; FormData.imageUrl := FormData.imageUrl fd;
       FormData.category := FormData.category fd; FormData.source := FormData.source fd;
       FormData.tags := FormData.tags fd |}
  else if bool_decide (name = js "content") then
    {| FormData.title := FormData.title fd; FormData.summary := FormData.summary fd;
       FormData.content := value; FormData.imageUrl := FormData.imageUrl fd;
       FormData.category := FormData.category fd; FormData.source := FormData.source fd;
       FormData.tags := FormData.tags fd |}
  else if bool_decide (name = js "imageUrl") then
    {| FormData.title := FormData.title fd; FormData.summary := FormData.summary fd;
       FormData.content := FormData.content fd; FormData.imageUrl := value;
       FormData.category := FormData.category fd; FormData.source := FormData.source fd;
       FormData.tags := FormData.tags fd |}
  else if bool_decide (name = js "category") then
    {| FormData.title := FormData.title fd; FormData.summary := FormData.summary fd;
       FormData.content := FormData.content fd; FormData.imageUrl := FormData.imageUrl fd;
       FormData.category := value; FormData.source := FormData.source fd;
       FormData.tags := FormData.tags fd |}
  else if bool_decide (name = js "source") then
    {| FormData.title := FormData.title fd; FormData.summary := FormData.summary fd;
       FormData.content := FormData.content fd; FormData.imageUrl := FormData.imageUrl fd;
       FormData.category := FormData.category fd; FormData.source := value;
       FormData.tags := FormData.tags fd |}
  else if bool_decide (name = js "tags") then
    {| FormData.title := FormData.title fd; FormData.summary := FormData.summary fd;
       FormData.content := FormData.content fd; FormData.imageUrl := FormData.imageUrl fd;
       FormData.category := FormData.category fd; FormData.source := FormData.source fd;
       FormData.tags := value |}
  else fd.

(** [formData[name]] for the properties that the component reads; it
    serves to state what [handleChange] does. *)
Definition getField (name : jsstring) (fd : FormData) : option jsstring :=
  if bool_decide (name = js "title") then Some (FormData.title fd)
  else if bool_decide (name = js "summary") then Some (FormData.summary fd)
  else if bool_decide (name = js "content") then Some (FormData.content fd)
  else if bool_decide (name = js "imageUrl") then Some (FormData.imageUrl fd)
  else if bool_decide (name = js "category") then Some (FormData.category fd)
  else if bool_decide (name = js "source") then Some (FormData.source fd)
  else if bool_decide (name = js "tags") then Some (FormData.tags fd)
  else None.

(** [handleChange], for the [name] and the [value] of [e.target]. *)
Definition handleChange (name value : jsstring) : M unit :=
  prev <- getFormData ;;
  setFormData (setField name value prev) ;;
  setError (js "").

(** The [name] attributes of the inputs and text areas of the form. *)
Definition inputNames : list jsstring :=
  [js "title"; js "summary"; js "content"; js "imageUrl"; js "source"; js "tags"].

(** [categories]: the value and the label of each button (the icon is left
    out). *)
Definition categories : list (jsstring * jsstring) :=
  [ (js "breaking", js "Breaking News");
    (js "politics", js "Politics");
    (js "india", js "India");
    (js "world", js "World");
    (js "business", js "Business");
    (js "technology", js "Technology");
    (js "sports", js "Sports");
    (js "entertainment", js "Entertainment");
    (js "health", js "Health") ].

(** The [onClick] of the button of a category:
    [setFormData(prev => ({ ...prev, category: cat.value }))]. *)
Definition pickCategory (cat : jsstring * jsstring) : M unit :=
  prev <- getFormData ;;
  setFormData (setField (js "category") (fst cat) prev).

(** What the user does to the open form: types into the input called
    [name], clicks the button of the category at an index, or closes the
    modal. *)
Inductive FormEvent :=
| Change (name value : jsstring)
| PickCategory (index : nat)
| Close.

Definition handleEvent (ev : FormEvent) : M unit :=
  match ev with
  | Change name value => handleChange name value
  | PickCategory index =>
      match categories !! index with
      | Some cat => pickCategory cat
      | None => ret tt
      end
  | Close => handleClose
  end.

(** An event that the rendered form can produce: its inputs carry the names
    of [inputNames]. *)
Definition from_form (ev : FormEvent) : Prop :=
  match ev with
  | Change name _ => name ∈ inputNames
  | PickCategory _ => True
  | Close => True
  end.

(** The state and the world after a sequence of events; none of them
    throws. *)
Definition afterEvents (evs : list FormEvent) (s : State * World) : State * World :=
  fold_left (fun s ev => snd (handleEvent ev s)) evs s.

(** The image preview is part of the form.  The component renders nothing
    when [isOpen] is false, it renders the form when [success] is false
    (and the success message otherwise), and the form contains the preview
    when [formData.imageUrl && formData.imageUrl.match(...)] is truthy. *)
Definition formShown (isOpen : bool) (st : State) : bool :=
  isOpen && negb (success st).

Definition previewShown (isOpen : bool) (st : State) : bool :=
  formShown isOpen st &&
  (truthy (FormData.imageUrl (formData st)) &&
   matchesImageUrl (FormData.imageUrl (formData st))).

End AddNewsModalForm.

(** ** The table user_articles: constraints, trigger and row-level security *)

Module UserArticles.

(** The values that the CHECK constraint on [category] admits. *)
Definition allowedCategories : list jsstring :=
  [js "breaking"; js "politics"; js "india"; js "world"; js "business";
   js "technology"; js "sports"; js "entertainment"; js "health"].

Definition category_check (category : jsstring) : bool :=
  bool_decide (category ∈ allowedCategories).

(** The columns that the policies and the trigger read or write; a column
    that admits NULL is an [option]. *)
Record Row := mkRow
  { author : jsstring;
    author_id : option jsstring;
    category : jsstring;
    updated_at : Z }.

(** Who runs a statement: the database role and [auth.uid()::text], NULL
    without a signed-in user. *)
Inductive Role := anon | authenticated.

Record Caller := mkCaller
  { role : Role;
    uid : option jsstring }.

Definition is_authenticated (c : Caller) : bool :=
  match role c with authenticated => true | anon => false end.

(** [a = b] in SQL holds only when neither side is NULL. *)
Definition sql_eq (a b : option jsstring) : bool :=
  match a, b with
  | Some x, Some y => bool_decide (x = y)
  | _, _ => false
  end.

(** Row-level security is enabled: a statement passes when a policy for its
    command and for the role of the caller admits it. *)
Definition can_select (c : Caller) (row : Row) : bool := true.

Definition can_insert (c : Caller) (new : Row) : bool := is_authenticated c && true.

(** UPDATE: [USING] on the existing row and [WITH CHECK] on the new one. *)
Definition can_update (c : Caller) (old new : Row) : bool :=
  is_authenticated c && sql_eq (uid c) (author_id old) && sql_eq (uid c) (author_id new).

Definition can_delete (c : Caller) (row : Row) : bool :=
  is_authenticated c && sql_eq (uid c) (author_id row).

(** The trigger [update_user_articles_updated_at]: before an update the new
    row gets the current time. *)
Definition update_updated_at_column (now : Z) (new : Row) : Row :=
  {| author := author new; author_id := author_id new; category := category new;
     updated_at := now |}.

(** An UPDATE by a caller: refused by the policies, refused by the CHECK
    constraint, or the row that is stored. *)
Definition update (now : Z) (c : Caller) (old new : Row) : option Row :=
  if can_update c old new && category_check (category new)
  then Some (update_updated_at_column now new)
  else None.

End UserArticles.

(** ** PodcastsPage: the episodes and their display *)

Module PodcastsPage.
Import JsString.

(** The fields of an article of the news context that the page reads. *)
Record NewsArticle := mkNewsArticle
  { a_id : jsstring;
    a_title : jsstring;
    a_imageUrl : jsstring;
    a_publishedAt : jsstring }.

(** [PodcastEpisode]; the duration is a whole number of seconds. *)
Record PodcastEpisode := mkPodcastEpisode
  { id : jsstring;
    title : jsstring;
    duration : nat;
    audioUrl : jsstring;
    imageUrl : jsstring;
    publishedAt : jsstring }.

(** [articles.slice(0, 6).map((article, index) => ...)].  [draw index] is
    the value of [Math.floor(Math.random() * 600)] for the article at
    [index]. *)
Definition episodes (draw : nat -> nat) (articles : list NewsArticle) : list PodcastEpisode :=
  imap (fun index article =>
          {| id := a_id article;
             title := a_title article ++ js " (Audio)";
             duration := 754 + draw index;
             audioUrl := js "https://fakeaudio.com/" ++ a_id article ++ js ".mp3";
             imageUrl := a_imageUrl article;
             publishedAt := a_publishedAt article |})
       (take 6 articles).

(** [n.toString()] for a count. *)
Definition toString (n : nat) : jsstring := js (pretty n).

(** [s.padStart(targetLength, pad)] for a pad of one character. *)
Definition padStart (targetLength : nat) (pad : N) (s : jsstring) : jsstring :=
  repeat pad (targetLength - length s) ++ s.

(** [formatDuration], on a whole number of seconds. *)
Definition formatDuration (seconds : nat) : jsstring :=
  let mins := seconds / 60 in
  let secs := seconds mod 60 in
  toString mins ++ js ":" ++ padStart 2 48 (toString secs).

(** The state of the page: [currentEpisode]. *)
Definition handlePlayEpisode (episode : PodcastEpisode)
    (currentEpisode : option PodcastEpisode) : option PodcastEpisode :=
  Some episode.

(** The [onClose] that the page gives to the player. *)
Definition onClose (currentEpisode : option PodcastEpisode) : option PodcastEpisode := None.

(** Reading a display of two digits back; the page has no such function, it
    serves to state what the display shows. *)
Definition two_digits (s : jsstring) : nat :=
  match s with
  | [a; b] => N.to_nat (a - 48) * 10 + N.to_nat (b - 48)
  | _ => 0
  end.

End PodcastsPage.

(** ** MiniPlayer: sessions *)

Module MiniPlayerSession.
Import MiniPlayer.
Local Open Scope float_scope.

(** The play button shows what the audio does: [isPlaying] is the negation
    of the paused flag of the element. *)
Definition InSync (st : State) : Prop :=
  audioPaused st = Some (negb (isPlaying st)).

(** The listeners of the element were all created by one render. *)
Definition listeners_of_render (r : Render) (st : State) : Prop :=
  Forall (fun l => created_by l = render_id r) (listeners st).

(** What happens to the player while an episode is selected: a click on the
    play button, a click on the progress bar, a report of the position by
    the browser. *)
Inductive PlayerEvent :=
| Toggle
| Seek (e : MouseEvent)
| TimeUpdate (time : float).

(** The handlers of the controls are those of the current render [r]. *)
Definition handlePlayerEvent (r : Render) (st : State) (ev : PlayerEvent) : State :=
  match ev with
  | Toggle => togglePlayPause r st
  | Seek e => handleProgressClick r e st
  | TimeUpdate time => timeupdateEvent time st
  end.

(** The selected episode changes from that of render [r1] to that of render
    [r2]: the cleanup of the effect of [r1] runs, then the effect of
    [r2]. *)
Definition changeEpisode (r1 r2 : Render) (st : State) : State :=
  episodeEffect r2 (episodeCleanup r1 st).

(** The user closes the player: [handleClosePlayer] calls [onClose], the
    page sets its episode to [null], and the player renders again, as render
    [r2], without an episode. *)
Definition closePlayer (r1 r2 : Render) (st : State) : State :=
  changeEpisode r1 r2 (handleClosePlayer st).

End MiniPlayerSession.

(** * Part II: properties *)

(** ** JavaScript strings *)

Module JsStringFacts.
Import JsString.

(** The embedded string functions on the examples of ECMAScript. *)
Example trim_example : trim (js "  a b  ") = js "a b".
Proof. reflexivity. Qed.

Example trim_no_break_space : trim [160; 97; 8233]%N = js "a".
Proof. reflexivity. Qed.

Example split_whitespace_examples :
  split_whitespace (js "a  b") = [js "a"; js "b"] /\
  split_whitespace (js " a b ") = [js ""; js "a"; js "b"; js ""] /\
  split_whitespace (js "") = [js ""].
Proof. repeat split; reflexivity. Qed.

Example split_char_examples :
  split_char 44 (js "a,b") = [js "a"; js "b"] /\
  split_char 44 (js "a,") = [js "a"; js ""] /\
  split_char 44 (js "") = [js ""].
Proof. repeat split; reflexivity. Qed.

Example wordCount_examples :
  wordCount (js "  one two   three ") = 3 /\ wordCount (js "   ") = 0.
Proof. split; reflexivity. Qed.

Example ceil_div_examples :
  ceil_div 400 200 = 2 /\ ceil_div 401 200 = 3 /\ ceil_div 1 200 = 1 /\ ceil_div 0 200 = 0.
Proof. repeat split; reflexivity. Qed.

Lemma trimStart_decompose (s : jsstring) :
  exists w, s = w ++ trimStart s /\ blank w = true.
Proof.
  induction s as [|c r IH]; simpl.
  - exists []. auto.
  - destruct (isWhiteSpace c) eqn:E.
    + destruct IH as (w & Hw & Hb). exists (c :: w). simpl.
      rewrite E, Hb. split; [congruence | reflexivity].
    + exists []. auto.
Qed.

Lemma trimStart_head (s : jsstring) (c : N) (r : jsstring) :
  trimStart s = c :: r -> isWhiteSpace c = false.
Proof.
  induction s as [|d t IH]; simpl; [discriminate|].
  destruct (isWhiteSpace d) eqn:E; [exact IH|].
  intros [= <- <-]. exact E.
Qed.

Lemma trimStart_nil_iff (s : jsstring) : trimStart s = [] <-> blank s = true.
Proof.
  induction s as [|c r IH]; simpl; [tauto|].
  destruct (isWhiteSpace c); simpl; [exact IH|].
  split; discriminate.
Qed.

Lemma trimStart_not_ws (c : N) (r : jsstring) :
  isWhiteSpace c = false -> trimStart (c :: r) = c :: r.
Proof. intros E. simpl. rewrite E. reflexivity. Qed.

Lemma blank_app (a b : jsstring) : blank (a ++ b) = blank a && blank b.
Proof. apply forallb_app. Qed.

Lemma blank_rev (s : jsstring) : blank (rev s) = blank s.
Proof.
  induction s as [|c r IH]; simpl; [reflexivity|].
  rewrite blank_app, IH. simpl. rewrite andb_true_r. apply andb_comm.
Qed.

Lemma trimEnd_decompose (s : jsstring) :
  exists w, s = trimEnd s ++ w /\ blank w = true.
Proof.
  unfold trimEnd. destruct (trimStart_decompose (rev s)) as (w & Hw & Hb).
  exists (rev w). split.
  - rewrite <- rev_app_distr, <- Hw, rev_involutive. reflexivity.
  - rewrite blank_rev. exact Hb.
Qed.

Lemma trimEnd_nil_iff (s : jsstring) : trimEnd s = [] <-> blank s = true.
Proof.
  unfold trimEnd. rewrite <- (blank_rev s), <- trimStart_nil_iff.
  split; intros H.
  - apply (f_equal (@rev N)) in H. rewrite rev_involutive in H. exact H.
  - rewrite H. reflexivity.
Qed.

(** A trimmed text that is not empty ends in a character that is not white
    space. *)
Lemma trimEnd_last (s : jsstring) :
  trimEnd s = [] \/ exists t x, trimEnd s = t ++ [x] /\ isWhiteSpace x = false.
Proof.
  unfold trimEnd. destruct (trimStart (rev s)) as [|x v] eqn:E.
  - left. reflexivity.
  - right. exists (rev v), x. split; [reflexivity|].
    exact (trimStart_head _ _ _ E).
Qed.

(** A text with a character that is not white space does not trim to the
    empty string. *)
Lemma trim_truthy_iff (s : jsstring) : truthy (trim s) = true <-> blank s = false.
Proof.
  unfold trim.
  destruct (trimStart_decompose s) as (w & Hw & Hb).
  assert (Hbs : blank s = blank (trimStart s)).
  { rewrite Hw at 1. rewrite blank_app, Hb. reflexivity. }
  rewrite Hbs.
  destruct (trimEnd (trimStart s)) as [|c r] eqn:E; simpl.
  - apply trimEnd_nil_iff in E. rewrite E. split; discriminate.
  - split; [intros _|reflexivity].
    destruct (blank (trimStart s)) eqn:B; [|reflexivity].
    apply trimEnd_nil_iff in B. congruence.
Qed.

Lemma count_words_blank (b : bool) (w : jsstring) :
  blank w = true -> count_words_go b w = 0.
Proof.
  revert b. induction w as [|c r IH]; intros b; simpl; [reflexivity|].
  destruct (isWhiteSpace c); simpl; [apply IH | discriminate].
Qed.

Lemma count_words_app_blank (b : bool) (t w : jsstring) :
  blank w = true -> count_words_go b (t ++ w) = count_words_go b t.
Proof.
  intros Hw. revert b. induction t as [|c r IH]; intros b; simpl.
  - apply count_words_blank, Hw.
  - destruct (isWhiteSpace c); rewrite IH; reflexivity.
Qed.

Lemma count_words_blank_app (w t : jsstring) :
  blank w = true -> count_words_go false (w ++ t) = count_words_go false t.
Proof.
  induction w as [|c r IH]; simpl; [reflexivity|].
  destruct (isWhiteSpace c); simpl; [exact IH | discriminate].
Qed.

(** Trimming does not change the number of words. *)
Lemma wordCount_trim (s : jsstring) : wordCount (trim s) = wordCount s.
Proof.
  unfold wordCount, trim.
  destruct (trimStart_decompose s) as (w & Hw & Hb).
  destruct (trimEnd_decompose (trimStart s)) as (w' & Hw' & Hb').
  rewrite Hw at 2. rewrite count_words_blank_app by exact Hb.
  rewrite Hw' at 2. rewrite count_words_app_blank by exact Hb'.
  reflexivity.
Qed.

Lemma ends_in_ws_snoc (prev : bool) (t : jsstring) (x : N) :
  ends_in_ws prev (t ++ [x]) = isWhiteSpace x.
Proof.
  revert prev. induction t as [|c r IH]; intros prev; simpl; [reflexivity|].
  apply IH.
Qed.

(** The pieces of [split(/\s+/)] against the words of the text, from the
    two states of the scan: inside a word, and inside a separator. *)
Lemma split_ws_go_length (s : jsstring) :
  (forall cur,
      length (split_ws_go false cur s)
      = count_words_go true s + 1 + (if ends_in_ws false s then 1 else 0)) /\
  length (split_ws_go true [] s)
  = count_words_go false s + (if ends_in_ws true s then 1 else 0).
Proof.
  induction s as [|c r [IH1 IH2]]; simpl.
  - split; reflexivity.
  - destruct (isWhiteSpace c) eqn:E; simpl.
    + split; [intros cur|]; rewrite IH2; lia.
    + split; [intros cur|]; rewrite IH1; lia.
Qed.

(** On a trimmed text, [split(/\s+/)] yields one piece for the empty text
    and the words of the text otherwise. *)
Lemma split_whitespace_trim_length (s : jsstring) :
  length (split_whitespace (trim s))
  = match trim s with [] => 1 | _ :: _ => wordCount (trim s) end.
Proof.
  unfold split_whitespace, wordCount.
  assert (Hhead : forall c r, trim s = c :: r -> isWhiteSpace c = false).
  { intros c r E. unfold trim in E.
    destruct (trimEnd_decompose (trimStart s)) as (w & Hw & _).
    rewrite E in Hw. simpl in Hw. exact (trimStart_head _ _ _ Hw). }
  assert (Hlast : trim s = [] \/ exists t x, trim s = t ++ [x] /\ isWhiteSpace x = false)
    by apply trimEnd_last.
  destruct (trim s) as [|c r] eqn:E; [reflexivity|].
  specialize (Hhead c r eq_refl). simpl. rewrite Hhead.
  destruct (split_ws_go_length r) as [H1 _]. rewrite H1.
  assert (Hend : ends_in_ws false r = false).
  { destruct Hlast as [H|(t & x & Ht & Hx)]; [discriminate|].
    destruct t as [|c' t']; simpl in Ht.
    - injection Ht as -> ->. reflexivity.
    - injection Ht as -> ->. rewrite ends_in_ws_snoc. exact Hx. }
  rewrite Hend. lia.
Qed.

Lemma wordCount_nil_of_trim (s : jsstring) : trim s = [] -> wordCount s = 0.
Proof.
  intros E. rewrite <- wordCount_trim, E. reflexivity.
Qed.

End JsStringFacts.

(** ** Regular expressions: the matcher decides the language *)

Module RegexFacts.
Import JsString Regex.

Section Language.
Variable ci : bool.

Lemma lang_void (s : jsstring) : ~ lang ci Void s.
Proof. intros H. inversion H. Qed.

Lemma lang_eps_iff (s : jsstring) : lang ci Eps s <-> s = [].
Proof.
  split; intros H.
  - inversion H. reflexivity.
  - subst. constructor.
Qed.

Lemma lang_chr_iff (c : N) (s : jsstring) :
  lang ci (Chr c) s <-> exists x, s = [x] /\ char_matches ci c x = true.
Proof.
  split; intros H.
  - inversion H; subst. eauto.
  - destruct H as (x & -> & Hx). constructor. exact Hx.
Qed.

Lemma lang_dot_iff (s : jsstring) :
  lang ci Dot s <-> exists x, s = [x] /\ isLineTerminator x = false.
Proof.
  split; intros H.
  - inversion H; subst. eauto.
  - destruct H as (x & -> & Hx). constructor. exact Hx.
Qed.

Lemma lang_cat_iff (r1 r2 : regex) (s : jsstring) :
  lang ci (Cat r1 r2) s <->
  exists s1 s2, s = s1 ++ s2 /\ lang ci r1 s1 /\ lang ci r2 s2.
Proof.
  split; intros H.
  - inversion H; subst. eauto.
  - destruct H as (s1 & s2 & -> & H1 & H2). constructor; assumption.
Qed.

Lemma lang_alt_iff (r1 r2 : regex) (s : jsstring) :
  lang ci (Alt r1 r2) s <-> lang ci r1 s \/ lang ci r2 s.
Proof.
  split; intros H.
  - inversion H; subst; auto.
  - destruct H; [apply lang_alt_l | apply lang_alt_r]; assumption.
Qed.

(** A non-empty word of [r*] starts with a non-empty word of [r]. *)
Lemma lang_star_cons (r : regex) (x : N) (s : jsstring) :
  lang ci (Star r) (x :: s) ->
  exists s1 s2, s = s1 ++ s2 /\ lang ci r (x :: s1) /\ lang ci (Star r) s2.
Proof.
  intros H. remember (Star r) as R eqn:ER. remember (x :: s) as t eqn:Et.
  revert x s r ER Et.
  induction H as [| | | | | | |r' s1 s2 H1 _ H2 IH2]; intros x0 s0 r0 ER Et;
    try discriminate.
  injection ER as ->.
  destruct s1 as [|y s1']; simpl in Et.
  - apply IH2; auto.
  - injection Et as -> <-. eauto.
Qed.

Lemma nullable_iff (r : regex) : nullable r = true <-> lang ci r [].
Proof.
  induction r as [| | c | |r1 IH1 r2 IH2|r1 IH1 r2 IH2|r IH]; simpl.
  - split; [discriminate | intros H; inversion H].
  - split; [constructor | reflexivity].
  - split; [discriminate | intros H; inversion H].
  - split; [discriminate | intros H; inversion H].
  - rewrite andb_true_iff, IH1, IH2, lang_cat_iff. split.
    + intros [H1 H2]. exists [], []. auto.
    + intros (s1 & s2 & E & H1 & H2).
      symmetry in E. apply app_eq_nil in E as [-> ->]. auto.
  - rewrite orb_true_iff, IH1, IH2, lang_alt_iff. reflexivity.
  - split; [constructor | reflexivity].
Qed.

Lemma lang_cat_smart (r1 r2 : regex) (s : jsstring) :
  lang ci (cat r1 r2) s <-> lang ci (Cat r1 r2) s.
Proof.
  rewrite lang_cat_iff.
  assert (V1 : forall r, ~ exists s1 s2 : jsstring,
               s = s1 ++ s2 /\ lang ci Void s1 /\ lang ci r s2).
  { intros r (s1 & s2 & _ & H & _). inversion H. }
  assert (V2 : forall r, ~ exists s1 s2 : jsstring,
               s = s1 ++ s2 /\ lang ci r s1 /\ lang ci Void s2).
  { intros r (s1 & s2 & _ & _ & H). inversion H. }
  assert (E : forall r, lang ci r s <->
               exists s1 s2 : jsstring, s = s1 ++ s2 /\ lang ci Eps s1 /\ lang ci r s2).
  { intros r. split.
    - intros H. exists [], s. repeat split; [constructor | exact H].
    - intros (s1 & s2 & -> & H1 & H2). inversion H1; subst. exact H2. }
  destruct r1; destruct r2; simpl;
    try (split; [intros H; inversion H | intros H; exfalso; eauto using V1, V2]; fail);
    try (rewrite <- lang_cat_iff; reflexivity);
    try apply E.
  all: split; [intros H; inversion H | intros H; exfalso].
  all: try (eapply V1; eassumption); try (eapply V2; eassumption).
Qed.

Lemma lang_alt_smart (r1 r2 : regex) (s : jsstring) :
  lang ci (alt r1 r2) s <-> lang ci (Alt r1 r2) s.
Proof.
  rewrite lang_alt_iff.
  destruct r1; destruct r2; simpl; try (rewrite lang_alt_iff; reflexivity);
    split; intros H; auto; destruct H as [H|H]; auto; inversion H.
Qed.

Lemma deriv_iff (r : regex) (x : N) (s : jsstring) :
  lang ci (deriv ci x r) s <-> lang ci r (x :: s).
Proof.
  revert s. induction r as [| | c | |r1 IH1 r2 IH2|r1 IH1 r2 IH2|r IH]; intros s; simpl.
  - split; intros H; inversion H.
  - split; intros H; inversion H.
  - rewrite lang_chr_iff. destruct (char_matches ci c x) eqn:E.
    + rewrite lang_eps_iff. split.
      * intros ->. eauto.
      * intros (y & [= -> ->] & _). reflexivity.
    + split; [intros H; inversion H|].
      intros (y & [= -> ->] & Hy). congruence.
  - rewrite lang_dot_iff. destruct (isLineTerminator x) eqn:E.
    + split; [intros H; inversion H|].
      intros (y & [= -> ->] & Hy). congruence.
    + rewrite lang_eps_iff. split.
      * intros ->. eauto.
      * intros (y & [= -> ->] & _). reflexivity.
  - rewrite lang_alt_smart, lang_alt_iff, lang_cat_smart, !lang_cat_iff. split.
    + intros [(s1 & s2 & -> & H1 & H2)|H].
      * apply IH1 in H1. exists (x :: s1), s2. auto.
      * destruct (nullable r1) eqn:N; [|inversion H].
        apply nullable_iff in N. apply IH2 in H. exists [], (x :: s). auto.
    + intros (s1 & s2 & E & H1 & H2).
      destruct s1 as [|y s1']; simpl in E.
      * subst s2. right. apply nullable_iff in H1. rewrite H1. apply IH2. exact H2.
      * injection E as -> ->. left. exists s1', s2. rewrite IH1. auto.
  - rewrite lang_alt_smart, !lang_alt_iff, IH1, IH2. reflexivity.
  - rewrite lang_cat_smart, lang_cat_iff. split.
    + intros (s1 & s2 & -> & H1 & H2). apply IH in H1.
      change (x :: s1 ++ s2) with ((x :: s1) ++ s2). constructor; assumption.
    + intros H. apply lang_star_cons in H as (s1 & s2 & -> & H1 & H2).
      exists s1, s2. rewrite IH. auto.
Qed.

(** The matcher accepts a string exactly when one of its prefixes is in
    the language of the pattern. *)
Lemma matches_prefix_iff (r : regex) (s : jsstring) :
  matches_prefix ci r s = true <->
  exists p rest, s = p ++ rest /\ lang ci r p.
Proof.
  revert r. induction s as [|x s IH]; intros r; simpl.
  - rewrite orb_false_r, nullable_iff. split.
    + intros H. exists [], []. auto.
    + intros (p & rest & E & H).
      symmetry in E. apply app_eq_nil in E as [-> ->]. exact H.
  - rewrite orb_true_iff, nullable_iff, IH. split.
    + intros [H|(p & rest & -> & H)].
      * exists [], (x :: s). auto.
      * apply deriv_iff in H. exists (x :: p), rest. auto.
    + intros (p & rest & E & H). destruct p as [|y p']; simpl in E.
      * left. exact H.
      * injection E as -> ->. right. exists p', rest. rewrite deriv_iff. auto.
Qed.

Lemma lang_star_dot_iff (s : jsstring) :
  lang ci (Star Dot) s <-> Forall (fun c => isLineTerminator c = false) s.
Proof.
  split.
  - intros H. remember (Star Dot) as R eqn:ER.
    induction H as [| | | | | | |r s1 s2 H1 _ H2 IH2]; try discriminate.
    + constructor.
    + injection ER as ->. inversion H1; subst. simpl. constructor; auto.
  - induction 1 as [|x l Hx _ IH].
    + constructor.
    + change (x :: l) with ([x] ++ l). constructor; [constructor; exact Hx | exact IH].
Qed.

Lemma lang_plus_dot_iff (s : jsstring) :
  lang ci (Plus Dot) s <->
  s <> [] /\ Forall (fun c => isLineTerminator c = false) s.
Proof.
  unfold Plus. rewrite lang_cat_iff. split.
  - intros (s1 & s2 & -> & H1 & H2).
    apply lang_dot_iff in H1 as (x & -> & Hx). apply lang_star_dot_iff in H2.
    split; [discriminate | constructor; assumption].
  - intros [Hne H]. destruct H as [|x l Hx Hl]; [contradiction|].
    exists [x], l. rewrite lang_dot_iff, lang_star_dot_iff. eauto.
Qed.

Lemma lang_opt_iff (r : regex) (s : jsstring) :
  lang ci (Opt r) s <-> lang ci r s \/ s = [].
Proof. unfold Opt. rewrite lang_alt_iff, lang_eps_iff. reflexivity. Qed.

End Language.

Lemma char_matches_ignoring_case (c x : N) :
  char_matches true c x = true <-> canonicalize c = canonicalize x.
Proof. unfold char_matches. apply N.eqb_eq. Qed.

(** The language of a literal word under the [i] flag. *)
Lemma lang_lit_iff (w : string) (s : jsstring) :
  lang true (lit w) s <-> same_ignoring_case s (js w).
Proof.
  unfold lit, same_ignoring_case. generalize (js w) as l. intros l. revert s.
  induction l as [|c l IH]; intros s; simpl.
  - rewrite lang_eps_iff. split; [intros ->; reflexivity|].
    destruct s; [reflexivity | discriminate].
  - rewrite lang_cat_iff. split.
    + intros (s1 & s2 & -> & H1 & H2).
      apply lang_chr_iff in H1 as (x & -> & Hx). apply IH in H2.
      simpl. simpl in Hx. apply N.eqb_eq in Hx. congruence.
    + destruct s as [|x s']; simpl; [discriminate|]. intros [= Hx Hs].
      exists [x], s'. rewrite lang_chr_iff, IH. simpl.
      repeat split; [|exact Hs]. exists x. split; [reflexivity|].
      apply N.eqb_eq. congruence.
Qed.

(** A character that is not an upper-case letter is matched by itself
    alone. *)
Lemma canonicalize_exact (c x : N) :
  (c < 65 \/ 90 < c)%N -> canonicalize x = c -> x = c.
Proof.
  unfold canonicalize. intros Hc.
  destruct (97 <=? x)%N eqn:E1; destruct (x <=? 122)%N eqn:E2; simpl; try (intros; assumption).
  apply N.leb_le in E1, E2. lia.
Qed.

Lemma char_matches_exact (c x : N) :
  (c < 65 \/ 90 < c)%N -> (c < 97 \/ 122 < c)%N ->
  char_matches true c x = true <-> x = c.
Proof.
  intros H1 H2. unfold char_matches.
  assert (Ec : canonicalize c = c).
  { unfold canonicalize.
    destruct (97 <=? c)%N eqn:E1; destruct (c <=? 122)%N eqn:E2; simpl; try reflexivity.
    apply N.leb_le in E1, E2. lia. }
  rewrite Ec, N.eqb_eq. split.
  - intros H. symmetry in H. exact (canonicalize_exact c x H1 H).
  - intros ->. symmetry. exact Ec.
Qed.

End RegexFacts.

(** ** usePremium *)

Module UsePremiumFacts.
Import UsePremium.

Lemma checkPremium_true_iff (sub : bool) (ls : gmap (list N) (list N)) :
  checkPremium sub ls = true <->
  sub = true \/ ls !! js "isPremium" = Some (js "true").
Proof.
  unfold checkPremium, getItem_is.
  rewrite orb_true_iff, bool_decide_eq_true. reflexivity.
Qed.

(** C3: after any recomputation (the effect, a storage event, a
    premiumStatusChanged event) the hook's [isPremium] is true if and only
    if the subscription flag is true or [localStorage] holds exactly the
    string "true" under the key "isPremium"; an absent key or any other
    string counts as false. *)
Theorem usePremium_isPremium_iff (t : Trigger) (sub : bool)
    (ls : gmap (list N) (list N)) (h : Hook) :
  isPremium (recompute t sub ls h) = true <->
  sub = true \/ ls !! js "isPremium" = Some (js "true").
Proof.
  destruct t; simpl; unfold handleStorageChange; simpl;
    apply checkPremium_true_iff.
Qed.

(** Before its effect has run, the hook answers [false] whatever the two
    sources say. *)
Lemma usePremium_initially_false : isPremium initial = false.
Proof. reflexivity. Qed.

Lemma checkPremium_absent (ls : gmap (list N) (list N)) :
  ls !! js "isPremium" = None -> checkPremium false ls = false.
Proof.
  intros H. unfold checkPremium, getItem_is. simpl.
  apply bool_decide_eq_false. rewrite H. discriminate.
Qed.

Lemma checkPremium_other_string (ls : gmap (list N) (list N)) (v : jsstring) :
  ls !! js "isPremium" = Some v -> v <> js "true" -> checkPremium false ls = false.
Proof.
  intros H Hv. unfold checkPremium, getItem_is. simpl.
  apply bool_decide_eq_false. rewrite H. intros [= E]. contradiction.
Qed.

End UsePremiumFacts.

(** ** AddNewsModal *)

Module AddNewsModalFacts.
Import JsString Regex RegexFacts JsStringFacts AddNewsModal.

(** *** The image URL pattern *)

Lemma same_ignoring_case_separator (s : jsstring) :
  same_ignoring_case s (js "://") -> s = js "://".
Proof.
  unfold same_ignoring_case. change (js "://") with [58; 47; 47]%N.
  change (map canonicalize [58; 47; 47]%N) with [58; 47; 47]%N.
  destruct s as [|a [|b [|c [|d s]]]]; try discriminate.
  intros [= Ha Hb Hc].
  apply canonicalize_exact in Ha; [|lia].
  apply canonicalize_exact in Hb; [|lia].
  apply canonicalize_exact in Hc; [|lia].
  subst. reflexivity.
Qed.

Lemma lang_extensions_iff (s : jsstring) :
  lang true (alts [lit "jpg"; lit "jpeg"; lit "png"; lit "gif"; lit "webp"]) s <->
  Exists (same_ignoring_case s) imageExtensions.
Proof.
  unfold imageExtensions. cbn [alts].
  rewrite !lang_alt_iff, !lang_lit_iff, !Exists_cons, Exists_nil. tauto.
Qed.

Lemma lang_scheme_iff (s : jsstring) :
  lang true (Cat (lit "http") (Opt (Chr 115))) s <->
  same_ignoring_case s (js "http") \/ same_ignoring_case s (js "https").
Proof.
  rewrite lang_cat_iff. split.
  - intros (s1 & s2 & -> & H1 & H2).
    apply lang_lit_iff in H1. apply lang_opt_iff in H2 as [H2| ->].
    + right. apply lang_chr_iff in H2 as (x & -> & Hx).
      apply char_matches_ignoring_case in Hx.
      unfold same_ignoring_case in *. rewrite map_app, H1. cbn [map]. rewrite <- Hx.
      reflexivity.
    + left. rewrite app_nil_r. exact H1.
  - intros [H|H].
    + exists s, []. rewrite app_nil_r, lang_lit_iff, lang_opt_iff. auto.
    + unfold same_ignoring_case in H.
      destruct s as [|a [|b [|c [|d [|e [|f s]]]]]]; try discriminate.
      injection H as Ha Hb Hc Hd He.
      exists [a; b; c; d], [e]. rewrite lang_lit_iff, lang_opt_iff, lang_chr_iff.
      split; [reflexivity|]. split.
      * unfold same_ignoring_case. simpl. congruence.
      * left. exists e. split; [reflexivity|].
        apply char_matches_ignoring_case. symmetry. exact He.
Qed.

(** The pattern accepts exactly the strings of the shape
    [http(s)://...<dot><extension>...]. *)
Lemma matchesImageUrl_iff (s : jsstring) :
  matchesImageUrl s = true <-> ImageUrlShape s.
Proof.
  unfold matchesImageUrl, ImageUrlShape. rewrite matches_prefix_iff. split.
  - intros (p & rest & -> & H). unfold imageUrlPattern in H.
    assert (H' : lang true
              (Cat (Cat (lit "http") (Opt (Chr 115)))
                 (Cat (lit "://") (Cat (Plus Dot) (Cat (Chr 46)
                    (alts [lit "jpg"; lit "jpeg"; lit "png"; lit "gif"; lit "webp"]))))) p).
    { apply lang_cat_iff in H as (s1 & t1 & -> & H1 & H).
      apply lang_cat_iff in H as (s2 & t2 & -> & H2 & H).
      rewrite app_assoc. constructor; [constructor; assumption | exact H]. }
    clear H.
    apply lang_cat_iff in H' as (scheme & t1 & -> & Hs & H).
    apply lang_scheme_iff in Hs.
    apply lang_cat_iff in H as (sep & t2 & -> & Hsep & H).
    apply lang_lit_iff, same_ignoring_case_separator in Hsep. subst sep.
    apply lang_cat_iff in H as (mid & t3 & -> & Hmid & H).
    apply lang_plus_dot_iff in Hmid as [Hne Hmid].
    apply lang_cat_iff in H as (dot & ext & -> & Hdot & Hext).
    apply lang_chr_iff in Hdot as (x & -> & Hx).
    apply char_matches_exact in Hx; [|lia|lia]. subst x.
    apply lang_extensions_iff in Hext.
    exists scheme, mid, ext, rest. repeat split; try assumption.
    rewrite <- !app_assoc. reflexivity.
  - intros (scheme & mid & ext & rest & -> & Hs & Hne & Hmid & Hext).
    exists (scheme ++ js "://" ++ mid ++ js "." ++ ext), rest. split.
    { rewrite <- !app_assoc. reflexivity. }
    apply lang_scheme_iff in Hs. apply lang_cat_iff in Hs as (s1 & s2 & -> & H1 & H2).
    unfold imageUrlPattern. rewrite <- app_assoc.
    constructor; [exact H1|]. constructor; [exact H2|].
    constructor; [apply lang_lit_iff; reflexivity|].
    constructor; [apply lang_plus_dot_iff; auto|].
    change (js "." ++ ext) with ([46%N] ++ ext).
    constructor; [constructor; reflexivity|].
    apply lang_extensions_iff. exact Hext.
Qed.

(** A string that the pattern accepts starts with a letter, and so does
    not trim to the empty string. *)
Lemma matchesImageUrl_not_blank (s : jsstring) :
  matchesImageUrl s = true -> truthy (trim s) = true.
Proof.
  intros H. apply matchesImageUrl_iff in H.
  destruct H as (scheme & mid & ext & rest & -> & Hs & _).
  apply trim_truthy_iff.
  assert (Hh : exists x t, scheme = x :: t /\ canonicalize x = 72%N).
  { unfold same_ignoring_case in Hs.
    destruct Hs as [Hs|Hs]; destruct scheme as [|x t]; try discriminate;
      injection Hs as Hx _; eauto. }
  destruct Hh as (x & t & -> & Hx). simpl.
  assert (Hw : isWhiteSpace x = false).
  { unfold canonicalize in Hx.
    destruct (97 <=? x)%N eqn:E1; destruct (x <=? 122)%N eqn:E2; simpl in Hx;
      try (subst x; reflexivity).
    apply N.leb_le in E1, E2. assert (x = 104%N) by lia. subst x. reflexivity. }
  rewrite Hw. reflexivity.
Qed.

(** C4 as stated fails: the check accepts an image URL with a query
    string, which does not end in any of the image extensions. *)
Lemma accepted_url_not_ending_in_extension :
  imageUrlCheck (Examples.Form.withImageUrl Examples.Form.queryUrl) = None /\
  endsInImageExtension Examples.Form.queryUrl = false.
Proof. split; vm_compute; reflexivity. Qed.

(** C4, amended: the image check of the form accepts a string if and only
    if the string starts with http or https, then [://], then one character
    or more none of which ends a line, then a dot and one of jpg, jpeg,
    png, gif, webp, letters compared without regard to case; whatever
    follows the extension is accepted, so an accepted string contains such
    an extension and need not end in it. *)
Theorem imageUrlCheck_iff :
  (forall s : jsstring, matchesImageUrl s = true <-> ImageUrlShape s) /\
  (forall formData : FormData,
      imageUrlCheck formData = None <-> ImageUrlShape (FormData.imageUrl formData)).
Proof.
  split; [exact matchesImageUrl_iff|]. intros formData.
  rewrite <- matchesImageUrl_iff. unfold imageUrlCheck.
  destruct (matchesImageUrl (FormData.imageUrl formData)) eqn:E.
  - rewrite (matchesImageUrl_not_blank _ E). simpl. tauto.
  - destruct (truthy (trim (FormData.imageUrl formData))); simpl;
      split; discriminate.
Qed.

(** The pattern on sample strings: case is ignored, the scheme starts the
    string, something stands between [://] and the dot, and a line
    terminator stops [.+]. *)
Example matchesImageUrl_examples :
  matchesImageUrl (js "https://example.com/image.jpg") = true /\
  matchesImageUrl (js "HTTP://EXAMPLE.COM/IMAGE.WebP") = true /\
  matchesImageUrl (js "https://example.com/image.jpg.exe") = true /\
  matchesImageUrl (js "ftp://example.com/image.jpg") = false /\
  matchesImageUrl (js " https://example.com/image.jpg") = false /\
  matchesImageUrl (js "http://.jpg") = false /\
  matchesImageUrl (js "https://example.com/image.bmp") = false /\
  matchesImageUrl (js "http://a" ++ [10%N] ++ js "b.png") = false.
Proof. repeat split; vm_compute; reflexivity. Qed.

(** The tags of the form: split on commas, trimmed, the empty ones
    dropped. *)
Example tagsArray_example :
  tagsArray Examples.Form.validForm = [js "a"; js "b"; js "c"].
Proof. vm_compute. reflexivity. Qed.

(** *** The read-time estimate *)

(** C8: the read-time of a text is the greater of 1 and the number of its
    words divided by 200 and rounded up, where the words are the maximal
    runs of characters that are not white space; a text of 400 words takes
    2 minutes and a text of one word takes 1 minute. *)
Theorem calculateReadTime_spec :
  (forall text : jsstring,
      calculateReadTime text = Nat.max 1 (ceil_div (wordCount text) 200)) /\
  (wordCount (Examples.Form.words 400) = 400 /\
   calculateReadTime (Examples.Form.words 400) = 2) /\
  (wordCount (Examples.Form.words 1) = 1 /\
   calculateReadTime (Examples.Form.words 1) = 1).
Proof.
  split; [|split; split; vm_compute; reflexivity].
  intros text. unfold calculateReadTime, wordsPerMinute.
  rewrite split_whitespace_trim_length.
  destruct (trim text) as [|c r] eqn:E.
  - rewrite (wordCount_nil_of_trim text E). reflexivity.
  - rewrite <- E, wordCount_trim. reflexivity.
Qed.

(** The code counts one piece for a blank text, which has no word; the
    minimum of one minute hides the difference. *)
Lemma calculateReadTime_blank (text : jsstring) :
  trim text = [] ->
  length (split_whitespace (trim text)) = 1 /\ wordCount text = 0 /\
  calculateReadTime text = 1.
Proof.
  intros E. split; [rewrite E; reflexivity|]. split.
  - exact (wordCount_nil_of_trim text E).
  - unfold calculateReadTime. rewrite E. reflexivity.
Qed.

(** *** Validation *)

Lemma validateForm_eq (st : State) (w : World) :
  validateForm (st, w) =
  match firstFailure (formData st) with
  | None => (Normal true, (st, w))
  | Some m => (Normal false, (withError m st, w))
  end.
Proof.
  unfold validateForm, firstFailure, titleCheck, summaryCheck, contentCheck,
    imageUrlCheck, bind, getFormData, setError, modifyState, ret.
  cbn [fst snd].
  rewrite !Nat.ltb_antisym.
  destruct (truthy (trim (FormData.title (formData st)))); cbn [negb]; [|reflexivity].
  destruct (10 <=? length (FormData.title (formData st)))%nat; cbn [negb]; [|reflexivity].
  destruct (truthy (trim (FormData.summary (formData st)))); cbn [negb]; [|reflexivity].
  destruct (20 <=? length (FormData.summary (formData st)))%nat; cbn [negb]; [|reflexivity].
  destruct (truthy (trim (FormData.content (formData st)))); cbn [negb]; [|reflexivity].
  destruct (100 <=? length (FormData.content (formData st)))%nat; cbn [negb]; [|reflexivity].
  destruct (truthy (trim (FormData.imageUrl (formData st)))); cbn [negb]; [|reflexivity].
  destruct (matchesImageUrl (FormData.imageUrl (formData st))); reflexivity.
Qed.

Lemma firstFailure_None_iff (formData : FormData) :
  firstFailure formData = None <->
  titleCheck formData = None /\ summaryCheck formData = None /\
  contentCheck formData = None /\ imageUrlCheck formData = None.
Proof.
  unfold firstFailure.
  destruct (titleCheck formData); [split; [discriminate | intros [? _]; discriminate]|].
  destruct (summaryCheck formData);
    [split; [discriminate | intros (_ & ? & _); discriminate]|].
  destruct (contentCheck formData);
    [split; [discriminate | intros (_ & _ & ? & _); discriminate]|].
  tauto.
Qed.

Lemma titleCheck_iff (formData : FormData) :
  titleCheck formData = None <->
  truthy (trim (FormData.title formData)) = true /\ 10 <= length (FormData.title formData).
Proof.
  unfold titleCheck. destruct (truthy (trim (FormData.title formData))); cbn [negb].
  - destruct (Nat.leb_spec 10 (length (FormData.title formData))).
    + split; [intros _; split; [reflexivity | assumption] | reflexivity].
    + split; [discriminate | intros [_ ?]; lia].
  - split; [discriminate | intros [? _]; discriminate].
Qed.

Lemma summaryCheck_iff (formData : FormData) :
  summaryCheck formData = None <->
  truthy (trim (FormData.summary formData)) = true /\
  20 <= length (FormData.summary formData).
Proof.
  unfold summaryCheck. destruct (truthy (trim (FormData.summary formData))); cbn [negb].
  - destruct (Nat.leb_spec 20 (length (FormData.summary formData))).
    + split; [intros _; split; [reflexivity | assumption] | reflexivity].
    + split; [discriminate | intros [_ ?]; lia].
  - split; [discriminate | intros [? _]; discriminate].
Qed.

Lemma contentCheck_iff (formData : FormData) :
  contentCheck formData = None <->
  truthy (trim (FormData.content formData)) = true /\
  100 <= length (FormData.content formData).
Proof.
  unfold contentCheck. destruct (truthy (trim (FormData.content formData))); cbn [negb].
  - destruct (Nat.leb_spec 100 (length (FormData.content formData))).
    + split; [intros _; split; [reflexivity | assumption] | reflexivity].
    + split; [discriminate | intros [_ ?]; lia].
  - split; [discriminate | intros [? _]; discriminate].
Qed.

(** A text is not blank exactly when trimming leaves something of it. *)
Lemma NotBlank_iff (s : jsstring) : NotBlank s <-> truthy (trim s) = true.
Proof.
  rewrite trim_truthy_iff. unfold NotBlank, blank.
  induction s as [|a s IH]; cbn [forallb].
  - split; [intros (c & H & _); inversion H | discriminate].
  - destruct (isWhiteSpace a) eqn:E; cbn [andb].
    + rewrite <- IH. split; intros (c & H & Hc).
      * apply elem_of_cons in H as [-> | H]; [congruence | eauto].
      * exists c. split; [apply elem_of_cons; right; exact H | exact Hc].
    + split; [reflexivity | intros _]. exists a.
      split; [apply elem_of_cons; left; reflexivity | exact E].
Qed.

Lemma titleCheck_spec (formData : FormData) :
  match titleCheck formData with
  | None => Passes OnTitle formData
  | Some m => ~ Passes OnTitle formData /\ Reports OnTitle formData m
  end.
Proof.
  unfold titleCheck, Passes, Reports, checked, WellFormed.
  destruct (truthy (trim (FormData.title formData))) eqn:E; cbn [negb].
  - apply NotBlank_iff in E.
    destruct (Nat.leb_spec 10 (length (FormData.title formData))) as [L|L].
    + auto.
    + split; [intros [_ ?]; lia|]. right.
      split; [exact E|]. split; [lia | reflexivity].
  - assert (B : ~ NotBlank (FormData.title formData))
      by (rewrite NotBlank_iff, E; discriminate).
    split; [intros [? _]; contradiction|]. left. auto.
Qed.

Lemma summaryCheck_spec (formData : FormData) :
  match summaryCheck formData with
  | None => Passes OnSummary formData
  | Some m => ~ Passes OnSummary formData /\ Reports OnSummary formData m
  end.
Proof.
  unfold summaryCheck, Passes, Reports, checked, WellFormed.
  destruct (truthy (trim (FormData.summary formData))) eqn:E; cbn [negb].
  - apply NotBlank_iff in E.
    destruct (Nat.leb_spec 20 (length (FormData.summary formData))) as [L|L].
    + auto.
    + split; [intros [_ ?]; lia|]. right.
      split; [exact E|]. split; [lia | reflexivity].
  - assert (B : ~ NotBlank (FormData.summary formData))
      by (rewrite NotBlank_iff, E; discriminate).
    split; [intros [? _]; contradiction|]. left. auto.
Qed.

Lemma contentCheck_spec (formData : FormData) :
  match contentCheck formData with
  | None => Passes OnContent formData
  | Some m => ~ Passes OnContent formData /\ Reports OnContent formData m
  end.
Proof.
  unfold contentCheck, Passes, Reports, checked, WellFormed.
  destruct (truthy (trim (FormData.content formData))) eqn:E; cbn [negb].
  - apply NotBlank_iff in E.
    destruct (Nat.leb_spec 100 (length (FormData.content formData))) as [L|L].
    + auto.
    + split; [intros [_ ?]; lia|]. right.
      split; [exact E|]. split; [lia | reflexivity].
  - assert (B : ~ NotBlank (FormData.content formData))
      by (rewrite NotBlank_iff, E; discriminate).
    split; [intros [? _]; contradiction|]. left. auto.
Qed.

Lemma imageUrlCheck_spec (formData : FormData) :
  match imageUrlCheck formData with
  | None => Passes OnImageUrl formData
  | Some m => ~ Passes OnImageUrl formData /\ Reports OnImageUrl formData m
  end.
Proof.
  unfold imageUrlCheck, Passes, Reports, checked, WellFormed.
  destruct (truthy (trim (FormData.imageUrl formData))) eqn:E; cbn [negb].
  - apply NotBlank_iff in E.
    destruct (matchesImageUrl (FormData.imageUrl formData)) eqn:I.
    + apply matchesImageUrl_iff in I. auto.
    + assert (S : ~ ImageUrlShape (FormData.imageUrl formData))
        by (rewrite <- matchesImageUrl_iff, I; discriminate).
      split; [intros [_ ?]; contradiction|]. right. auto.
  - assert (B : ~ NotBlank (FormData.imageUrl formData))
      by (rewrite NotBlank_iff, E; discriminate).
    split; [intros [? _]; contradiction|]. left. auto.
Qed.

(** The two outcomes of validation. *)
Lemma validateForm_cases (st : State) (w : World) :
  (validateForm (st, w) = (Normal true, (st, w)) /\
   forall c : Check, Passes c (formData st)) \/
  (exists (c : Check) (m : jsstring),
      FirstFailing c (formData st) /\ Reports c (formData st) m /\
      validateForm (st, w) = (Normal false, (withError m st, w))).
Proof.
  rewrite validateForm_eq. unfold firstFailure.
  pose proof (titleCheck_spec (formData st)) as Ht.
  pose proof (summaryCheck_spec (formData st)) as Hs.
  pose proof (contentCheck_spec (formData st)) as Hc.
  pose proof (imageUrlCheck_spec (formData st)) as Hi.
  destruct (titleCheck (formData st)) as [m|].
  { right. exists OnTitle, m. destruct Ht as [Hn Hr].
    split; [split; [exact Hn | intros c' L; destruct c'; cbn in L; lia]|]. auto. }
  destruct (summaryCheck (formData st)) as [m|].
  { right. exists OnSummary, m. destruct Hs as [Hn Hr].
    split; [split; [exact Hn | intros c' L; destruct c'; cbn in L; try lia; assumption]|].
    auto. }
  destruct (contentCheck (formData st)) as [m|].
  { right. exists OnContent, m. destruct Hc as [Hn Hr].
    split; [split; [exact Hn | intros c' L; destruct c'; cbn in L; try lia; assumption]|].
    auto. }
  destruct (imageUrlCheck (formData st)) as [m|].
  { right. exists OnImageUrl, m. destruct Hi as [Hn Hr].
    split; [split; [exact Hn | intros c' L; destruct c'; cbn in L; try lia; assumption]|].
    auto. }
  left. split; [reflexivity|]. intros c. destruct c; assumption.
Qed.

Lemma FirstFailing_unique (c c' : Check) (formData : FormData) :
  FirstFailing c formData -> FirstFailing c' formData -> c = c'.
Proof.
  intros [N1 B1] [N2 B2].
  destruct (Nat.lt_trichotomy (position c) (position c')) as [L|[E|L]].
  - exfalso. apply N1, B2, L.
  - destruct c, c'; cbn in E; congruence.
  - exfalso. apply N2, B1, L.
Qed.

Lemma validateForm_accepts_iff (st : State) (w : World) :
  fst (validateForm (st, w)) = Normal true <-> forall c : Check, Passes c (formData st).
Proof.
  destruct (validateForm_cases st w) as [[E P] | (c & m & [N _] & _ & E)]; rewrite E.
  - tauto.
  - cbn [fst]. split; [discriminate | intros P; exfalso; apply N, P].
Qed.

Lemma validateForm_accepts (st : State) (w : World) :
  fst (validateForm (st, w)) = Normal true <-> firstFailure (formData st) = None.
Proof.
  rewrite validateForm_eq.
  destruct (firstFailure (formData st)); cbn [fst]; split; congruence.
Qed.

(** C6, amended: validation accepts exactly when the four checks pass, and
    then leaves the state as it is; otherwise it sets as the error of the
    form the message of the first check that fails, in the order title,
    summary, content, image URL, and changes nothing else.  A check passes
    when its field is not blank and, for the title, the summary and the
    content, has at least 10, 20 and 100 characters as typed (for the image
    URL: has the shape that the pattern accepts); the message of a failing
    check is that the field is required when it is blank, and otherwise
    that it is too short or not a valid image URL.  So, the other checks
    passing, a title that is not blank is accepted exactly from 10
    characters on (summary: 20, content: 100): 9 letters are rejected and
    10 accepted, 99 letters of content are rejected and 100 accepted. *)
Theorem validateForm_first_failure :
  (forall (st : State) (w : World),
      let out := validateForm (st, w) in
      let st' := fst (snd out) in
      (fst out = Normal true <-> forall c : Check, Passes c (formData st)) /\
      (fst out = Normal true -> snd out = (st, w)) /\
      ((forall c : Check, Passes c (formData st)) \/
       exists c : Check, FirstFailing c (formData st)) /\
      (forall c : Check, FirstFailing c (formData st) ->
         fst out = Normal false /\
         Reports c (formData st) (error st') /\
         formData st' = formData st /\
         isSubmitting st' = isSubmitting st /\
         success st' = success st /\
         snd (snd out) = w)) /\
  (forall (st : State) (w : World),
      let fd := formData st in
      let accepted := fst (validateForm (st, w)) = Normal true in
      (NotBlank (FormData.title fd) ->
       Passes OnSummary fd -> Passes OnContent fd -> Passes OnImageUrl fd ->
       (accepted <-> 10 <= length (FormData.title fd))) /\
      (Passes OnTitle fd -> NotBlank (FormData.summary fd) ->
       Passes OnContent fd -> Passes OnImageUrl fd ->
       (accepted <-> 20 <= length (FormData.summary fd))) /\
      (Passes OnTitle fd -> Passes OnSummary fd ->
       NotBlank (FormData.content fd) -> Passes OnImageUrl fd ->
       (accepted <-> 100 <= length (FormData.content fd)))) /\
  (let out := validateForm (Examples.Form.stateOf
                              (Examples.Form.withTitle (Examples.Form.letters 9)),
                            Examples.Form.world0) in
   fst out = Normal false /\
   error (fst (snd out)) = js "Title must be at least 10 characters") /\
  fst (validateForm (Examples.Form.stateOf
                       (Examples.Form.withTitle (Examples.Form.letters 10)),
                     Examples.Form.world0)) = Normal true /\
  (let out := validateForm (Examples.Form.stateOf
                              (Examples.Form.withSummary (Examples.Form.letters 19)),
                            Examples.Form.world0) in
   fst out = Normal false /\
   error (fst (snd out)) = js "Summary must be at least 20 characters") /\
  fst (validateForm (Examples.Form.stateOf
                       (Examples.Form.withSummary (Examples.Form.letters 20)),
                     Examples.Form.world0)) = Normal true /\
  (let out := validateForm (Examples.Form.stateOf
                              (Examples.Form.withContent (Examples.Form.letters 99)),
                            Examples.Form.world0) in
   fst out = Normal false /\
   error (fst (snd out)) = js "Content must be at least 100 characters") /\
  fst (validateForm (Examples.Form.stateOf
                       (Examples.Form.withContent (Examples.Form.letters 100)),
                     Examples.Form.world0)) = Normal true /\
  (let out := validateForm (Examples.Form.stateOf Examples.Form.shortTitleAndContent,
                            Examples.Form.world0) in
   fst out = Normal false /\
   error (fst (snd out)) = js "Title must be at least 10 characters").
Proof.
  split; [|split].
  - intros st w. cbv zeta.
    split; [apply validateForm_accepts_iff|].
    destruct (validateForm_cases st w) as [[E P] | (c & m & F & R & E)]; rewrite E;
      cbn [fst snd].
    + split; [reflexivity|]. split; [left; exact P|].
      intros c [N _]. exfalso. apply N, P.
    + split; [discriminate|]. split; [right; exists c; exact F|].
      intros c' F'. rewrite (FirstFailing_unique c' c _ F' F).
      repeat split; try reflexivity. exact R.
  - intros st w. cbv zeta. rewrite validateForm_accepts_iff.
    split; [|split].
    + intros B Ps Pc Pi. split.
      * intros P. exact (proj2 (P OnTitle)).
      * intros L c. destruct c; [split|..]; assumption.
    + intros Pt B Pc Pi. split.
      * intros P. exact (proj2 (P OnSummary)).
      * intros L c. destruct c; [|split|..]; assumption.
    + intros Pt Ps B Pi. split.
      * intros P. exact (proj2 (P OnContent)).
      * intros L c. destruct c; [| |split|]; assumption.
  - cbv zeta. repeat split; vm_compute; reflexivity.
Qed.

(** C6 as stated fails: a title of ten spaces is not empty and has 10
    characters, and the summary, the content and the image URL of the form
    pass their checks as the specification words them; validation rejects
    the form, with the message that the title is required. *)
Lemma blank_title_of_ten_characters_rejected :
  let formData := Examples.Form.withTitle (repeat 32%N 10) in
  let out := validateForm (Examples.Form.stateOf formData, Examples.Form.world0) in
  (FormData.title formData <> [] /\ length (FormData.title formData) = 10) /\
  (FormData.summary formData <> [] /\
   (20 <=? length (FormData.summary formData)) = true) /\
  (FormData.content formData <> [] /\
   (100 <=? length (FormData.content formData)) = true) /\
  (FormData.imageUrl formData <> [] /\
   endsInImageExtension (FormData.imageUrl formData) = true /\
   matchesImageUrl (FormData.imageUrl formData) = true) /\
  fst out = Normal false /\
  error (fst (snd out)) = js "Title is required".
Proof. cbv zeta. repeat split; try discriminate; vm_compute; reflexivity. Qed.

(** A blank title is refused whatever its length. *)
Lemma titleCheck_blank :
  titleCheck (Examples.Form.withTitle (repeat 32%N 10)) = Some (js "Title is required").
Proof. vm_compute. reflexivity. Qed.

Ltac crunch :=
  cbn [fst snd negb requests error formData isSubmitting success pointsAwarded timers
       localStorage console onSuccessCalls onCloseCalls withError withIsSubmitting
       withSuccess withFormData message].

Ltac run_submit :=
  unfold publish, bind, try_finally, try_catch, fetch, response_json,
    get_message, throw, ret, getFormData, setIsSubmitting, setError, setSuccess,
    addCamblissPoints, localStorage_setItem, setTimeout, console_error,
    modifyState, modifyWorld;
  crunch.

(** *** Submission *)

Lemma handleSubmit_invalid (rt : Runtime) (env : Env) (st : State) (w : World)
    (u : User) (m : jsstring) :
  isAuthenticated env = true ->
  user env = Some u ->
  firstFailure (formData st) = Some m ->
  handleSubmit rt env (st, w) = (Normal tt, (withError m st, w)).
Proof.
  intros Hauth Huser Hv. unfold handleSubmit, bind.
  rewrite Hauth, Huser, validateForm_eq, Hv. reflexivity.
Qed.

Lemma handleSubmit_valid (rt : Runtime) (env : Env) (st : State) (w : World) (u : User) :
  isAuthenticated env = true ->
  user env = Some u ->
  firstFailure (formData st) = None ->
  handleSubmit rt env (st, w) =
  try_finally
    (try_catch (publish rt env u)
       (fun err =>
          console_error err ;;
          setError (or_else (message err)
                      (js "Failed to publish article. Please try again."))))
    (setIsSubmitting false)
    (withError (js "") (withIsSubmitting true st), w).
Proof.
  intros Hauth Huser Hv. unfold handleSubmit. rewrite Hauth, Huser.
  unfold bind at 1. rewrite validateForm_eq, Hv. reflexivity.
Qed.

(** C7, amended: a signed-in user submits the form.  If validation fails,
    no request is sent and the form stays as it is.  If validation passes
    and the request throws or the response is not 2xx, exactly one request
    has been sent, the form stays populated, nothing is awarded, scheduled
    or persisted, and the error shown is [failureMessage]: the message
    field of the response body when the body is a JSON object with a
    truthy message; 'Failed to publish article' when the body is JSON
    without one; and otherwise the message of the exception raised (by the
    request, by a body that is not JSON, by a body that is null), or
    'Failed to publish article. Please try again.' when that message is
    empty. *)
Theorem handleSubmit_failure (rt : Runtime) (env : Env) (st : State) (w : World)
    (u : User) (supabaseUrl supabaseKey : jsstring) :
  isAuthenticated env = true ->
  user env = Some u ->
  VITE_SUPABASE_URL env = Some supabaseUrl -> truthy supabaseUrl = true ->
  VITE_SUPABASE_ANON_KEY env = Some supabaseKey -> truthy supabaseKey = true ->
  let req := insertRequest supabaseUrl supabaseKey (newArticle env u (formData st)) in
  let st' := fst (snd (handleSubmit rt env (st, w))) in
  let w' := snd (snd (handleSubmit rt env (st, w))) in
  (firstFailure (formData st) <> None ->
     requests w' = requests w /\ formData st' = formData st) /\
  (firstFailure (formData st) = None -> failed (network env req) ->
     requests w' = requests w ++ [req] /\
     error st' = failureMessage rt (network env req) /\
     formData st' = formData st /\
     isSubmitting st' = false /\
     success st' = success st /\
     pointsAwarded w' = pointsAwarded w /\
     timers w' = timers w /\
     localStorage w' = localStorage w).
Proof.
  intros Hauth Huser Hurl Hurl' Hkey Hkey' req st' w'. subst st' w'.
  destruct supabaseUrl as [|c1 u1]; [discriminate|].
  destruct supabaseKey as [|c2 k2]; [discriminate|].
  destruct (firstFailure (formData st)) as [m|] eqn:Hv.
  - rewrite (handleSubmit_invalid rt env st w u m Hauth Huser Hv).
    split; [intros _ | intros [=]]. crunch. auto.
  - rewrite (handleSubmit_valid rt env st w u Hauth Huser Hv).
    split; [intros H; contradiction|]. intros _ Hfail.
    run_submit. rewrite Hurl, Hkey. fold req.
    unfold failureMessage.
    destruct (network env req) as [e|r] eqn:Hn; crunch.
    + repeat split; reflexivity.
    + cbn [failed] in Hfail. rewrite Hfail. crunch.
      destruct (json r) as [e|v] eqn:Hj; crunch.
      * repeat split; reflexivity.
      * destruct v; crunch; repeat split; reflexivity.
Qed.

(** C9, amended: a signed-in user submits a valid form and the backend
    acknowledges it with a 2xx response that carries a JSON body.  Then
    [addCamblissPoints] is called exactly once, with 50 points and the label
    'Published news article'.  When the user profile has a counter of
    published stories, the profile with that counter incremented by one is
    written to [localStorage] under 'cambliss-user', after the award and
    over whatever the award stored under that key; when the profile has no
    such counter the handler writes nothing to [localStorage], which is
    left as the award left it: no counter is incremented.  The success flag
    is set, and the timer that is scheduled, of 2000 ms, calls [onSuccess]
    once. *)
Theorem handleSubmit_success (rt : Runtime) (env : Env) (st : State) (w : World)
    (u : User) (supabaseUrl supabaseKey : jsstring) (r : Response) (v : Json) :
  isAuthenticated env = true ->
  user env = Some u ->
  VITE_SUPABASE_URL env = Some supabaseUrl -> truthy supabaseUrl = true ->
  VITE_SUPABASE_ANON_KEY env = Some supabaseKey -> truthy supabaseKey = true ->
  firstFailure (formData st) = None ->
  let req := insertRequest supabaseUrl supabaseKey (newArticle env u (formData st)) in
  network env req = Resolved r ->
  ok r = true ->
  json r = inr v ->
  let st' := fst (snd (handleSubmit rt env (st, w))) in
  let w' := snd (snd (handleSubmit rt env (st, w))) in
  let awarded := persistAward env 50%Z (js "Published news article") (localStorage w) in
  pointsAwarded w' = pointsAwarded w ++ [(50%Z, js "Published news article")] /\
  localStorage w' =
    match publishedStories u with
    | Some n =>
        <[js "cambliss-user" :=
            JSON_stringify_user rt
              {| fullName := fullName u; id := id u;
                 publishedStories := Some (n + 1)%Z |}]> awarded
    | None => awarded
    end /\
  success st' = true /\
  requests w' = requests w ++ [req] /\
  timers w' = timers w ++ [(AfterPublish, 2000%Z)] /\
  onSuccessCalls (snd (snd (runCallback AfterPublish (st', w')))) = S (onSuccessCalls w).
Proof.
  intros Hauth Huser Hurl Hurl' Hkey Hkey' Hv req Hn Hok Hj st' w' awarded.
  subst st' w' awarded.
  destruct supabaseUrl as [|c1 u1]; [discriminate|].
  destruct supabaseKey as [|c2 k2]; [discriminate|].
  rewrite (handleSubmit_valid rt env st w u Hauth Huser Hv).
  unfold runCallback, handleClose, onSuccess, onClose, setFormData.
  run_submit. rewrite Hurl, Hkey. fold req. rewrite Hn. crunch.
  rewrite Hok. crunch. rewrite Hj. crunch.
  destruct (publishedStories u) as [n|]; crunch; repeat split; reflexivity.
Qed.

Lemma handleSubmit_failure_witness :
  requests (snd (snd (handleSubmit Examples.Form.runtime
                        (Examples.Form.envOf Examples.Form.ann Examples.Form.refused)
                        (Examples.Form.stateOf
                           (Examples.Form.withTitle (Examples.Form.letters 9)),
                         Examples.Form.world0)))) = [] /\
  (let res := handleSubmit Examples.Form.runtime
                (Examples.Form.envOf Examples.Form.ann Examples.Form.refused)
                (Examples.Form.stateOf Examples.Form.validForm, Examples.Form.world0) in
   length (requests (snd (snd res))) = 1 /\
   error (fst (snd res)) = js "permission denied" /\
   formData (fst (snd res)) = Examples.Form.validForm).
Proof.
  split.
  - refine (proj1 (proj1 (handleSubmit_failure Examples.Form.runtime
              (Examples.Form.envOf Examples.Form.ann Examples.Form.refused)
              (Examples.Form.stateOf (Examples.Form.withTitle (Examples.Form.letters 9)))
              Examples.Form.world0 Examples.Form.ann _ _
              eq_refl eq_refl eq_refl eq_refl eq_refl eq_refl) _)).
    vm_compute. discriminate.
  - destruct (proj2 (handleSubmit_failure Examples.Form.runtime
              (Examples.Form.envOf Examples.Form.ann Examples.Form.refused)
              (Examples.Form.stateOf Examples.Form.validForm)
              Examples.Form.world0 Examples.Form.ann _ _
              eq_refl eq_refl eq_refl eq_refl eq_refl eq_refl) eq_refl eq_refl)
      as (A & B & C & _).
    cbv zeta. rewrite A, B, C. repeat split; reflexivity.
Defined.

(** C7 as stated fails: when the request throws, or when the body of a
    response that is not 2xx is not JSON, the error shown is the message of
    the exception, which is neither a message of a response body nor one of
    the two generic fallbacks. *)
Lemma exception_message_shown :
  (let res := handleSubmit Examples.Form.runtime
                (Examples.Form.envOf Examples.Form.ann Examples.Form.offline)
                (Examples.Form.stateOf Examples.Form.validForm, Examples.Form.world0) in
   error (fst (snd res)) = js "Failed to fetch" /\
   error (fst (snd res)) <> js "Failed to publish article" /\
   error (fst (snd res)) <> js "Failed to publish article. Please try again.") /\
  (let res := handleSubmit Examples.Form.runtime
                (Examples.Form.envOf Examples.Form.ann Examples.Form.badGateway)
                (Examples.Form.stateOf Examples.Form.validForm, Examples.Form.world0) in
   error (fst (snd res)) = js "Unexpected token '<'" /\
   error (fst (snd res)) <> js "Failed to publish article" /\
   error (fst (snd res)) <> js "Failed to publish article. Please try again.").
Proof. repeat split; vm_compute; congruence. Qed.

(** The message of a failure, case by case. *)
Lemma failureMessage_of_body (rt : Runtime) (r : Response)
    (fields : list (jsstring * Json)) (m : jsstring) :
  json r = inr (JObject fields) ->
  lookup_field (js "message") fields = Some (JString m) ->
  truthy m = true ->
  failureMessage rt (Resolved r) = m.
Proof.
  intros Hj Hm Ht. unfold failureMessage, message_or, or_else.
  rewrite Hj, Hm. cbn [json_truthy]. rewrite Ht, Ht. reflexivity.
Qed.

Lemma failureMessage_without_message (rt : Runtime) (r : Response)
    (fields : list (jsstring * Json)) :
  json r = inr (JObject fields) ->
  lookup_field (js "message") fields = None ->
  failureMessage rt (Resolved r) = js "Failed to publish article".
Proof.
  intros Hj Hm. unfold failureMessage, message_or. rewrite Hj, Hm. reflexivity.
Qed.

Lemma failureMessage_of_exception (rt : Runtime) (e : Exn) :
  failureMessage rt (Rejected e) =
  if truthy (message e) then message e
  else js "Failed to publish article. Please try again.".
Proof. reflexivity. Qed.

(** A body that is not JSON shows the message of the parse error. *)
Lemma failureMessage_unparsed_body (rt : Runtime) (r : Response) (e : Exn) :
  json r = inl e ->
  truthy (message e) = true ->
  failureMessage rt (Resolved r) = message e.
Proof.
  intros Hj Ht. unfold failureMessage, or_else. rewrite Hj, Ht. reflexivity.
Qed.

(** Without a signed-in user nothing is sent. *)
Lemma handleSubmit_not_logged_in (rt : Runtime) (env : Env) (st : State) (w : World) :
  isAuthenticated env = false \/ user env = None ->
  handleSubmit rt env (st, w)
  = (Normal tt, (withError (js "You must be logged in to add news") st, w)).
Proof.
  intros [H|H]; unfold handleSubmit; rewrite H; [reflexivity|].
  destruct (isAuthenticated env); reflexivity.
Qed.

(** Without the configuration of the backend the submission fails before
    any request. *)
Lemma handleSubmit_without_configuration (rt : Runtime) (env : Env) (st : State)
    (w : World) (u : User) :
  isAuthenticated env = true ->
  user env = Some u ->
  firstFailure (formData st) = None ->
  VITE_SUPABASE_URL env = None ->
  requests (snd (snd (handleSubmit rt env (st, w)))) = requests w /\
  error (fst (snd (handleSubmit rt env (st, w)))) = js "Database configuration not found".
Proof.
  intros Hauth Huser Hv Hurl.
  rewrite (handleSubmit_valid rt env st w u Hauth Huser Hv).
  run_submit. rewrite Hurl. crunch. split; reflexivity.
Qed.

(** C9 as stated fails: the backend acknowledges the article of a user
    whose profile has no counter of published stories.  The points are
    awarded and the success flag is set, and the handler writes nothing to
    [localStorage]: the store is the one that the award alone leaves, and
    the profile persisted under 'cambliss-user' is the one that the award
    stored, in which no counter of published stories was incremented. *)
Lemma acknowledged_without_counter_increment :
  let env := Examples.Form.envOf Examples.Form.guest Examples.Form.created in
  let res := handleSubmit Examples.Form.runtime env
               (Examples.Form.stateOf Examples.Form.validForm, Examples.Form.world0) in
  publishedStories Examples.Form.guest = None /\
  success (fst (snd res)) = true /\
  pointsAwarded (snd (snd res)) = [(50%Z, js "Published news article")] /\
  localStorage (snd (snd res))
  = persistAward env 50%Z (js "Published news article")
      (localStorage Examples.Form.world0) /\
  localStorage (snd (snd res)) !! js "cambliss-user"
  = Some (Examples.Form.profileWithPoints Examples.Form.guest 50).
Proof. repeat split; vm_compute; reflexivity. Qed.

Lemma handleSubmit_success_witness :
  let res := handleSubmit Examples.Form.runtime
               (Examples.Form.envOf Examples.Form.ann Examples.Form.created)
               (Examples.Form.stateOf Examples.Form.validForm, Examples.Form.world0) in
  pointsAwarded (snd (snd res)) = [(50%Z, js "Published news article")] /\
  localStorage (snd (snd res)) !! js "cambliss-user"
  = Some (Examples.Form.stringifyUser
            {| fullName := js "Ann Rao"; id := js "user_1"; publishedStories := Some 4%Z |}) /\
  success (fst (snd res)) = true /\
  length (requests (snd (snd res))) = 1 /\
  timers (snd (snd res)) = [(AfterPublish, 2000%Z)] /\
  onSuccessCalls (snd (snd (runCallback AfterPublish (fst (snd res), snd (snd res))))) = 1.
Proof.
  destruct (handleSubmit_success Examples.Form.runtime
              (Examples.Form.envOf Examples.Form.ann Examples.Form.created)
              (Examples.Form.stateOf Examples.Form.validForm)
              Examples.Form.world0 Examples.Form.ann _ _ _ _
              eq_refl eq_refl eq_refl eq_refl eq_refl eq_refl eq_refl
              eq_refl eq_refl eq_refl)
    as (A & B & C & D & E & F).
  cbv zeta. rewrite A, B, C, D, E, F.
  repeat split; reflexivity.
Defined.

(** Spaces and one letter: trimming leaves the letter. *)
Lemma padded_trim (n : nat) :
  trim (Examples.Form.padded n) = js "X" /\ length (Examples.Form.padded n) = S n.
Proof.
  unfold Examples.Form.padded. split.
  - unfold trim.
    assert (E : trimStart (repeat 32%N n ++ js "X") = js "X")
      by (induction n as [|n IH]; [reflexivity | exact IH]).
    rewrite E. reflexivity.
  - rewrite length_app, repeat_length. cbn. lia.
Qed.

Lemma padded_title_accepted (n : nat) :
  fst (validateForm (Examples.Form.stateOf (Examples.Form.withTitle (Examples.Form.padded n)),
                     Examples.Form.world0)) = Normal true <-> 10 <= S n.
Proof.
  rewrite validateForm_accepts. cbn [formData Examples.Form.stateOf]. unfold firstFailure.
  replace (summaryCheck (Examples.Form.withTitle (Examples.Form.padded n)))
    with (@None jsstring) by (vm_compute; reflexivity).
  replace (contentCheck (Examples.Form.withTitle (Examples.Form.padded n)))
    with (@None jsstring) by (vm_compute; reflexivity).
  replace (imageUrlCheck (Examples.Form.withTitle (Examples.Form.padded n)))
    with (@None jsstring) by (vm_compute; reflexivity).
  unfold titleCheck. cbn [Examples.Form.withTitle FormData.title].
  destruct (padded_trim n) as [-> ->]. change (truthy (js "X")) with true. cbn [negb].
  destruct (Nat.leb_spec 10 (S n)); split; intros; try discriminate; try reflexivity; lia.
Qed.

Lemma padded_summary_accepted (n : nat) :
  fst (validateForm (Examples.Form.stateOf
                       (Examples.Form.withSummary (Examples.Form.padded n)),
                     Examples.Form.world0)) = Normal true <-> 20 <= S n.
Proof.
  rewrite validateForm_accepts. cbn [formData Examples.Form.stateOf]. unfold firstFailure.
  replace (titleCheck (Examples.Form.withSummary (Examples.Form.padded n)))
    with (@None jsstring) by (vm_compute; reflexivity).
  replace (contentCheck (Examples.Form.withSummary (Examples.Form.padded n)))
    with (@None jsstring) by (vm_compute; reflexivity).
  replace (imageUrlCheck (Examples.Form.withSummary (Examples.Form.padded n)))
    with (@None jsstring) by (vm_compute; reflexivity).
  unfold summaryCheck. cbn [Examples.Form.withSummary FormData.summary].
  destruct (padded_trim n) as [-> ->]. change (truthy (js "X")) with true. cbn [negb].
  destruct (Nat.leb_spec 20 (S n)); split; intros; try discriminate; try reflexivity; lia.
Qed.

Lemma padded_content_accepted (n : nat) :
  fst (validateForm (Examples.Form.stateOf
                       (Examples.Form.withContent (Examples.Form.padded n)),
                     Examples.Form.world0)) = Normal true <-> 100 <= S n.
Proof.
  rewrite validateForm_accepts. cbn [formData Examples.Form.stateOf]. unfold firstFailure.
  replace (titleCheck (Examples.Form.withContent (Examples.Form.padded n)))
    with (@None jsstring) by (vm_compute; reflexivity).
  replace (summaryCheck (Examples.Form.withContent (Examples.Form.padded n)))
    with (@None jsstring) by (vm_compute; reflexivity).
  replace (imageUrlCheck (Examples.Form.withContent (Examples.Form.padded n)))
    with (@None jsstring) by (vm_compute; reflexivity).
  unfold contentCheck. cbn [Examples.Form.withContent FormData.content].
  destruct (padded_trim n) as [-> ->]. change (truthy (js "X")) with true. cbn [negb].
  destruct (Nat.leb_spec 100 (S n)); split; intros; try discriminate; try reflexivity; lia.
Qed.

(** The request of an accepted form, whatever the backend answers. *)
Lemma accepted_form_is_sent (rt : Runtime) (env : Env) (st : State) (w : World) (u : User)
    (supabaseUrl supabaseKey : jsstring) :
  isAuthenticated env = true ->
  user env = Some u ->
  VITE_SUPABASE_URL env = Some supabaseUrl -> truthy supabaseUrl = true ->
  VITE_SUPABASE_ANON_KEY env = Some supabaseKey -> truthy supabaseKey = true ->
  firstFailure (formData st) = None ->
  requests (snd (snd (handleSubmit rt env (st, w)))) =
  requests w ++ [insertRequest supabaseUrl supabaseKey (newArticle env u (formData st))].
Proof.
  intros Hauth Huser Hurl Hurl' Hkey Hkey' Hv.
  destruct supabaseUrl as [|c1 u1]; [discriminate|].
  destruct supabaseKey as [|c2 k2]; [discriminate|].
  rewrite (handleSubmit_valid rt env st w u Hauth Huser Hv).
  run_submit. rewrite Hurl, Hkey.
  match goal with |- context [network env ?q] => destruct (network env q) as [e|r] end;
    crunch; auto.
  destruct (ok r); crunch.
  - destruct (json r) as [e|v]; crunch; auto.
    destruct (publishedStories u); crunch; auto.
  - destruct (json r) as [e|v]; crunch; auto.
    destruct v; crunch; auto.
Qed.

(** C10: the length checks of validation measure the fields as typed, and
    the article sent carries the trimmed fields.  Validation accepts a form
    exactly when the title, the summary and the content are not blank and
    have, as typed, at least 10, 20 and 100 characters (and the image URL
    has its shape); so a title of [n] spaces and one letter, in a form that
    is valid otherwise, is accepted exactly when its length as typed,
    [n + 1], is at least 10, although trimming leaves one character of it,
    and likewise a summary from 20 and a content from 100.  The request of
    an accepted form carries the trimmed title, summary and content.  Hence
    nine spaces and one letter, of length 10, pass validation and the
    article sent has a title of one character, below the minimum of 10,
    while eight spaces and one letter are rejected as too short; the same
    for a summary of 19 spaces and one letter and a content of 99 spaces
    and one letter. *)
Theorem validation_measures_untrimmed_values :
  (forall (st : State) (w : World),
      fst (validateForm (st, w)) = Normal true <->
      (NotBlank (FormData.title (formData st)) /\
       10 <= length (FormData.title (formData st))) /\
      (NotBlank (FormData.summary (formData st)) /\
       20 <= length (FormData.summary (formData st))) /\
      (NotBlank (FormData.content (formData st)) /\
       100 <= length (FormData.content (formData st))) /\
      ImageUrlShape (FormData.imageUrl (formData st))) /\
  (forall n : nat,
      trim (Examples.Form.padded n) = js "X" /\
      length (Examples.Form.padded n) = S n /\
      (fst (validateForm
              (Examples.Form.stateOf (Examples.Form.withTitle (Examples.Form.padded n)),
               Examples.Form.world0)) = Normal true <-> 10 <= S n) /\
      (fst (validateForm
              (Examples.Form.stateOf (Examples.Form.withSummary (Examples.Form.padded n)),
               Examples.Form.world0)) = Normal true <-> 20 <= S n) /\
      (fst (validateForm
              (Examples.Form.stateOf (Examples.Form.withContent (Examples.Form.padded n)),
               Examples.Form.world0)) = Normal true <-> 100 <= S n)) /\
  (forall (rt : Runtime) (env : Env) (st : State) (w : World) (u : User)
          (supabaseUrl supabaseKey : jsstring),
      isAuthenticated env = true ->
      user env = Some u ->
      VITE_SUPABASE_URL env = Some supabaseUrl -> truthy supabaseUrl = true ->
      VITE_SUPABASE_ANON_KEY env = Some supabaseKey -> truthy supabaseKey = true ->
      fst (validateForm (st, w)) = Normal true ->
      exists req : Request,
        requests (snd (snd (handleSubmit rt env (st, w)))) = requests w ++ [req] /\
        Article.title (body req) = trim (FormData.title (formData st)) /\
        Article.summary (body req) = trim (FormData.summary (formData st)) /\
        Article.content (body req) = trim (FormData.content (formData st))) /\
  (let formData := Examples.Form.withTitle (Examples.Form.padded 9) in
   let res := handleSubmit Examples.Form.runtime
                (Examples.Form.envOf Examples.Form.ann Examples.Form.created)
                (Examples.Form.stateOf formData, Examples.Form.world0) in
   length (FormData.title formData) = 10 /\
   fst (validateForm (Examples.Form.stateOf formData, Examples.Form.world0)) = Normal true /\
   map (fun req => Article.title (body req)) (requests (snd (snd res))) = [js "X"] /\
   success (fst (snd res)) = true) /\
  (let formData := Examples.Form.withSummary (Examples.Form.padded 19) in
   let res := handleSubmit Examples.Form.runtime
                (Examples.Form.envOf Examples.Form.ann Examples.Form.created)
                (Examples.Form.stateOf formData, Examples.Form.world0) in
   length (FormData.summary formData) = 20 /\
   fst (validateForm (Examples.Form.stateOf formData, Examples.Form.world0)) = Normal true /\
   map (fun req => Article.summary (body req)) (requests (snd (snd res))) = [js "X"] /\
   success (fst (snd res)) = true) /\
  (let formData := Examples.Form.withContent (Examples.Form.padded 99) in
   let res := handleSubmit Examples.Form.runtime
                (Examples.Form.envOf Examples.Form.ann Examples.Form.created)
                (Examples.Form.stateOf formData, Examples.Form.world0) in
   length (FormData.content formData) = 100 /\
   fst (validateForm (Examples.Form.stateOf formData, Examples.Form.world0)) = Normal true /\
   map (fun req => Article.content (body req)) (requests (snd (snd res))) = [js "X"] /\
   success (fst (snd res)) = true) /\
  (let formData := Examples.Form.withTitle (Examples.Form.padded 8) in
   let res := handleSubmit Examples.Form.runtime
                (Examples.Form.envOf Examples.Form.ann Examples.Form.created)
                (Examples.Form.stateOf formData, Examples.Form.world0) in
   length (FormData.title formData) = 9 /\
   fst (validateForm (Examples.Form.stateOf formData, Examples.Form.world0)) = Normal false /\
   error (fst (snd res)) = js "Title must be at least 10 characters" /\
   requests (snd (snd res)) = []).
Proof.
  split; [|split; [|split]].
  - intros st w. rewrite validateForm_accepts_iff. split.
    + intros P. destruct (P OnTitle), (P OnSummary), (P OnContent), (P OnImageUrl) as [_ I].
      auto.
    + intros (T & S & C & I) c. destruct c; try assumption.
      split; [|exact I]. apply NotBlank_iff, matchesImageUrl_not_blank, matchesImageUrl_iff, I.
  - intros n. destruct (padded_trim n) as [A B].
    split; [exact A|]. split; [exact B|].
    split; [apply padded_title_accepted|].
    split; [apply padded_summary_accepted | apply padded_content_accepted].
  - intros rt env st w u supabaseUrl supabaseKey Hauth Huser Hurl Hurl' Hkey Hkey' Hacc.
    apply validateForm_accepts in Hacc.
    exists (insertRequest supabaseUrl supabaseKey (newArticle env u (formData st))).
    split; [|repeat split; reflexivity].
    exact (accepted_form_is_sent rt env st w u _ _ Hauth Huser Hurl Hurl' Hkey Hkey' Hacc).
  - cbv zeta. repeat split; vm_compute; reflexivity.
Qed.

End AddNewsModalFacts.

(** ** MiniPlayer *)

Module MiniPlayerFacts.
Import MiniPlayer MiniPlayerSession.
Local Open Scope float_scope.

Lemma handleTimeUpdate_premium (st : State) :
  audioPaused (handleTimeUpdate true st) = audioPaused st /\
  showUpgradePrompt (handleTimeUpdate true st) = showUpgradePrompt st /\
  isPlaying (handleTimeUpdate true st) = isPlaying st /\
  listeners (handleTimeUpdate true st) = listeners st.
Proof.
  unfold handleTimeUpdate, audioPaused, listeners.
  destruct (audioRef st) as [a|] eqn:E; simpl; rewrite ?E; auto.
Qed.

Lemma run_premium_listeners (ls : list Listener) (st : State) :
  Forall (fun l => captured_isPremium l = true) ls ->
  let st' := fold_left (fun st l => handleTimeUpdate (captured_isPremium l) st) ls st in
  audioPaused st' = audioPaused st /\
  showUpgradePrompt st' = showUpgradePrompt st /\
  isPlaying st' = isPlaying st /\
  listeners st' = listeners st.
Proof.
  intros H. revert st. induction H as [|l ls Hl _ IH]; intros st; simpl.
  - auto.
  - rewrite Hl.
    destruct (IH (handleTimeUpdate true st)) as (A & B & C & D).
    destruct (handleTimeUpdate_premium st) as (A' & B' & C' & D').
    unfold listeners in *.
    rewrite A, B, C, D. auto.
Qed.

Lemma timeupdateEvent_premium (time : float) (st : State) :
  Forall (fun l => captured_isPremium l = true) (listeners st) ->
  audioPaused (timeupdateEvent time st) = audioPaused st /\
  showUpgradePrompt (timeupdateEvent time st) = showUpgradePrompt st /\
  isPlaying (timeupdateEvent time st) = isPlaying st /\
  listeners (timeupdateEvent time st) = listeners st.
Proof.
  intros H. unfold timeupdateEvent.
  set (st1 := withAudio (Audio.set_currentTime time) st).
  assert (E : listeners st1 = listeners st)
    by (unfold st1, listeners, withAudio; simpl; destruct (audioRef st); reflexivity).
  assert (P : audioPaused st1 = audioPaused st)
    by (unfold st1, audioPaused, withAudio; simpl; destruct (audioRef st); reflexivity).
  fold (listeners st1).
  destruct (run_premium_listeners (listeners st1) st1) as (A & B & C & D).
  { rewrite E. exact H. }
  rewrite A, B, C, D, E, P. auto.
Qed.

(** The effect of a premium render that creates the audio element registers
    a listener that captured [isPremium] true, and no other. *)
Lemma episodeEffect_premium_listeners (r : Render) (st : State) :
  isPremium r = true ->
  audioRef st = None ->
  Forall (fun l => captured_isPremium l = true) (listeners (episodeEffect r st)).
Proof.
  intros Hp Ha. unfold episodeEffect, listeners.
  destruct (episode r) as [ep|]; cbn; rewrite Ha; cbn.
  - repeat constructor. exact Hp.
  - constructor.
Qed.

(** With [isPremium] true the handler leaves the paused flag of the audio,
    the upgrade prompt and [isPlaying] as they are at every position; the
    effect of a premium render that creates the audio element registers
    only listeners with [isPremium] true; and in a session with such
    listeners every sequence of time updates, whatever the positions,
    leaves the three as they are. *)
Lemma premium_listeners_never_trigger :
  (forall st : State,
      audioPaused (handleTimeUpdate true st) = audioPaused st /\
      showUpgradePrompt (handleTimeUpdate true st) = showUpgradePrompt st /\
      isPlaying (handleTimeUpdate true st) = isPlaying st) /\
  (forall (r : Render) (st : State),
      isPremium r = true ->
      audioRef st = None ->
      Forall (fun l => captured_isPremium l = true) (listeners (episodeEffect r st))) /\
  (forall (times : list float) (st : State),
      Forall (fun l => captured_isPremium l = true) (listeners st) ->
      let st' := fold_left (fun st time => timeupdateEvent time st) times st in
      audioPaused st' = audioPaused st /\
      showUpgradePrompt st' = showUpgradePrompt st /\
      isPlaying st' = isPlaying st).
Proof.
  split; [|split].
  - intros st. destruct (handleTimeUpdate_premium st) as (A & B & C & _). auto.
  - exact episodeEffect_premium_listeners.
  - intros times. induction times as [|t times IH]; intros st H; simpl.
    + auto.
    + destruct (timeupdateEvent_premium t st H) as (A & B & C & D).
      destruct (IH (timeupdateEvent t st)) as (A' & B' & C').
      { rewrite D. exact H. }
      rewrite A', B', C'. auto.
Qed.

(** A session that a premium render has started, played through three
    reports that end past the limit: the audio still plays and no prompt
    shows. *)
Lemma premium_session_plays_on :
  let st' := fold_left (fun st time => timeupdateEvent time st) [59.5; 60; 754]
               Examples.Player.premiumSession in
  audioPaused st' = Some false /\ showUpgradePrompt st' = false /\ isPlaying st' = true.
Proof. repeat split; reflexivity. Qed.

(** C2 fails on the code.  An episode is selected while the user is not
    premium: the effect creates the audio element and registers the
    [handleTimeUpdate] of that render, whose closure holds [isPremium]
    false.  While the episode plays the user becomes premium: [usePremium]
    resolves to true and the player renders again with [isPremium] true.
    The episode is the same, so the effect, which depends on [episode]
    alone, does not run again and the listener of the first render stays.
    In this session, whose [isPremium] is true, the report of position 60
    pauses the audio, sets [isPlaying] to false and sets the upgrade prompt.
    The play button, which tests the [isPremium] of the current render,
    resumes the audio, and the next report pauses it again. *)
Theorem stale_listener_limits_premium_session :
  let r := Examples.Player.upgradedRender in
  let st0 := Examples.Player.freeSession in
  let st1 := handlePlayerEvent r st0 (TimeUpdate 60) in
  let st2 := handlePlayerEvent r st1 Toggle in
  let st3 := handlePlayerEvent r st2 (TimeUpdate 60.25) in
  (isPremium r = true /\ episode r = episode Examples.Player.freeRender) /\
  (audioPaused st0 = Some false /\ showUpgradePrompt st0 = false /\ isPlaying st0 = true) /\
  (audioPaused st1 = Some true /\ showUpgradePrompt st1 = true /\ isPlaying st1 = false) /\
  (audioPaused st2 = Some false /\ isPlaying st2 = true) /\
  (audioPaused st3 = Some true /\ isPlaying st3 = false).
Proof. cbv zeta. repeat split; reflexivity. Qed.

(** C1 as stated fails: in a non-premium session the browser reports the
    position 60.25, the first report past the limit, and the stored
    position is 60.25, above 60. *)
Lemma position_exceeds_free_limit :
  let st' := timeupdateEvent 60.25 Examples.Player.freeSession in
  currentTime st' = 60.25 /\ (FREE_LIMIT <? currentTime st') = true.
Proof. split; reflexivity. Qed.

(** C1, amended: whenever [handleTimeUpdate] runs with [isPremium] false
    and the audio reports a position at or past 60 seconds, the audio is
    paused, [isPlaying] becomes false and the upgrade prompt is set; the
    stored position is the reported position, unclamped. *)
Theorem handleTimeUpdate_free_limit (st : State) (audio : Audio) :
  audioRef st = Some audio ->
  (FREE_LIMIT <=? Audio.currentTime audio) = true ->
  let st' := handleTimeUpdate false st in
  audioPaused st' = Some true /\
  isPlaying st' = false /\
  showUpgradePrompt st' = true /\
  currentTime st' = Audio.currentTime audio.
Proof.
  intros Ha Ht. unfold handleTimeUpdate, audioPaused. rewrite Ha. simpl.
  rewrite Ht. simpl. rewrite Ha. simpl. auto.
Qed.

Lemma handleTimeUpdate_free_limit_witness :
  let st := withAudio (Audio.set_currentTime 60.25) Examples.Player.freeSession in
  let st' := handleTimeUpdate false st in
  audioPaused st' = Some true /\
  isPlaying st' = false /\
  showUpgradePrompt st' = true /\
  currentTime st' = 60.25.
Proof.
  refine (handleTimeUpdate_free_limit
            (withAudio (Audio.set_currentTime 60.25) Examples.Player.freeSession)
            _ eq_refl eq_refl).
Defined.

(** The same for the event: in a session whose listener was created with
    [isPremium] false, a report at or past the limit pauses the audio and
    shows the prompt, and the position stored is the one reported.  The
    listener tests the [isPremium] that it captured: the effect runs again
    only when the episode changes, so a change of the premium status during
    an episode does not reach it. *)
Lemma timeupdateEvent_free_limit (time : float) (st : State) (audio : Audio)
    (l : Listener) :
  audioRef st = Some audio ->
  Audio.timeupdate audio = [l] ->
  captured_isPremium l = false ->
  (FREE_LIMIT <=? time) = true ->
  audioPaused (timeupdateEvent time st) = Some true /\
  isPlaying (timeupdateEvent time st) = false /\
  showUpgradePrompt (timeupdateEvent time st) = true /\
  currentTime (timeupdateEvent time st) = time.
Proof.
  intros Ha Hl Hp Ht.
  unfold timeupdateEvent, handleTimeUpdate, audioPaused, withAudio.
  rewrite Ha. cbn -[FREE_LIMIT]. rewrite Hl. cbn -[FREE_LIMIT].
  rewrite Hp, Ht. cbn. auto.
Qed.

(** Below the limit, or without an audio element, the handler only stores
    the position. *)
Lemma handleTimeUpdate_below_limit (p : bool) (st : State) (audio : Audio) :
  audioRef st = Some audio ->
  (FREE_LIMIT <=? Audio.currentTime audio) = false ->
  handleTimeUpdate p st = setCurrentTime (Audio.currentTime audio) st.
Proof.
  intros Ha Ht. unfold handleTimeUpdate. rewrite Ha, Ht, andb_false_r. reflexivity.
Qed.

(** The listeners are added only when the audio element is created, and
    removed by every cleanup: once a second episode is selected, no
    listener is left, and a report past the limit neither pauses a
    non-premium session nor reaches the stored position. *)
Lemma second_episode_has_no_listener :
  let st2 := episodeEffect Examples.Player.secondFreeRender
               (episodeCleanup Examples.Player.freeRender Examples.Player.freeSession) in
  listeners st2 = [] /\
  audioPaused (timeupdateEvent 75 st2) = Some false /\
  showUpgradePrompt (timeupdateEvent 75 st2) = false /\
  currentTime (timeupdateEvent 75 st2) = 0.
Proof. repeat split; reflexivity. Qed.

(** C5: a click on the progress bar at a fraction in [0,1], with an episode
    and an audio element: for a premium render the new position, of the
    state and of the audio, is the fraction times the duration of the
    episode; for a non-premium render whose position is below the limit it
    is the fraction times 60; and for a non-premium render whose position
    is at or past the limit the click changes nothing. *)
Theorem handleProgressClick_position (r : Render) (ep : Episode) (e : MouseEvent)
    (st : State) (audio : Audio) :
  audioRef st = Some audio ->
  episode r = Some ep ->
  (0 <=? percentage e) = true ->
  (percentage e <=? 1) = true ->
  let st' := handleProgressClick r e st in
  (isPremium r = true ->
     currentTime st' = percentage e * duration ep /\
     Audio.currentTime <$> audioRef st' = Some (percentage e * duration ep)) /\
  (isPremium r = false -> (FREE_LIMIT <=? currentTime st) = false ->
     currentTime st' = percentage e * 60 /\
     Audio.currentTime <$> audioRef st' = Some (percentage e * 60)) /\
  (isPremium r = false -> (FREE_LIMIT <=? currentTime st) = true -> st' = st).
Proof.
  intros Ha He _ _ st'. subst st'. unfold handleProgressClick. rewrite Ha, He.
  split; [|split].
  - intros Hp. rewrite Hp. simpl. rewrite Ha. split; reflexivity.
  - intros Hp Hl. rewrite Hp, Hl. simpl. rewrite Ha. split; reflexivity.
  - intros Hp Hl. rewrite Hp, Hl. reflexivity.
Qed.

(** The fraction 0.5 on the episode of 754 seconds: position 30 in a
    non-premium session and 377 in a premium one. *)
Lemma handleProgressClick_position_witness :
  percentage Examples.Player.halfClick = 0.5 /\
  currentTime (handleProgressClick Examples.Player.freeRender Examples.Player.halfClick
                 Examples.Player.freeSession) = 30 /\
  currentTime (handleProgressClick Examples.Player.premiumRender Examples.Player.halfClick
                 Examples.Player.premiumSession) = 377 /\
  handleProgressClick Examples.Player.freeRender Examples.Player.halfClick
    (setCurrentTime 60.25 Examples.Player.freeSession)
  = setCurrentTime 60.25 Examples.Player.freeSession.
Proof.
  split; [reflexivity|].
  split; [|split].
  - exact (proj1 (proj1 (proj2
      (handleProgressClick_position Examples.Player.freeRender Examples.Player.episode754
         Examples.Player.halfClick Examples.Player.freeSession _
         eq_refl eq_refl eq_refl eq_refl)) eq_refl eq_refl)).
  - exact (proj1 (proj1
      (handleProgressClick_position Examples.Player.premiumRender Examples.Player.episode754
         Examples.Player.halfClick Examples.Player.premiumSession _
         eq_refl eq_refl eq_refl eq_refl) eq_refl)).
  - exact (proj2 (proj2
      (handleProgressClick_position Examples.Player.freeRender Examples.Player.episode754
         Examples.Player.halfClick (setCurrentTime 60.25 Examples.Player.freeSession) _
         eq_refl eq_refl eq_refl eq_refl)) eq_refl eq_refl).
Defined.

End MiniPlayerFacts.

(** ** JavaScript strings: trimming *)

Module JsStringMore.
Import JsString JsStringFacts.

Lemma trimStart_app_not_ws (u : jsstring) (x : N) (v : jsstring) :
  isWhiteSpace x = false -> trimStart (u ++ x :: v) = trimStart u ++ x :: v.
Proof.
  intros Hx. induction u as [|c u IH]; simpl.
  - rewrite Hx. reflexivity.
  - destruct (isWhiteSpace c); [exact IH | reflexivity].
Qed.

Lemma trimEnd_app_not_ws (a : jsstring) (x : N) (b : jsstring) :
  isWhiteSpace x = false -> trimEnd (a ++ x :: b) = a ++ x :: trimEnd b.
Proof.
  intros Hx. unfold trimEnd.
  rewrite rev_app_distr. simpl. rewrite <- app_assoc. simpl.
  rewrite (trimStart_app_not_ws _ _ _ Hx), rev_app_distr. simpl.
  rewrite rev_involutive, <- app_assoc. reflexivity.
Qed.

(** A trimmed text is empty, or starts and ends with a character that is not
    white space. *)
Lemma trim_shape (s : jsstring) :
  trim s = [] \/
  exists c r u x, trim s = c :: r /\ trim s = u ++ [x] /\
                  isWhiteSpace c = false /\ isWhiteSpace x = false.
Proof.
  destruct (trim s) as [|c r] eqn:E; [left; reflexivity | right].
  assert (Hc : isWhiteSpace c = false).
  { unfold trim in E. destruct (trimEnd_decompose (trimStart s)) as (w & Hw & _).
    rewrite E in Hw. simpl in Hw. exact (trimStart_head _ _ _ Hw). }
  destruct (trimEnd_last (trimStart s)) as [H|(u & x & Hu & Hx)].
  - unfold trim in E. congruence.
  - exists c, r, u, x. unfold trim in E. rewrite E in Hu. auto.
Qed.

Lemma trim_fixed (t : jsstring) (c : N) (r u : jsstring) (x : N) :
  t = c :: r -> t = u ++ [x] -> isWhiteSpace c = false -> isWhiteSpace x = false ->
  trim t = t.
Proof.
  intros Hc Hu Wc Wx. unfold trim.
  assert (E : trimStart t = t) by (rewrite Hc; simpl; rewrite Wc; reflexivity).
  rewrite E, Hu. rewrite (trimEnd_app_not_ws u x [] Wx). reflexivity.
Qed.

Lemma trim_idempotent (s : jsstring) : trim (trim s) = trim s.
Proof.
  destruct (trim_shape s) as [E|(c & r & u & x & Hc & Hu & Wc & Wx)].
  - rewrite E. reflexivity.
  - exact (trim_fixed _ c r u x Hc Hu Wc Wx).
Qed.

(** Trimming a text that starts with a character that is not white space
    removes only from its end. *)
Lemma trim_keeps_prefix (c x : N) (q rest : jsstring) :
  isWhiteSpace c = false -> isWhiteSpace x = false ->
  trim ((c :: q) ++ x :: rest) = (c :: q) ++ x :: trimEnd rest.
Proof.
  intros Wc Wx. unfold trim. simpl. rewrite Wc.
  change (c :: q ++ x :: rest) with ((c :: q) ++ x :: rest).
  rewrite (trimEnd_app_not_ws _ _ _ Wx). reflexivity.
Qed.

End JsStringMore.

(** ** AddNewsModal: the handler, the article and the form *)

Module AddNewsModalMore.
Import JsString Regex RegexFacts JsStringFacts JsStringMore AddNewsModal AddNewsModalFacts.
Import AddNewsModalForm UserArticles.

(** X1: [handleSubmit] never throws: whatever the network and the body
    of the response do, it completes normally.  It never changes the fields
    of the form, and once it is past its guards (a signed-in user, a valid
    form) it ends with [isSubmitting] false; before them it leaves the flag
    as it was. *)
Theorem handleSubmit_never_throws (rt : Runtime) (env : Env) (st : State) (w : World) :
  fst (handleSubmit rt env (st, w)) = Normal tt /\
  formData (fst (snd (handleSubmit rt env (st, w)))) = formData st /\
  isSubmitting (fst (snd (handleSubmit rt env (st, w)))) =
    match isAuthenticated env, user env, firstFailure (formData st) with
    | true, Some _, None => false
    | _, _, _ => isSubmitting st
    end.
Proof.
  destruct (isAuthenticated env) eqn:Hauth.
  2:{ rewrite (handleSubmit_not_logged_in rt env st w (or_introl Hauth)). auto. }
  destruct (user env) as [u|] eqn:Huser.
  2:{ rewrite (handleSubmit_not_logged_in rt env st w (or_intror Huser)). auto. }
  destruct (firstFailure (formData st)) as [m|] eqn:Hv.
  { rewrite (handleSubmit_invalid rt env st w u m Hauth Huser Hv). auto. }
  rewrite (handleSubmit_valid rt env st w u Hauth Huser Hv).
  run_submit.
  destruct (VITE_SUPABASE_URL env) as [[|c1 u1]|]; crunch; auto.
  destruct (VITE_SUPABASE_ANON_KEY env) as [[|c2 k2]|]; crunch; auto.
  match goal with |- context [network env ?q] => destruct (network env q) as [e|r] end;
    crunch; auto.
  destruct (ok r); crunch.
  - destruct (json r) as [e|v]; crunch; auto.
    destruct (publishedStories u); crunch; auto.
  - destruct (json r) as [e|v]; crunch; auto.
    destruct v; crunch; auto.
Qed.


(** X2: one call of [handleSubmit] sends no request or exactly one; it
    sends one only for a signed-in user, a valid form and a configured
    backend, and that request carries the article built from the form. *)
Theorem handleSubmit_sends_at_most_one_request (rt : Runtime) (env : Env) (st : State)
    (w : World) :
  requests (snd (snd (handleSubmit rt env (st, w)))) = requests w \/
  exists u supabaseUrl supabaseKey,
    isAuthenticated env = true /\ user env = Some u /\
    firstFailure (formData st) = None /\
    VITE_SUPABASE_URL env = Some supabaseUrl /\ truthy supabaseUrl = true /\
    VITE_SUPABASE_ANON_KEY env = Some supabaseKey /\ truthy supabaseKey = true /\
    requests (snd (snd (handleSubmit rt env (st, w)))) =
      requests w ++ [insertRequest supabaseUrl supabaseKey (newArticle env u (formData st))].
Proof.
  destruct (isAuthenticated env) eqn:Hauth.
  2:{ rewrite (handleSubmit_not_logged_in rt env st w (or_introl Hauth)). auto. }
  destruct (user env) as [u|] eqn:Huser.
  2:{ rewrite (handleSubmit_not_logged_in rt env st w (or_intror Huser)). auto. }
  destruct (firstFailure (formData st)) as [m|] eqn:Hv.
  { rewrite (handleSubmit_invalid rt env st w u m Hauth Huser Hv). auto. }
  rewrite (handleSubmit_valid rt env st w u Hauth Huser Hv).
  run_submit.
  destruct (VITE_SUPABASE_URL env) as [[|c1 u1]|] eqn:Hurl; crunch; auto.
  destruct (VITE_SUPABASE_ANON_KEY env) as [[|c2 k2]|] eqn:Hkey; crunch; auto.
  right. exists u, (c1 :: u1), (c2 :: k2).
  repeat (split; [reflexivity|]).
  match goal with |- context [network env ?q] => destruct (network env q) as [e|r] end;
    crunch; auto.
  destruct (ok r); crunch.
  - destruct (json r) as [e|v]; crunch; auto.
    destruct (publishedStories u); crunch; auto.
  - destruct (json r) as [e|v]; crunch; auto.
    destruct v; crunch; auto.
Qed.

(** X3: when the URL or the key of the backend is undefined or empty, a
    valid submission shows 'Database configuration not found', logs that
    error to the console, sends no request, awards, persists and schedules
    nothing, keeps the form and ends with [isSubmitting] false. *)
Theorem handleSubmit_unconfigured (rt : Runtime) (env : Env) (st : State) (w : World)
    (u : User) :
  isAuthenticated env = true ->
  user env = Some u ->
  firstFailure (formData st) = None ->
  from_option truthy false (VITE_SUPABASE_URL env) = false \/
  from_option truthy false (VITE_SUPABASE_ANON_KEY env) = false ->
  let st' := fst (snd (handleSubmit rt env (st, w))) in
  let w' := snd (snd (handleSubmit rt env (st, w))) in
  error st' = js "Database configuration not found" /\
  requests w' = requests w /\
  pointsAwarded w' = pointsAwarded w /\
  localStorage w' = localStorage w /\
  timers w' = timers w /\
  isSubmitting st' = false /\
  success st' = success st /\
  formData st' = formData st /\
  console w' = console w ++ [new_Error (js "Database configuration not found")].
Proof.
  intros Hauth Huser Hv Hc st' w'. subst st' w'.
  rewrite (handleSubmit_valid rt env st w u Hauth Huser Hv).
  run_submit.
  destruct (VITE_SUPABASE_URL env) as [[|c1 u1]|]; crunch;
    try (repeat split; reflexivity).
  destruct (VITE_SUPABASE_ANON_KEY env) as [[|c2 k2]|]; crunch;
    try (repeat split; reflexivity).
  destruct Hc as [Hc|Hc]; discriminate.
Qed.

Lemma handleSubmit_unconfigured_witness :
  let env := {| isAuthenticated := true; user := Some Examples.Form.ann;
                persistAward := Examples.Form.awardTo Examples.Form.ann;
                currentLanguage := js "en";
                VITE_SUPABASE_URL := Some (js "https://db.example.com");
                VITE_SUPABASE_ANON_KEY := Some (js "");
                now_toISOString := js "2025-11-06T10:07:01.000Z";
                network := fun _ => Examples.Form.created |} in
  let res := handleSubmit Examples.Form.runtime env
               (Examples.Form.stateOf Examples.Form.validForm, Examples.Form.world0) in
  error (fst (snd res)) = js "Database configuration not found" /\
  requests (snd (snd res)) = [].
Proof.
  cbv zeta.
  destruct (handleSubmit_unconfigured Examples.Form.runtime
              {| isAuthenticated := true; user := Some Examples.Form.ann;
                 persistAward := Examples.Form.awardTo Examples.Form.ann;
                 currentLanguage := js "en";
                 VITE_SUPABASE_URL := Some (js "https://db.example.com");
                 VITE_SUPABASE_ANON_KEY := Some (js "");
                 now_toISOString := js "2025-11-06T10:07:01.000Z";
                 network := fun _ => Examples.Form.created |}
              (Examples.Form.stateOf Examples.Form.validForm) Examples.Form.world0
              Examples.Form.ann eq_refl eq_refl eq_refl (or_intror eq_refl))
    as (A & B & _).
  split; [exact A | exact B].
Defined.

(** *** The article that is sent *)

Lemma canonicalize_cases (c x : N) :
  canonicalize x = c -> x = c \/ x = (c + 32)%N.
Proof.
  unfold canonicalize.
  destruct (97 <=? x)%N eqn:E1; destruct (x <=? 122)%N eqn:E2; simpl; auto.
  apply N.leb_le in E1. intros <-. right. lia.
Qed.

(** An image extension ends with a letter. *)
Lemma extension_ends_with_letter (ext : jsstring) :
  Exists (same_ignoring_case ext) imageExtensions ->
  exists e x, ext = e ++ [x] /\ isWhiteSpace x = false.
Proof.
  unfold imageExtensions, same_ignoring_case.
  rewrite !Exists_cons, Exists_nil.
  intros [H|[H|[H|[H|[H|[]]]]]].
  - destruct ext as [|a [|b [|x [|? ?]]]]; try discriminate. exists [a; b], x.
    split; [reflexivity|]. injection H as _ _ H.
    apply canonicalize_cases in H as [-> | ->]; reflexivity.
  - destruct ext as [|a [|b [|c [|x [|? ?]]]]]; try discriminate. exists [a; b; c], x.
    split; [reflexivity|]. injection H as _ _ _ H.
    apply canonicalize_cases in H as [-> | ->]; reflexivity.
  - destruct ext as [|a [|b [|x [|? ?]]]]; try discriminate. exists [a; b], x.
    split; [reflexivity|]. injection H as _ _ H.
    apply canonicalize_cases in H as [-> | ->]; reflexivity.
  - destruct ext as [|a [|b [|x [|? ?]]]]; try discriminate. exists [a; b], x.
    split; [reflexivity|]. injection H as _ _ H.
    apply canonicalize_cases in H as [-> | ->]; reflexivity.
  - destruct ext as [|a [|b [|c [|x [|? ?]]]]]; try discriminate. exists [a; b; c], x.
    split; [reflexivity|]. injection H as _ _ _ H.
    apply canonicalize_cases in H as [-> | ->]; reflexivity.
Qed.

Lemma scheme_starts_with_letter (scheme : jsstring) :
  same_ignoring_case scheme (js "http") \/ same_ignoring_case scheme (js "https") ->
  exists c q, scheme = c :: q /\ isWhiteSpace c = false.
Proof.
  unfold same_ignoring_case.
  intros [H|H]; destruct scheme as [|c q]; try discriminate;
    exists c, q; (split; [reflexivity|]);
    injection H as H _; apply canonicalize_cases in H as [-> | ->]; reflexivity.
Qed.

(** Trimming keeps an accepted image URL accepted. *)
Lemma matchesImageUrl_trim (s : jsstring) :
  matchesImageUrl s = true -> matchesImageUrl (trim s) = true.
Proof.
  rewrite !matchesImageUrl_iff.
  intros (scheme & mid & ext & rest & -> & Hs & Hne & Hmid & Hext).
  destruct (scheme_starts_with_letter scheme Hs) as (c & q & -> & Wc).
  destruct (extension_ends_with_letter ext Hext) as (e & x & -> & Wx).
  exists (c :: q), mid, (e ++ [x]), (trimEnd rest).
  repeat split; try assumption.
  replace ((c :: q) ++ js "://" ++ mid ++ js "." ++ (e ++ [x]) ++ rest)
    with ((c :: q ++ js "://" ++ mid ++ js "." ++ e) ++ x :: rest).
  2:{ simpl. rewrite <- !app_assoc. simpl. rewrite <- !app_assoc. reflexivity. }
  rewrite (trim_keeps_prefix c x _ _ Wc Wx).
  simpl. rewrite <- !app_assoc. simpl. rewrite <- !app_assoc. reflexivity.
Qed.

(** X4: the article built from a form that passes validation has a title,
    a summary and a content that are not empty, an image URL that still
    matches the pattern after trimming, a source that is not empty, the
    default 'Cambliss Community' when the field is blank, and a read-time
    of at least one minute. *)
Theorem accepted_article_is_well_formed (env : Env) (u : User) (formData : FormData) :
  firstFailure formData = None ->
  let article := newArticle env u formData in
  truthy (Article.title article) = true /\
  truthy (Article.summary article) = true /\
  truthy (Article.content article) = true /\
  matchesImageUrl (Article.image_url article) = true /\
  truthy (Article.source article) = true /\
  1 <= Article.read_time article /\
  (blank (FormData.source formData) = true ->
   Article.source article = js "Cambliss Community").
Proof.
  intros Hv article. apply firstFailure_None_iff in Hv as (Ht & Hs & Hc & Hi).
  apply titleCheck_iff in Ht as [Ht _].
  apply summaryCheck_iff in Hs as [Hs _].
  apply contentCheck_iff in Hc as [Hc _].
  assert (Hm : matchesImageUrl (FormData.imageUrl formData) = true).
  { unfold imageUrlCheck in Hi.
    destruct (truthy (trim (FormData.imageUrl formData))); [|discriminate].
    destruct (matchesImageUrl (FormData.imageUrl formData)); [reflexivity | discriminate]. }
  subst article. cbn [newArticle Article.title Article.summary Article.content
                        Article.image_url Article.source Article.read_time].
  repeat split; try assumption.
  - apply matchesImageUrl_trim, Hm.
  - unfold or_else. destruct (truthy (trim (FormData.source formData))) eqn:E;
      [exact E | reflexivity].
  - unfold calculateReadTime. lia.
  - intros B. unfold or_else.
    destruct (truthy (trim (FormData.source formData))) eqn:E; [|reflexivity].
    apply trim_truthy_iff in E. congruence.
Qed.

Lemma accepted_article_is_well_formed_witness :
  let article := newArticle (Examples.Form.envOf Examples.Form.ann Examples.Form.created)
                   Examples.Form.ann (Examples.Form.withTitle (Examples.Form.padded 9)) in
  truthy (Article.title article) = true /\
  matchesImageUrl (Article.image_url article) = true /\
  truthy (Article.source article) = true.
Proof.
  destruct (accepted_article_is_well_formed
              (Examples.Form.envOf Examples.Form.ann Examples.Form.created)
              Examples.Form.ann (Examples.Form.withTitle (Examples.Form.padded 9))
              eq_refl)
    as (A & _ & _ & B & C & _).
  cbv zeta. auto.
Defined.

(** *** The read-time estimate *)

Lemma calculateReadTime_wordCount (text : jsstring) :
  calculateReadTime text = Nat.max 1 (ceil_div (wordCount text) 200).
Proof.
  unfold calculateReadTime, wordsPerMinute.
  rewrite split_whitespace_trim_length.
  destruct (trim text) as [|c r] eqn:E.
  - rewrite (wordCount_nil_of_trim text E). reflexivity.
  - rewrite <- E, wordCount_trim. reflexivity.
Qed.

Lemma ceil_div_200 (n : nat) : ceil_div n 200 = (n + 199) / 200.
Proof.
  unfold ceil_div.
  pose proof (Nat.div_mod_eq n 200) as E.
  pose proof (Nat.mod_upper_bound n 200 ltac:(lia)) as B.
  destruct (Nat.eqb_spec (n mod 200) 0) as [H|H].
  - apply (Nat.div_unique _ _ _ 199); lia.
  - apply (Nat.div_unique _ _ _ (n mod 200 - 1)); lia.
Qed.

(** X5: the read-time stored with the article, computed from the content as
    typed, is the read-time of the trimmed content that is stored; and it is
    the number of minutes that covers the words at 200 words a minute: the
    words are at most 200 times the read-time and at least 200 times the
    read-time less one. *)
Theorem read_time_of_the_article (env : Env) (u : User) (formData : FormData) :
  Article.read_time (newArticle env u formData)
  = calculateReadTime (Article.content (newArticle env u formData)) /\
  wordCount (FormData.content formData)
  <= 200 * Article.read_time (newArticle env u formData) /\
  200 * (Article.read_time (newArticle env u formData) - 1)
  <= wordCount (FormData.content formData).
Proof.
  cbn [newArticle Article.read_time Article.content].
  split.
  - unfold calculateReadTime. rewrite trim_idempotent. reflexivity.
  - rewrite calculateReadTime_wordCount, ceil_div_200.
    set (n := wordCount (FormData.content formData)).
    pose proof (Nat.div_mod_eq (n + 199) 200) as E.
    pose proof (Nat.mod_upper_bound (n + 199) 200 ltac:(lia)) as B.
    split; lia.
Qed.

(** X6: a text with at least as many words never gets a smaller
    read-time. *)
Theorem read_time_is_monotone (a b : jsstring) :
  wordCount a <= wordCount b -> calculateReadTime a <= calculateReadTime b.
Proof.
  intros H. rewrite !calculateReadTime_wordCount, !ceil_div_200.
  apply Nat.max_le_compat_l. apply Nat.Div0.div_le_mono. lia.
Qed.

Lemma read_time_is_monotone_witness :
  calculateReadTime (Examples.Form.words 200) <= calculateReadTime (Examples.Form.words 201).
Proof.
  apply read_time_is_monotone. vm_compute. lia.
Defined.

(** *** After the publication *)

(** X7: after an acknowledged publication the form shows no error, is not
    submitting and still holds what was typed; when the timer fires,
    [onSuccess] and [onClose] are each called once and the modal is back in
    its initial state, while the requests, the points and [localStorage]
    stay as the submission left them. *)
Theorem published_modal_resets (rt : Runtime) (env : Env) (st : State) (w : World)
    (u : User) (supabaseUrl supabaseKey : jsstring) (r : Response) (v : Json) :
  isAuthenticated env = true ->
  user env = Some u ->
  VITE_SUPABASE_URL env = Some supabaseUrl -> truthy supabaseUrl = true ->
  VITE_SUPABASE_ANON_KEY env = Some supabaseKey -> truthy supabaseKey = true ->
  firstFailure (formData st) = None ->
  network env (insertRequest supabaseUrl supabaseKey (newArticle env u (formData st)))
  = Resolved r ->
  ok r = true ->
  json r = inr v ->
  let submitted := snd (handleSubmit rt env (st, w)) in
  let fired := runCallback AfterPublish submitted in
  error (fst submitted) = js "" /\
  isSubmitting (fst submitted) = false /\
  formData (fst submitted) = formData st /\
  fst fired = Normal tt /\
  fst (snd fired) = initialState /\
  onSuccessCalls (snd (snd fired)) = S (onSuccessCalls w) /\
  onCloseCalls (snd (snd fired)) = S (onCloseCalls w) /\
  requests (snd (snd fired)) = requests (snd submitted) /\
  pointsAwarded (snd (snd fired)) = pointsAwarded (snd submitted) /\
  localStorage (snd (snd fired)) = localStorage (snd submitted).
Proof.
  intros Hauth Huser Hurl Hurl' Hkey Hkey' Hv Hn Hok Hj submitted fired.
  subst fired submitted.
  destruct supabaseUrl as [|c1 u1]; [discriminate|].
  destruct supabaseKey as [|c2 k2]; [discriminate|].
  rewrite (handleSubmit_valid rt env st w u Hauth Huser Hv).
  unfold runCallback, handleClose, onSuccess, onClose, setFormData.
  run_submit. rewrite Hurl, Hkey, Hn. crunch.
  rewrite Hok. crunch. rewrite Hj. crunch.
  destruct (publishedStories u) as [n|]; crunch; repeat split; reflexivity.
Qed.

Lemma published_modal_resets_witness :
  let submitted := snd (handleSubmit Examples.Form.runtime
                          (Examples.Form.envOf Examples.Form.ann Examples.Form.created)
                          (Examples.Form.stateOf Examples.Form.validForm,
                           Examples.Form.world0)) in
  fst (snd (runCallback AfterPublish submitted)) = initialState /\
  onCloseCalls (snd (snd (runCallback AfterPublish submitted))) = 1.
Proof.
  cbv zeta.
  destruct (published_modal_resets Examples.Form.runtime
              (Examples.Form.envOf Examples.Form.ann Examples.Form.created)
              (Examples.Form.stateOf Examples.Form.validForm)
              Examples.Form.world0 Examples.Form.ann _ _ _ _
              eq_refl eq_refl eq_refl eq_refl eq_refl eq_refl eq_refl
              eq_refl eq_refl eq_refl)
    as (_ & _ & _ & _ & A & _ & B & _).
  split; [exact A | exact B].
Defined.

(** *** Editing the form *)

Lemma setField_get (name value : jsstring) (fd : FormData) :
  is_Some (getField name fd) -> getField name (setField name value fd) = Some value.
Proof.
  unfold getField, setField.
  repeat (case_bool_decide; [subst; reflexivity|]).
  intros [? [=]].
Qed.

Lemma setField_other (name other value : jsstring) (fd : FormData) :
  other <> name -> getField other (setField name value fd) = getField other fd.
Proof.
  intros Hne. unfold setField.
  repeat (case_bool_decide;
          [subst name; unfold getField;
           repeat (case_bool_decide; [try congruence; try reflexivity|]); reflexivity|]).
  reflexivity.
Qed.

(** X8: typing into one of the inputs of the form sets the field of that
    name to the value typed, leaves every other field as it was, clears the
    error, and touches neither the flags nor anything outside the
    component. *)
Theorem handleChange_sets_one_field (name value : jsstring) (st : State) (w : World) :
  name ∈ inputNames ->
  let s' := snd (handleChange name value (st, w)) in
  fst (handleChange name value (st, w)) = Normal tt /\
  getField name (formData (fst s')) = Some value /\
  (forall other, other <> name ->
     getField other (formData (fst s')) = getField other (formData st)) /\
  error (fst s') = js "" /\
  isSubmitting (fst s') = isSubmitting st /\
  success (fst s') = success st /\
  snd s' = w.
Proof.
  intros Hin s'. subst s'.
  unfold handleChange, bind, getFormData, setFormData, setError, modifyState. crunch.
  split; [reflexivity|]. split.
  - apply setField_get. unfold inputNames in Hin.
    repeat (apply elem_of_cons in Hin as [-> | Hin]; [eexists; reflexivity|]).
    inversion Hin.
  - split; [intros other Hne; apply setField_other, Hne|]. auto.
Qed.

Lemma handleChange_sets_one_field_witness :
  let s' := snd (handleChange (js "title") (js "Monsoon")
                   (Examples.Form.stateOf Examples.Form.validForm, Examples.Form.world0)) in
  getField (js "title") (formData (fst s')) = Some (js "Monsoon") /\
  getField (js "summary") (formData (fst s'))
  = Some (FormData.summary Examples.Form.validForm).
Proof.
  cbv zeta.
  assert (Hin : js "title" ∈ inputNames) by (unfold inputNames; constructor).
  destruct (handleChange_sets_one_field (js "title") (js "Monsoon")
              (Examples.Form.stateOf Examples.Form.validForm) Examples.Form.world0 Hin)
    as (_ & A & B & _).
  split; [exact A|].
  exact (B (js "summary") ltac:(discriminate)).
Defined.

Lemma categories_allowed (index : nat) (cat : jsstring * jsstring) :
  categories !! index = Some cat -> category_check (fst cat) = true.
Proof.
  unfold categories.
  do 9 (destruct index as [|index]; [intros [= <-]; vm_compute; reflexivity|]).
  discriminate.
Qed.

Lemma setField_input_keeps_category (name value : jsstring) (fd : FormData) :
  name ∈ inputNames ->
  FormData.category (setField name value fd) = FormData.category fd.
Proof.
  unfold inputNames. intros Hin.
  repeat (apply elem_of_cons in Hin as [-> | Hin]; [reflexivity|]).
  inversion Hin.
Qed.

Lemma handleEvent_keeps_category_allowed (ev : FormEvent) (s : State * World) :
  from_form ev ->
  category_check (FormData.category (formData (fst s))) = true ->
  category_check (FormData.category (formData (fst (snd (handleEvent ev s))))) = true.
Proof.
  destruct s as [st w]. destruct ev as [name value|index|]; cbn [from_form handleEvent].
  - intros Hin H.
    unfold handleChange, bind, getFormData, setFormData, setError, modifyState. crunch.
    rewrite (setField_input_keeps_category name value _ Hin). exact H.
  - intros _ H. destruct (categories !! index) as [cat|] eqn:E.
    + unfold pickCategory, bind, getFormData, setFormData, modifyState. crunch.
      exact (categories_allowed index cat E).
    + exact H.
  - intros _ _. vm_compute. reflexivity.
Qed.

(** X9: whatever the user types into the inputs of the form, whichever
    category buttons are clicked and however often the modal is closed, the
    category of the article built from the form is one of the nine values
    that the CHECK constraint of the table admits. *)
Theorem category_passes_the_table_check (evs : list FormEvent) (w : World)
    (env : Env) (u : User) :
  Forall from_form evs ->
  category_check
    (Article.category
       (newArticle env u (formData (fst (afterEvents evs (initialState, w)))))) = true.
Proof.
  intros H. cbn [newArticle Article.category].
  assert (G : forall s, category_check (FormData.category (formData (fst s))) = true ->
                category_check
                  (FormData.category (formData (fst (afterEvents evs s)))) = true).
  { induction H as [|ev evs Hev _ IH]; intros s Hs; [exact Hs|].
    cbn [afterEvents fold_left]. apply IH.
    apply handleEvent_keeps_category_allowed; assumption. }
  apply G. vm_compute. reflexivity.
Qed.

Lemma category_passes_the_table_check_witness :
  category_check
    (Article.category
       (newArticle (Examples.Form.envOf Examples.Form.ann Examples.Form.created)
          Examples.Form.ann
          (formData (fst (afterEvents
             [Change (js "title") (js "Monsoon session"); PickCategory 3; Close;
              PickCategory 8; Change (js "tags") (js "health, india")]
             (initialState, Examples.Form.world0)))))) = true.
Proof.
  apply category_passes_the_table_check.
  repeat constructor.
Defined.

(** A name from outside the form can leave the table's categories. *)
Lemma category_input_would_escape :
  category_check
    (FormData.category
       (formData (fst (afterEvents [Change (js "category") (js "weather")]
                         (initialState, Examples.Form.world0))))) = false.
Proof. vm_compute. reflexivity. Qed.

(** X10: the image preview is rendered exactly when the modal is open, the
    form is showing (no success message) and the image URL passes the image
    check of validation; in particular, while the form is showing, the
    preview tells whether the image check will pass, and after an
    acknowledged publication, while the success message shows, there is no
    preview. *)
Theorem preview_shown_iff_image_check :
  (forall (isOpen : bool) (st : State),
      previewShown isOpen st = true <->
      isOpen = true /\ success st = false /\ imageUrlCheck (formData st) = None) /\
  (forall st : State,
      formShown true st = true ->
      (previewShown true st = true <-> imageUrlCheck (formData st) = None)) /\
  (let submitted :=
     fst (snd (handleSubmit Examples.Form.runtime
                 (Examples.Form.envOf Examples.Form.ann Examples.Form.created)
                 (Examples.Form.stateOf Examples.Form.validForm, Examples.Form.world0))) in
   previewShown true (Examples.Form.stateOf Examples.Form.validForm) = true /\
   imageUrlCheck (formData submitted) = None /\
   previewShown true submitted = false).
Proof.
  assert (G : forall fd : FormData,
             truthy (FormData.imageUrl fd) && matchesImageUrl (FormData.imageUrl fd) = true <->
             imageUrlCheck fd = None).
  { intros fd. unfold imageUrlCheck.
    destruct (matchesImageUrl (FormData.imageUrl fd)) eqn:E.
    - pose proof (matchesImageUrl_not_blank _ E) as Ht. rewrite Ht. cbn [negb].
      rewrite andb_true_r.
      destruct (FormData.imageUrl fd) as [|c r]; [discriminate Ht|].
      split; reflexivity.
    - rewrite andb_false_r.
      destruct (truthy (trim (FormData.imageUrl fd))); cbn [negb]; split; discriminate. }
  split; [|split].
  - intros isOpen st. unfold previewShown, formShown.
    rewrite <- G, !andb_true_iff, negb_true_iff. tauto.
  - intros st H. unfold previewShown. rewrite H, andb_true_l. apply G.
  - cbv zeta. repeat split; vm_compute; reflexivity.
Qed.

(** *** The tags *)

Lemma elem_of_rev (x : N) (l : jsstring) : x ∈ rev l <-> x ∈ l.
Proof. rewrite !list_elem_of_In. symmetry. apply in_rev. Qed.

Lemma split_char_go_pieces (sep : N) (s cur : jsstring) :
  sep ∉ cur -> Forall (fun piece => sep ∉ piece) (split_char_go sep cur s).
Proof.
  revert cur. induction s as [|c r IH]; intros cur Hcur; simpl.
  - constructor; [|constructor]. rewrite elem_of_rev. exact Hcur.
  - destruct (N.eqb_spec c sep) as [->|Hne].
    + constructor.
      * rewrite elem_of_rev. exact Hcur.
      * apply IH. apply not_elem_of_nil.
    + apply IH. rewrite elem_of_cons. intros [E|E]; [congruence | contradiction].
Qed.

Lemma elem_of_trim (x : N) (s : jsstring) : x ∈ trim s -> x ∈ s.
Proof.
  unfold trim. intros H.
  destruct (trimStart_decompose s) as (w & Hw & _).
  destruct (trimEnd_decompose (trimStart s)) as (w' & Hw' & _).
  rewrite Hw, Hw', !elem_of_app. auto.
Qed.

(** X11: no tag of the article is empty, has white space at either end,
    or contains a comma. *)
Theorem tags_are_clean (formData : FormData) :
  Forall (fun tag => tag <> [] /\ trim tag = tag /\ 44%N ∉ tag) (tagsArray formData).
Proof.
  unfold tagsArray, split_char.
  pose proof (split_char_go_pieces 44 (FormData.tags formData) [] (not_elem_of_nil _)) as H.
  induction H as [|piece pieces Hp _ IH]; cbn [map].
  - constructor.
  - rewrite filter_cons. destruct (decide (0 < length (trim piece))) as [Hl|Hl]; [|exact IH].
    constructor; [|exact IH]. split; [|split].
    + intros E. rewrite E in Hl. simpl in Hl. lia.
    + apply trim_idempotent.
    + intros Hin. apply Hp. apply elem_of_trim, Hin.
Qed.

End AddNewsModalMore.

(** ** MiniPlayer: sessions *)

Module MiniPlayerSessionFacts.
Import MiniPlayer MiniPlayerSession.
Local Open Scope float_scope.

Lemma handleTimeUpdate_in_sync (p : bool) (st : State) :
  InSync st -> InSync (handleTimeUpdate p st).
Proof.
  unfold InSync, handleTimeUpdate, audioPaused.
  destruct (audioRef st) as [a|] eqn:Ha; [|intros H; cbn in H; discriminate].
  intros H. cbn -[FREE_LIMIT].
  destruct (negb p && (FREE_LIMIT <=? Audio.currentTime a)); cbn; rewrite Ha; cbn; auto.
Qed.

Lemma timeupdateEvent_in_sync (time : float) (st : State) :
  InSync st -> InSync (timeupdateEvent time st).
Proof.
  intros H. unfold timeupdateEvent.
  set (st1 := withAudio (Audio.set_currentTime time) st).
  assert (H1 : InSync st1).
  { unfold InSync, audioPaused in *. unfold st1, withAudio. cbn.
    destruct (audioRef st); cbn in *; auto. }
  clearbody st1. clear H.
  generalize (match audioRef st1 with Some a => Audio.timeupdate a | None => [] end).
  intros ls. revert st1 H1. induction ls as [|l ls IH]; intros st1 H1; cbn.
  - exact H1.
  - apply IH. apply handleTimeUpdate_in_sync, H1.
Qed.

Lemma togglePlayPause_in_sync (r : Render) (st : State) :
  InSync st -> InSync (togglePlayPause r st).
Proof.
  unfold InSync, togglePlayPause, audioPaused.
  destruct (audioRef st) as [a|] eqn:Ha; [|intros H; cbn in H; discriminate].
  destruct (episode r); [|rewrite Ha; auto].
  intros H.
  destruct (negb (isPremium r) && (FREE_LIMIT <=? currentTime st)).
  - cbn. rewrite Ha. exact H.
  - destruct (isPlaying st); cbn; rewrite Ha; reflexivity.
Qed.

Lemma handleProgressClick_in_sync (r : Render) (e : MouseEvent) (st : State) :
  InSync st -> InSync (handleProgressClick r e st).
Proof.
  unfold InSync, handleProgressClick, audioPaused.
  destruct (audioRef st) as [a|] eqn:Ha; [|intros H; cbn in H; discriminate].
  destruct (episode r); [|rewrite Ha; auto].
  intros H.
  destruct (negb (isPremium r) && (FREE_LIMIT <=? currentTime st)).
  - rewrite Ha. exact H.
  - cbn. rewrite Ha. exact H.
Qed.

(** X12: the play button agrees with the audio.  The effect that starts an
    episode leaves [isPlaying] true and the audio playing, and every click
    on the play button, every click on the progress bar and every report of
    the position keeps [isPlaying] the negation of the paused flag of the
    audio. *)
Theorem play_button_stays_in_sync :
  (forall (r : Render) (ep : Episode) (st : State),
      episode r = Some ep ->
      InSync (episodeEffect r st) /\
      isPlaying (episodeEffect r st) = true /\
      audioPaused (episodeEffect r st) = Some false) /\
  (forall (r : Render) (evs : list PlayerEvent) (st : State),
      InSync st -> InSync (fold_left (handlePlayerEvent r) evs st)).
Proof.
  split.
  - intros r ep st He. unfold InSync, episodeEffect, audioPaused. rewrite He.
    repeat split; reflexivity.
  - intros r evs. induction evs as [|ev evs IH]; intros st H; cbn; [exact H|].
    apply IH. destruct ev as [|e|time]; cbn.
    + apply togglePlayPause_in_sync, H.
    + apply handleProgressClick_in_sync, H.
    + apply timeupdateEvent_in_sync, H.
Qed.

Lemma play_button_stays_in_sync_witness :
  InSync Examples.Player.freeSession /\
  InSync (fold_left (handlePlayerEvent Examples.Player.freeRender)
            [TimeUpdate 12.5; Toggle; Seek Examples.Player.halfClick; Toggle;
             TimeUpdate 60.25; Toggle]
            Examples.Player.freeSession).
Proof.
  assert (H : InSync Examples.Player.freeSession).
  { exact (proj1 (proj1 play_button_stays_in_sync Examples.Player.freeRender
                    Examples.Player.episode754 initialState eq_refl)). }
  split; [exact H|].
  exact (proj2 play_button_stays_in_sync Examples.Player.freeRender _ _ H).
Defined.

(** Closing pauses the audio and leaves [isPlaying] alone: the two disagree
    until the effect of the next render runs. *)
Lemma handleClosePlayer_out_of_sync :
  ~ InSync (handleClosePlayer Examples.Player.freeSession).
Proof. unfold InSync. cbn. discriminate. Qed.

(** X13: once the limit has triggered in a non-premium session, the
    controls change nothing: after any sequence of clicks on the play button
    and on the progress bar the state is the one the limit left, paused,
    not playing, with the upgrade prompt. *)
Theorem exhausted_preview_is_absorbing (r : Render) (ep : Episode) (st : State)
    (audio : Audio) (controls : list PlayerEvent) :
  isPremium r = false ->
  episode r = Some ep ->
  audioRef st = Some audio ->
  (FREE_LIMIT <=? Audio.currentTime audio) = true ->
  Forall (fun ev => match ev with TimeUpdate _ => False | _ => True end) controls ->
  let exhausted := handleTimeUpdate false st in
  fold_left (handlePlayerEvent r) controls exhausted = exhausted /\
  audioPaused exhausted = Some true /\
  isPlaying exhausted = false /\
  showUpgradePrompt exhausted = true.
Proof.
  intros Hp He Ha Ht Hc exhausted.
  assert (E : exhausted =
              setShowUpgradePrompt true
                (setIsPlaying false
                   (withAudio Audio.pause (setCurrentTime (Audio.currentTime audio) st)))).
  { unfold exhausted, handleTimeUpdate. rewrite Ha. cbn -[FREE_LIMIT]. rewrite Ht.
    reflexivity. }
  assert (Hlim : (FREE_LIMIT <=? currentTime exhausted) = true) by (rewrite E; exact Ht).
  assert (Haud : exists a, audioRef exhausted = Some a).
  { rewrite E. cbn. rewrite Ha. cbn. eauto. }
  assert (Hprompt : setShowUpgradePrompt true exhausted = exhausted)
    by (rewrite E; reflexivity).
  split; [|rewrite E; unfold audioPaused; cbn; rewrite Ha; auto].
  clearbody exhausted. clear E.
  induction Hc as [|ev evs Hev _ IH]; cbn; [reflexivity|].
  destruct Haud as [a Haud].
  assert (Hstep : handlePlayerEvent r exhausted ev = exhausted).
  { destruct ev as [|e|time]; cbn; [| |contradiction].
    - unfold togglePlayPause. rewrite Haud, He, Hp, Hlim. exact Hprompt.
    - unfold handleProgressClick. rewrite Haud, He, Hp, Hlim. reflexivity. }
  rewrite Hstep. exact IH.
Qed.

Lemma exhausted_preview_is_absorbing_witness :
  let st := withAudio (Audio.set_currentTime 60.25) Examples.Player.freeSession in
  fold_left (handlePlayerEvent Examples.Player.freeRender)
    [Toggle; Seek Examples.Player.halfClick; Toggle] (handleTimeUpdate false st)
  = handleTimeUpdate false st.
Proof.
  refine (proj1 (exhausted_preview_is_absorbing Examples.Player.freeRender
            Examples.Player.episode754
            (withAudio (Audio.set_currentTime 60.25) Examples.Player.freeSession)
            _ [Toggle; Seek Examples.Player.halfClick; Toggle]
            eq_refl eq_refl eq_refl eq_refl _)).
  repeat constructor.
Defined.

Lemma remove_own_listeners (r : Render) (ls : list Listener) :
  Forall (fun l => created_by l = render_id r) ls ->
  Audio.remove (listener_of r) ls = [].
Proof.
  unfold Audio.remove. induction 1 as [|l ls Hl _ IH]; [reflexivity|].
  rewrite filter_cons. destruct (decide _) as [D|D]; [|exact IH].
  unfold same_listener, listener_of in D. cbn in D. rewrite Hl, Nat.eqb_refl in D.
  destruct D.
Qed.

(** The effect of a render registers its listener on a new element only. *)
Lemma episodeEffect_listeners (r : Render) (st : State) :
  listeners (episodeEffect r st) =
  match audioRef st, episode r with
  | None, Some _ => [listener_of r]
  | _, _ => listeners st
  end.
Proof.
  unfold episodeEffect, listeners.
  destruct (episode r); destruct (audioRef st) as [a|] eqn:Ha; cbn; rewrite ?Ha;
    reflexivity.
Qed.

Lemma changeEpisode_listeners (r1 r2 : Render) (e1 e2 : Episode) (st : State)
    (audio : Audio) :
  episode r1 = Some e1 ->
  episode r2 = Some e2 ->
  audioRef st = Some audio ->
  listeners_of_render r1 st ->
  listeners (changeEpisode r1 r2 st) = [] /\
  audioPaused (changeEpisode r1 r2 st) = Some false /\
  isPlaying (changeEpisode r1 r2 st) = true /\
  currentTime (changeEpisode r1 r2 st) = currentTime st /\
  showUpgradePrompt (changeEpisode r1 r2 st) = showUpgradePrompt st /\
  (exists a, audioRef (changeEpisode r1 r2 st) = Some a).
Proof.
  intros H1 H2 Ha Hl. unfold listeners_of_render, listeners in Hl. rewrite Ha in Hl.
  unfold changeEpisode, episodeCleanup, episodeEffect, listeners, audioPaused.
  rewrite H1, H2. cbn -[Audio.remove]. rewrite Ha. cbn -[Audio.remove].
  rewrite (remove_own_listeners r1 _ Hl). repeat split; eauto.
Qed.

Lemma timeupdateEvent_without_listener (time : float) (st : State) :
  listeners st = [] ->
  timeupdateEvent time st = withAudio (Audio.set_currentTime time) st.
Proof.
  unfold listeners, timeupdateEvent. intros H.
  replace (match audioRef (withAudio (Audio.set_currentTime time) st) with
           | Some a => Audio.timeupdate a | None => [] end)
    with (@nil Listener); [reflexivity|].
  unfold withAudio. cbn. destruct (audioRef st); cbn; auto.
Qed.

(** X14: when the selected episode changes while the audio element exists,
    the cleanup removes the listeners of the previous render and the effect
    adds none: the next episode plays without a [timeupdate] listener, and
    no report of the position, at or past 60 seconds or not, pauses it,
    shows the prompt or reaches the stored position. *)
Theorem later_episodes_are_not_limited (r1 r2 : Render) (e1 e2 : Episode) (st : State)
    (audio : Audio) (times : list float) :
  episode r1 = Some e1 ->
  episode r2 = Some e2 ->
  audioRef st = Some audio ->
  listeners_of_render r1 st ->
  let next := changeEpisode r1 r2 st in
  let st' := fold_left (fun st time => timeupdateEvent time st) times next in
  listeners next = [] /\
  audioPaused st' = Some false /\
  isPlaying st' = true /\
  showUpgradePrompt st' = showUpgradePrompt st /\
  currentTime st' = currentTime st.
Proof.
  intros H1 H2 Ha Hl next st'.
  destruct (changeEpisode_listeners r1 r2 e1 e2 st audio H1 H2 Ha Hl)
    as (L & P & Hi & C & S & _).
  fold next in L, P, Hi, C, S. split; [exact L|].
  rewrite <- P, <- Hi, <- S, <- C. subst st'. clearbody next.
  clear P Hi C S. revert next L.
  induction times as [|t times IH]; intros next L; cbn [fold_left]; [auto|].
  rewrite (timeupdateEvent_without_listener t next L).
  assert (L' : listeners (withAudio (Audio.set_currentTime t) next) = []).
  { unfold listeners, withAudio in *. cbn. destruct (audioRef next); cbn in *; auto. }
  destruct (IH _ L') as (A & B & C & D).
  rewrite A, B, C, D. unfold audioPaused, withAudio. cbn.
  destruct (audioRef next); cbn; auto.
Qed.

Lemma later_episodes_are_not_limited_witness :
  let next := changeEpisode Examples.Player.freeRender Examples.Player.secondFreeRender
                Examples.Player.freeSession in
  let st' := fold_left (fun st time => timeupdateEvent time st) [30; 75; 900] next in
  listeners next = [] /\
  audioPaused st' = Some false /\
  isPlaying st' = true /\
  showUpgradePrompt st' = false /\
  currentTime st' = 0.
Proof.
  refine (later_episodes_are_not_limited Examples.Player.freeRender
            Examples.Player.secondFreeRender Examples.Player.episode754
            Examples.Player.episode900 Examples.Player.freeSession _ [30; 75; 900]
            eq_refl eq_refl eq_refl _).
  repeat constructor.
Defined.

(** X15: closing the player (the close button, then the page's [onClose]
    and the render without an episode) calls [onClose] once and leaves the
    player not playing, at position 0, without prompt, with the audio paused
    at position 0 and without listeners. *)
Theorem closing_resets_the_player (r1 r2 : Render) (e1 : Episode) (st : State)
    (audio : Audio) :
  episode r1 = Some e1 ->
  episode r2 = None ->
  audioRef st = Some audio ->
  listeners_of_render r1 st ->
  let closed := closePlayer r1 r2 st in
  isPlaying closed = false /\
  currentTime closed = 0 /\
  showUpgradePrompt closed = false /\
  audioPaused closed = Some true /\
  Audio.currentTime <$> audioRef closed = Some 0 /\
  listeners closed = [] /\
  onCloseCalls closed = S (onCloseCalls st).
Proof.
  intros H1 H2 Ha Hl closed. subst closed.
  unfold listeners_of_render, listeners in Hl. rewrite Ha in Hl.
  unfold closePlayer, changeEpisode, handleClosePlayer, episodeCleanup, episodeEffect,
    listeners, audioPaused.
  rewrite H1, H2. cbn -[Audio.remove]. rewrite Ha. cbn -[Audio.remove].
  rewrite (remove_own_listeners r1 _ Hl). repeat split; reflexivity.
Qed.

Lemma closing_resets_the_player_witness :
  let closed := closePlayer Examples.Player.freeRender
                  {| render_id := 2%nat; episode := None; isPremium := false |}
                  (fold_left (handlePlayerEvent Examples.Player.freeRender)
                     [TimeUpdate 60.25] Examples.Player.freeSession) in
  isPlaying closed = false /\
  currentTime closed = 0 /\
  showUpgradePrompt closed = false /\
  audioPaused closed = Some true /\
  Audio.currentTime <$> audioRef closed = Some 0 /\
  listeners closed = [] /\
  onCloseCalls closed = 1%nat.
Proof.
  refine (closing_resets_the_player Examples.Player.freeRender
            {| render_id := 2%nat; episode := None; isPremium := false |}
            Examples.Player.episode754
            (fold_left (handlePlayerEvent Examples.Player.freeRender)
               [TimeUpdate 60.25] Examples.Player.freeSession)
            _ eq_refl eq_refl eq_refl _).
  repeat constructor.
Defined.

(** X16: when the play button is not blocked by the limit (a premium
    render, or a stored position below 60 seconds) and agrees with the
    audio, two clicks on it restore the state. *)
Theorem toggle_twice_restores (r : Render) (st : State) :
  InSync st ->
  isPremium r = true \/ (FREE_LIMIT <=? currentTime st) = false ->
  togglePlayPause r (togglePlayPause r st) = st.
Proof.
  unfold InSync, audioPaused. intros Hs Hfree.
  assert (Hb : negb (isPremium r) && (FREE_LIMIT <=? currentTime st) = false).
  { destruct Hfree as [-> | ->]; [reflexivity | apply andb_false_r]. }
  destruct st as [playing time prompt [a|] closes navs]; cbn -[FREE_LIMIT] in *;
    [|discriminate].
  destruct a as [paused pos src ltime lended]. cbn in Hs. injection Hs as ->.
  unfold togglePlayPause. cbn -[FREE_LIMIT].
  destruct (episode r); [|reflexivity].
  rewrite Hb. destruct playing; cbn -[FREE_LIMIT]; rewrite Hb; reflexivity.
Qed.

Lemma toggle_twice_restores_witness :
  togglePlayPause Examples.Player.freeRender
    (togglePlayPause Examples.Player.freeRender Examples.Player.freeSession)
  = Examples.Player.freeSession.
Proof.
  apply toggle_twice_restores.
  - reflexivity.
  - right. reflexivity.
Defined.

(** X17: a non-premium user whose stored position is at or past the limit
    selects another episode: the audio plays, and whatever follows (clicks
    on the play button, clicks on the progress bar, reports of the position)
    it keeps playing, [isPlaying] stays true and the stored position stays
    where it was. *)
Theorem next_episode_after_exhaustion_cannot_be_paused (r1 r2 : Render) (e1 e2 : Episode)
    (st : State) (audio : Audio) (evs : list PlayerEvent) :
  isPremium r2 = false ->
  episode r1 = Some e1 ->
  episode r2 = Some e2 ->
  audioRef st = Some audio ->
  listeners_of_render r1 st ->
  (FREE_LIMIT <=? currentTime st) = true ->
  let st' := fold_left (handlePlayerEvent r2) evs (changeEpisode r1 r2 st) in
  audioPaused st' = Some false /\
  isPlaying st' = true /\
  currentTime st' = currentTime st.
Proof.
  intros Hp H1 H2 Ha Hl Ht st'.
  destruct (changeEpisode_listeners r1 r2 e1 e2 st audio H1 H2 Ha Hl)
    as (L & P & Hi & C & _ & A).
  subst st'. rewrite <- C in Ht. rewrite <- C.
  remember (changeEpisode r1 r2 st) as next eqn:En. clear En C.
  revert next L P Hi Ht A.
  induction evs as [|ev evs IH]; intros next L P Hi Ht [a A]; cbn [fold_left]; [auto|].
  set (next' := handlePlayerEvent r2 next ev).
  assert (K : listeners next' = [] /\ audioPaused next' = Some false /\
              isPlaying next' = true /\ currentTime next' = currentTime next /\
              exists a', audioRef next' = Some a').
  { unfold next'. destruct ev as [|e|time]; cbn [handlePlayerEvent].
    - unfold togglePlayPause. rewrite A, H2, Hp, Ht. cbn.
      unfold listeners, audioPaused in *. cbn. rewrite A in *. repeat split; eauto.
    - unfold handleProgressClick. rewrite A, H2, Hp, Ht. cbn. repeat split; eauto.
    - rewrite (timeupdateEvent_without_listener time next L).
      unfold listeners, audioPaused, withAudio in *. cbn. rewrite A in *. cbn in *.
      injection P as P. rewrite P. repeat split; eauto. }
  destruct K as (L' & P' & Hi' & C' & A').
  destruct (IH next' L' P' Hi' ltac:(rewrite C'; exact Ht) A') as (X & Y & Z).
  rewrite X, Y, Z, C'. auto.
Qed.

Lemma next_episode_after_exhaustion_cannot_be_paused_witness :
  let exhausted := timeupdateEvent 60.25 Examples.Player.freeSession in
  let st' := fold_left (handlePlayerEvent Examples.Player.secondFreeRender)
               [Toggle; TimeUpdate 120; Seek Examples.Player.halfClick; Toggle]
               (changeEpisode Examples.Player.freeRender Examples.Player.secondFreeRender
                  exhausted) in
  audioPaused st' = Some false /\ isPlaying st' = true /\ currentTime st' = 60.25.
Proof.
  refine (next_episode_after_exhaustion_cannot_be_paused Examples.Player.freeRender
            Examples.Player.secondFreeRender Examples.Player.episode754
            Examples.Player.episode900
            (timeupdateEvent 60.25 Examples.Player.freeSession) _
            [Toggle; TimeUpdate 120; Seek Examples.Player.halfClick; Toggle]
            eq_refl eq_refl eq_refl eq_refl _ eq_refl).
  repeat constructor.
Defined.

End MiniPlayerSessionFacts.

(** ** PodcastsPage *)

Module PodcastsPageFacts.
Import PodcastsPage.

Lemma js_inj (s1 s2 : string) : js s1 = js s2 -> s1 = s2.
Proof.
  unfold js. intros H.
  rewrite <- (String.string_of_list_ascii_of_string s1),
          <- (String.string_of_list_ascii_of_string s2).
  f_equal.
  revert H. generalize (String.list_ascii_of_string s2) as l2.
  induction (String.list_ascii_of_string s1) as [|a l1 IH]; intros [|b l2]; cbn;
    try discriminate; [reflexivity|].
  intros [= Hab Hl]. f_equal.
  - rewrite <- (Ascii.ascii_N_embedding a), <- (Ascii.ascii_N_embedding b), Hab.
    reflexivity.
  - apply IH, Hl.
Qed.

Lemma toString_inj (a b : nat) : toString a = toString b -> a = b.
Proof. unfold toString. intros H. apply js_inj in H. apply (inj pretty) in H. exact H. Qed.

(** The seconds are shown with two digits, which read back as the number. *)
Lemma seconds_display (k : nat) :
  k < 60 ->
  length (padStart 2 48 (toString k)) = 2 /\ two_digits (padStart 2 48 (toString k)) = k.
Proof.
  intros H.
  do 60 (destruct k as [|k]; [vm_compute; split; reflexivity|]).
  lia.
Qed.

Lemma formatDuration_inj (a b : nat) :
  formatDuration a = formatDuration b -> a = b.
Proof.
  unfold formatDuration. intros H.
  pose proof (seconds_display (a mod 60) (Nat.mod_upper_bound a 60 ltac:(lia))) as [La Da].
  pose proof (seconds_display (b mod 60) (Nat.mod_upper_bound b 60 ltac:(lia))) as [Lb Db].
  rewrite !app_assoc in H.
  apply app_inj_2 in H as [Hm Hs]; [|congruence].
  apply app_inj_2 in Hm as [Hm _]; [|reflexivity].
  apply toString_inj in Hm.
  assert (Hmod : a mod 60 = b mod 60) by (rewrite <- Da, <- Db, Hs; reflexivity).
  rewrite (Nat.div_mod_eq a 60), (Nat.div_mod_eq b 60). congruence.
Qed.

(** X18: a duration in whole seconds is displayed as its minutes, a colon
    and exactly two characters that read back as its seconds; two different
    durations are never displayed alike. *)
Theorem formatDuration_display :
  (forall seconds : nat,
      exists secs : jsstring,
        formatDuration seconds = toString (seconds / 60) ++ js ":" ++ secs /\
        length secs = 2 /\
        two_digits secs = seconds mod 60) /\
  (forall a b : nat, a <> b -> formatDuration a <> formatDuration b).
Proof.
  split.
  - intros seconds. exists (padStart 2 48 (toString (seconds mod 60))).
    split; [reflexivity|].
    apply seconds_display, Nat.mod_upper_bound. lia.
  - intros a b Hne H. apply Hne, formatDuration_inj, H.
Qed.

Lemma formatDuration_display_witness :
  formatDuration 59 <> formatDuration 60 /\ formatDuration 754 <> formatDuration 1354.
Proof.
  split; apply (proj2 formatDuration_display); lia.
Defined.

Example formatDuration_examples :
  formatDuration 754 = js "12:34" /\ formatDuration 60 = js "1:00" /\
  formatDuration 5 = js "0:05" /\ formatDuration 1353 = js "22:33".
Proof. repeat split; vm_compute; reflexivity. Qed.

(** X19: the page shows one episode for each of the first six articles, in
    their order: the episode has the id, the image and the date of its
    article, the title of the article followed by ' (Audio)', the audio URL
    made of the id, and a duration between 754 and 1353 seconds, which is
    longer than the free preview. *)
Theorem episodes_of_the_page (draw : nat -> nat) (articles : list NewsArticle) :
  (forall index, draw index < 600) ->
  length (episodes draw articles) = Nat.min 6 (length articles) /\
  forall (index : nat) (ep : PodcastEpisode),
    episodes draw articles !! index = Some ep ->
    index < 6 /\
    exists article,
      articles !! index = Some article /\
      id ep = a_id article /\
      title ep = a_title article ++ js " (Audio)" /\
      audioUrl ep = js "https://fakeaudio.com/" ++ a_id article ++ js ".mp3" /\
      imageUrl ep = a_imageUrl article /\
      publishedAt ep = a_publishedAt article /\
      754 <= duration ep <= 1353.
Proof.
  intros Hd. unfold episodes. split.
  - rewrite length_imap, length_take. reflexivity.
  - intros index ep H. rewrite list_lookup_imap in H.
    destruct (take 6 articles !! index) as [article|] eqn:E; [|discriminate].
    injection H as <-.
    assert (Hi : index < 6).
    { apply lookup_lt_Some in E. rewrite length_take in E. lia. }
    split; [exact Hi|]. exists article.
    rewrite lookup_take_lt in E by exact Hi.
    cbn. specialize (Hd index). repeat split; try assumption; try reflexivity; lia.
Qed.

Lemma episodes_of_the_page_witness :
  let articles :=
    map (fun n => {| a_id := js (pretty n); a_title := js "Story"; a_imageUrl := js "";
                     a_publishedAt := js "2025-11-06" |}) (seq 1 8) in
  let draw := fun index => 100 * index mod 600 in
  length (episodes draw articles) = 6 /\
  forall index ep, episodes draw articles !! index = Some ep -> 754 <= duration ep <= 1353.
Proof.
  cbv zeta.
  destruct (episodes_of_the_page (fun index => 100 * index mod 600)
      (map (fun n => {| a_id := js (pretty n); a_title := js "Story"; a_imageUrl := js "";
                        a_publishedAt := js "2025-11-06" |}) (seq 1 8))
      (fun index => Nat.mod_upper_bound (100 * index) 600 ltac:(lia))) as [L H].
  split; [rewrite L; reflexivity|].
  intros index ep E. destruct (H index ep E) as (_ & article & _ & _ & _ & _ & _ & _ & B).
  exact B.
Defined.

End PodcastsPageFacts.

(** ** The table user_articles *)

Module UserArticlesFacts.
Import UserArticles.

Lemma sql_eq_true (a b : option jsstring) :
  sql_eq a b = true <-> exists x, a = Some x /\ b = Some x.
Proof.
  unfold sql_eq. destruct a as [x|], b as [y|]; try (split; [discriminate|]);
    try (intros (z & H1 & H2); discriminate).
  rewrite bool_decide_eq_true. split.
  - intros ->. eauto.
  - intros (z & [= ->] & [= ->]). reflexivity.
Qed.

(** X20: an UPDATE that is stored was made by an authenticated caller whose
    id is the [author_id] of the existing row, it keeps that [author_id],
    its [updated_at] is the time of the update whatever the statement
    supplied, and its category satisfies the CHECK constraint. *)
Theorem permitted_update_keeps_the_author (now : Z) (c : Caller) (old new stored : Row) :
  update now c old new = Some stored ->
  role c = authenticated /\
  (exists author_uid,
      uid c = Some author_uid /\
      author_id old = Some author_uid /\
      author_id stored = Some author_uid) /\
  updated_at stored = now /\
  category stored = category new /\
  category_check (category stored) = true.
Proof.
  unfold update, can_update, is_authenticated.
  destruct (role c) eqn:Hr; cbn [andb]; [discriminate|].
  destruct (sql_eq (uid c) (author_id old)) eqn:E1; cbn [andb]; [|discriminate].
  destruct (sql_eq (uid c) (author_id new)) eqn:E2; cbn [andb]; [|discriminate].
  destruct (category_check (category new)) eqn:E3; [|discriminate].
  intros [= <-]. cbn.
  apply sql_eq_true in E1 as (x & Hx & Hold).
  apply sql_eq_true in E2 as (y & Hy & Hnew).
  assert (x = y) by congruence. subst y.
  repeat split; try assumption; try reflexivity. eauto.
Qed.

Lemma permitted_update_keeps_the_author_witness :
  let author1 := {| role := authenticated; uid := Some (js "user_1") |} in
  let old := {| author := js "Ann Rao"; author_id := Some (js "user_1");
                category := js "india"; updated_at := 100 |} in
  let new := {| author := js "Ann Rao"; author_id := Some (js "user_1");
                category := js "world"; updated_at := 0 |} in
  exists stored, update 250 author1 old new = Some stored /\ updated_at stored = 250%Z.
Proof.
  cbv zeta. eexists. split; [reflexivity|].
  exact (proj1 (proj2 (proj2
    (permitted_update_keeps_the_author 250%Z
       {| role := authenticated; uid := Some (js "user_1") |}
       {| author := js "Ann Rao"; author_id := Some (js "user_1");
          category := js "india"; updated_at := 100 |}
       {| author := js "Ann Rao"; author_id := Some (js "user_1");
          category := js "world"; updated_at := 0 |}
       _ eq_refl)))).
Defined.

(** X21: through the roles of the API, a row without [author_id] can be
    neither updated nor deleted by anyone; a caller whose id is not the
    [author_id] of a row can neither update nor delete it; and the role
    [anon] can read every row and can neither insert, update nor delete. *)
Theorem rows_nobody_can_change :
  (forall (now : Z) (c : Caller) (old new : Row),
      author_id old = None ->
      update now c old new = None /\ can_delete c old = false) /\
  (forall (now : Z) (c : Caller) (old new : Row),
      uid c <> author_id old ->
      update now c old new = None /\ can_delete c old = false) /\
  (forall (now : Z) (c : Caller) (old new : Row),
      role c = anon ->
      can_select c old = true /\ can_insert c new = false /\
      update now c old new = None /\ can_delete c old = false).
Proof.
  split; [|split].
  - intros now c old new H. unfold update, can_update, can_delete, sql_eq. rewrite H.
    destruct (uid c); rewrite !andb_false_r; auto.
  - intros now c old new H. unfold update, can_update, can_delete.
    assert (E : sql_eq (uid c) (author_id old) = false).
    { destruct (sql_eq (uid c) (author_id old)) eqn:E; [|reflexivity].
      apply sql_eq_true in E as (x & Hx & Hy). congruence. }
    rewrite E, !andb_false_r. auto.
  - intros now c old new H.
    unfold update, can_update, can_delete, can_insert, can_select, is_authenticated.
    rewrite H. auto.
Qed.

Lemma rows_nobody_can_change_witness :
  let orphan := {| author := js "Guest"; author_id := None;
                   category := js "india"; updated_at := 100 |} in
  let author1 := {| role := authenticated; uid := Some (js "user_1") |} in
  let visitor := {| role := anon; uid := None |} in
  let row2 := {| author := js "Bo"; author_id := Some (js "user_2");
                 category := js "india"; updated_at := 100 |} in
  (update 250 author1 orphan orphan = None /\ can_delete author1 orphan = false) /\
  (update 250 author1 row2 row2 = None /\ can_delete author1 row2 = false) /\
  (can_select visitor row2 = true /\ can_insert visitor row2 = false /\
   update 250 visitor row2 row2 = None /\ can_delete visitor row2 = false).
Proof.
  cbv zeta. split; [|split].
  - apply (proj1 rows_nobody_can_change). reflexivity.
  - apply (proj1 (proj2 rows_nobody_can_change)). discriminate.
  - apply (proj2 (proj2 rows_nobody_can_change)). reflexivity.
Defined.

End UserArticlesFacts.
